(** * Liar's Dice: a shallow embedding of the rules engine

    The Python classes [Die], [Player], [Bid], [RoundHandler] and
    [GameHandler] are rendered as records with the operations that the
    source defines on them.

    - Python [int] is [Z]; list positions and lengths are [nat].
    - Exceptions are values of [exn]: the Python class and the message of
      the [raise] statement.
    - A method that validates before it mutates returns a [result]; a
      method that can raise after it has already mutated its object runs in
      the monad [M], whose outcomes carry the state reached so far.
    - The Player objects of a game live in one list, shared by the round
      handler, the game handler and every bid.  A reference to a Player is
      its position in that list.
    - The isinstance guards on numbers and strings are discharged by
      typing and do not appear; a guard on a Player argument refuses a
      position that holds no Player.
    - The dice are rolled on entropy that the caller of a method supplies:
      a method is a function of the objects and of what the dice show. *)

From Stdlib Require Import ZArith Lia DecimalString.
From stdpp Require Import base list strings.

Local Open Scope Z_scope.

(** ** Exceptions and outcomes *)

Inductive exn : Type :=
| TypeError (msg : string)
| ValueError (msg : string)
| IndexError (msg : string)
| ZeroDivisionError (msg : string)
| Exception (msg : string).

Inductive result (A : Type) : Type :=
| Ok (a : A)
| Error (e : exn).
Arguments Ok {A} a.
Arguments Error {A} e.

(** Outcome of a method run on an object of type [S]: it returns, it
    raises, or it never comes back.  The object is carried in each case,
    as the mutations made before a raise stay visible to the caller. *)
Inductive Res (S A : Type) : Type :=
| Return (a : A) (s : S)
| Raise (e : exn) (s : S)
| Diverge (s : S).
Arguments Return {S A} a s.
Arguments Raise {S A} e s.
Arguments Diverge {S A} s.

Definition M (S A : Type) : Type := S -> Res S A.

Definition ret {S A} (a : A) : M S A := fun s => Return a s.

Definition bind {S A B} (m : M S A) (f : A -> M S B) : M S B :=
  fun s =>
    match m s with
    | Return a s' => f a s'
    | Raise e s' => Raise e s'
    | Diverge s' => Diverge s'
    end.

Definition raise {S A} (e : exn) : M S A := fun s => Raise e s.
Definition get {S} : M S S := fun s => Return s s.
Definition put {S} (s : S) : M S unit := fun _ => Return tt s.
Definition modify {S} (f : S -> S) : M S unit := fun s => Return tt (f s).

Notation "'let*' x ':=' c1 'in' c2" := (bind c1 (fun x => c2))
  (at level 10, x name, c1 at level 100, c2 at level 200).
Notation "c1 ;; c2" := (bind c1 (fun _ => c2))
  (at level 100, c2 at level 200, right associativity).

(** A loop that has used up its iterations. *)
Definition diverge {S A} : M S A := fun s => Diverge s.

(** A [result] computed from the current object, which it leaves alone. *)
Definition lift {S A} (r : result A) : M S A :=
  match r with
  | Ok a => ret a
  | Error e => raise e
  end.

(** [for x in xs: body x] *)
Fixpoint for_each {S A} (xs : list A) (body : A -> M S unit) : M S unit :=
  match xs with
  | [] => ret tt
  | x :: xs' => body x ;; for_each xs' body
  end.

(** The object as the caller finds it once the call is over. *)
Definition final {S A} (r : Res S A) : S :=
  match r with
  | Return _ s => s
  | Raise _ s => s
  | Diverge s => s
  end.

(** ** state.py *)

Inductive PlayerState : Type := ACTIVE | LOST | WAITING | WON.
Inductive GameState : Type := RUNNING | OVER.

Global Instance PlayerState_eq_dec : EqDecision PlayerState.
Proof. solve_decision. Defined.
Global Instance GameState_eq_dec : EqDecision GameState.
Proof. solve_decision. Defined.

(** ** dice.py *)

Module Die.

Record t : Type := mk { sides : Z }.

Definition init (sides : Z) : result t :=
  if sides <=? 1 then Error (ValueError "Number of sides must be greater than 1")
  else Ok (mk sides).

(** [Die()] *)
Definition default : t := mk 6.

(** [random.randint(a, b)] on the entropy [r]: every value of [a..b] is
    the image of some [r]. *)
Definition randint (a b r : Z) : Z := a + r mod (b - a + 1).

Definition roll (d : t) (r : Z) : Z := randint 1 (sides d) r.

(** [roll_dice(num)], [entropy i] feeding the [i]-th roll. *)
Definition roll_dice (d : t) (num : Z) (entropy : nat -> Z) : result (list Z) :=
  if num <=? 0 then Error (ValueError "Number of times thrown must be greater than 0")
  else Ok ((fun i => roll d (entropy i)) <$> seq 0 (Z.to_nat num)).

Definition set_sides (d : t) (n : Z) : result t :=
  if n <=? 1 then Error (ValueError "Number of sides must be greater than 1")
  else Ok (mk n).

End Die.

(** ** players.py *)

Module Player.

Record t : Type := mk {
  name : string;
  state : PlayerState;
  dice : list Die.t;
  last_roll : list Z
}.

Definition with_state (s : PlayerState) (p : t) : t :=
  mk (name p) s (dice p) (last_roll p).
Definition with_dice (d : list Die.t) (p : t) : t :=
  mk (name p) (state p) d (last_roll p).
Definition with_last_roll (l : list Z) (p : t) : t :=
  mk (name p) (state p) (dice p) l.

Definition init (name : string) (dice_count : Z) : result t :=
  if dice_count <? 1 then Error (ValueError "Dice count must be greater than 0")
  else Ok (mk name WAITING (replicate (Z.to_nat dice_count) Die.default) []).

Definition get_dice_count (p : t) : Z := Z.of_nat (length (dice p)).

(** [self.dice[i].roll() for i in range(count)], [entropy i] feeding
    the [i]-th roll; [count <= len(self.dice)] is checked by the caller. *)
Definition roll_first (p : t) (count : nat) (entropy : nat -> Z) : list Z :=
  imap (fun i d => Die.roll d (entropy i)) (take count (dice p)).

Definition make_roll (p : t) (count : Z) (entropy : nat -> Z) : result (list Z * t) :=
  if count <? 1 then
    Error (ValueError "Number of dice to roll must be greater than 0")
  else if count >? get_dice_count p then
    Error (ValueError
      "Number of dice to roll must be less or equal to the number of dice in game")
  else
    let copy_roll := last_roll p ++ roll_first p (Z.to_nat count) entropy in
    Ok (copy_roll, with_last_roll copy_roll p).

(** [self.dice.pop()] drops the last die. *)
Definition lose_die (p : t) : result t :=
  match dice p with
  | [] => Error (IndexError "pop from empty list")
  | _ :: _ =>
      let p' := with_dice (removelast (dice p)) p in
      if get_dice_count p' =? 0 then Ok (with_state LOST p') else Ok p'
  end.

Definition get_die_value (p : t) : result Z :=
  match dice p with
  | [] => Error (IndexError "list index out of range")
  | d :: _ => Ok (Die.sides d)
  end.

Definition is_active (p : t) : bool := bool_decide (state p = ACTIVE).

Definition reset_roll (p : t) : result t :=
  if bool_decide (state p = LOST) then
    Error (Exception "Player cannot roll dice after losing")
  else Ok (with_last_roll [] p).

Definition set_state (p : t) (s : PlayerState) : result t :=
  if bool_decide (state p = LOST) then
    Error (Exception "Player cannot come back after losing")
  else Ok (with_state s p).

End Player.

(** ** bid.py *)

Module Bid.

(** [player] refers to the Player object that made the bid. *)
Record t : Type := mk {
  quantity : Z;
  value : Z;
  player : nat
}.

(** [Bid(quantity, value, player)], the Player objects being [heap]. *)
Definition init (heap : list Player.t) (quantity value : Z) (player : nat) : result t :=
  match heap !! player with
  | None => Error (TypeError "Player must be a Player instance")
  | Some p =>
      if (quantity <? 1) || (value <? 1) then
        Error (ValueError "Quantity and value must be greater than 0")
      else if negb (Player.is_active p) then
        Error (ValueError "Player is not active")
      else Ok (mk quantity value player)
  end.

Definition get_player_name (heap : list Player.t) (b : t) : option string :=
  Player.name <$> heap !! player b.

(** [__eq__] *)
Definition eq (heap : list Player.t) (a b : t) : bool :=
  (quantity a =? quantity b) && (value a =? value b) &&
  bool_decide (get_player_name heap a = get_player_name heap b).

(** [__gt__] *)
Definition gt (a b : t) : bool :=
  (quantity a >? quantity b) || (value a >? value b).

(** [__lt__] *)
Definition lt (a b : t) : bool :=
  (quantity a <? quantity b) || (value a <? value b).

End Bid.

(** ** round_handler.py *)

Module RoundHandler.

Record t : Type := mk {
  players : list Player.t;
  round_number : Z;
  current_player_id : nat;
  current_bid : option Bid.t;
  dice_count : Z
}.

Definition with_players (ps : list Player.t) (rh : t) : t :=
  mk ps (round_number rh) (current_player_id rh) (current_bid rh) (dice_count rh).
Definition with_round_number (n : Z) (rh : t) : t :=
  mk (players rh) n (current_player_id rh) (current_bid rh) (dice_count rh).
Definition with_current_player_id (i : nat) (rh : t) : t :=
  mk (players rh) (round_number rh) i (current_bid rh) (dice_count rh).
Definition with_current_bid (b : option Bid.t) (rh : t) : t :=
  mk (players rh) (round_number rh) (current_player_id rh) b (dice_count rh).

Definition sum_Z (l : list Z) : Z := foldr Z.add 0 l.

Definition init (players : list Player.t) : t :=
  mk players 0 0%nat None (sum_Z (Player.get_dice_count <$> players)).

(** [self.players[i]] *)
Definition subscript (i : nat) : M t Player.t :=
  fun rh =>
    match players rh !! i with
    | Some p => Return p rh
    | None => Raise (IndexError "list index out of range") rh
    end.

(** A method of the Player at position [i] that returns a value. *)
Definition call {A} (i : nat) (method : Player.t -> result (A * Player.t)) : M t A :=
  let* p := subscript i in
  let* r := lift (method p) in
  modify (fun rh => with_players (<[i := r.2]> (players rh)) rh) ;;
  ret r.1.

(** A method of the Player at position [i] that returns [None]. *)
Definition call_ (i : nat) (method : Player.t -> result Player.t) : M t unit :=
  call i (fun p => match method p with Ok p' => Ok (tt, p') | Error e => Error e end).

(** [self.players[i].state = s], no check made. *)
Definition assign_state (i : nat) (s : PlayerState) : M t unit :=
  let* p := subscript i in
  modify (fun rh => with_players (<[i := Player.with_state s p]> (players rh)) rh).

(** The positions that [for player in self.players] goes through. *)
Definition positions : M t (list nat) :=
  fun rh => Return (seq 0 (length (players rh))) rh.

Definition start_round (entropy : nat -> nat -> Z) : M t unit :=
  modify (fun rh => with_round_number (round_number rh + 1) rh) ;;
  let* ps := positions in
  for_each ps (fun i =>
    call i (fun p => Player.make_roll p (Player.get_dice_count p) (entropy i)) ;;
    ret tt) ;;
  modify (with_current_bid None) ;;
  let* rh := get in
  call_ (current_player_id rh) (fun p => Player.set_state p ACTIVE).

Definition is_higher_bid (new_bid : Bid.t) (current_bid : option Bid.t) : bool :=
  match current_bid with
  | None => true
  | Some cur =>
      if Bid.quantity new_bid >? Bid.quantity cur then true
      else if (Bid.quantity new_bid =? Bid.quantity cur) &&
              (Bid.value new_bid >? Bid.value cur) then true
      else false
  end.

(** The body of [while True] in [next_player], run at most [fuel] times.
    The modulo by the length of an empty list is not reached from
    [next_player], whose first statement has subscripted the list. *)
Fixpoint next_player_loop (fuel : nat) : M t unit :=
  match fuel with
  | O => diverge
  | S fuel' =>
      let* rh := get in
      if bool_decide (length (players rh) = 0%nat) then
        raise (ZeroDivisionError "integer modulo by zero")
      else
        modify (with_current_player_id
                  ((current_player_id rh + 1) mod length (players rh))%nat) ;;
        let* rh := get in
        let* next_player := subscript (current_player_id rh) in
        if bool_decide (Player.state next_player = WAITING) then ret tt
        else next_player_loop fuel'
  end.

(** One pass over the list visits every position, so [len(self.players)]
    iterations decide the loop (see [next_player_loop_stuck]). *)
Definition next_player : M t unit :=
  let* rh := get in
  assign_state (current_player_id rh) WAITING ;;
  next_player_loop (length (players rh)) ;;
  let* rh := get in
  assign_state (current_player_id rh) ACTIVE.

(** Returns the position of the first Player named [name]. *)
Definition get_player_by_name (name : string) : M t nat :=
  let* rh := get in
  match list_find (fun p => Player.name p = name) (players rh) with
  | Some (i, _) => ret i
  | None => raise (Exception "Player not found")
  end.

Definition make_bid (player_name : string) (number_of_dice dice_value : Z) : M t unit :=
  let* player := get_player_by_name player_name in
  let* p := subscript player in
  if dice_value <? 1 then raise (ValueError "Bid value must be greater than 0")
  else
    let* die_value := lift (Player.get_die_value p) in
    if dice_value >? die_value then
      raise (ValueError "Bid value must be less or equal to the value of dice in game")
    else
      let* rh := get in
      if number_of_dice >? dice_count rh then
        raise (ValueError
          "Number of dice must be equal or less than number of dice in game")
      else if bool_decide (Player.state p <> ACTIVE) then
        raise (ValueError ("Player " +:+ player_name +:+ " is not active"))
      else
        let previous_bid := current_bid rh in
        let* new_bid := lift (Bid.init (players rh) number_of_dice dice_value player) in
        if negb (is_higher_bid new_bid previous_bid) then
          raise (ValueError "Bid must be higher than the previous one!")
        else
          modify (with_current_bid (Some new_bid)) ;;
          next_player.

Definition str (z : Z) : string := NilZero.string_of_int (Z.to_int z).

Definition count_dice_value (value : Z) : M t Z :=
  let* rh := get in
  let* cur := subscript (current_player_id rh) in
  let* max_die_value := lift (Player.get_die_value cur) in
  if (value <? 1) || (value >? max_die_value) then
    raise (ValueError ("Value must be between 1 and " +:+ str max_die_value))
  else
    ret (sum_Z ((fun p => Z.of_nat (length (filter (fun roll => roll = value)
                                                   (Player.last_roll p))))
                <$> players rh)).

(** [player.state = PlayerState.LOST], no check made. *)
Definition eliminate_player (player : nat) : M t unit :=
  let* rh := get in
  match players rh !! player with
  | None => raise (Exception "Player must be an instance of Player")
  | Some _ => assign_state player LOST
  end.

Definition apply_penalty (player : nat) : M t unit :=
  let* rh := get in
  match players rh !! player with
  | None => raise (Exception "Player must be an instance of Player")
  | Some _ =>
      call_ player Player.lose_die ;;
      let* p := subscript player in
      if Player.get_dice_count p =? 0 then eliminate_player player else ret tt
  end.

Definition reset_players_after_round : M t unit :=
  let* ps := positions in
  for_each ps (fun i =>
    call_ i Player.reset_roll ;;
    let* p := subscript i in
    if Player.get_dice_count p =? 0 then eliminate_player i
    else call_ i (fun p => Player.set_state p WAITING)).

Definition resolve_challenge (bidder challenger : nat)
    (target_dice_amount value_of_die : Z) : nat :=
  if value_of_die <? target_dice_amount then bidder else challenger.

Definition get_active_player : M t nat :=
  let* rh := get in
  match list_find (fun p => Player.is_active p = true) (players rh) with
  | Some (i, _) => ret i
  | None => raise (Exception "No active player")
  end.

Definition check_if_start_next_round : M t bool :=
  let* rh := get in
  let active_players := filter (fun p => Player.state p <> LOST) (players rh) in
  ret (Z.of_nat (length active_players) >? 1).

Definition end_game_info : M t string :=
  let* rh := get in
  match filter (fun p => Player.state p <> LOST) (players rh) with
  | winner :: _ => ret (Player.name winner)
  | [] => raise (Exception "No winner")
  end.

(** The guard [not self.current_bid.player] never fires: a Player
    object is truthy. *)
Definition challenge_and_end_round (player_name : string)
    (entropy : nat -> nat -> Z) : M t string :=
  let* rh := get in
  match current_bid rh with
  | None => raise (ValueError "No bid to challenge")
  | Some bid =>
      let* player := get_player_by_name player_name in
      let* p := subscript player in
      if bool_decide (Player.state p <> ACTIVE) then
        raise (ValueError ("Player " +:+ player_name +:+ " is not active"))
      else
        let bidder := Bid.player bid in
        let challenger := player in
        let target_value := Bid.value bid in
        let target_dice_amount := Bid.quantity bid in
        let* value_of_die := count_dice_value target_value in
        let loser := resolve_challenge bidder challenger target_dice_amount value_of_die in
        apply_penalty loser ;;
        reset_players_after_round ;;
        let* again := check_if_start_next_round in
        (if again then start_round entropy else (end_game_info ;; ret tt)) ;;
        let* l := subscript loser in
        ret (Player.name l)
  end.

End RoundHandler.

(** ** game_handler.py *)

Module GameHandler.

(** [self.players] and [self.round_handler.players] are one list
    object: the record keeps it in the round handler only. *)
Record t : Type := mk {
  players_names : list string;
  dice_count : Z;
  round_handler : RoundHandler.t;
  game_state : GameState
}.

Definition players (gh : t) : list Player.t :=
  RoundHandler.players (round_handler gh).

Definition with_round_handler (rh : RoundHandler.t) (gh : t) : t :=
  mk (players_names gh) (dice_count gh) rh (game_state gh).

(** Runs a method of [self.round_handler]. *)
Definition on_round_handler {A} (m : M RoundHandler.t A) : M t A :=
  fun gh =>
    match m (round_handler gh) with
    | Return a rh => Return a (with_round_handler rh gh)
    | Raise e rh => Raise e (with_round_handler rh gh)
    | Diverge rh => Diverge (with_round_handler rh gh)
    end.

Fixpoint create_players (players_names : list string) (dice_count : Z)
    : result (list Player.t) :=
  match players_names with
  | [] => Ok []
  | name :: rest =>
      match Player.init name dice_count with
      | Error e => Error e
      | Ok p =>
          match create_players rest dice_count with
          | Error e => Error e
          | Ok ps => Ok (p :: ps)
          end
      end
  end.

Definition init (players_names : list string) (dice_count : Z) : result t :=
  if dice_count <? 1 then Error (ValueError "Dice count must be more or equal to 1")
  else
    match create_players players_names dice_count with
    | Error e => Error e
    | Ok ps => Ok (mk players_names dice_count (RoundHandler.init ps) RUNNING)
    end.

(** The guard on [active_player] rejects what is not a Player object. *)
Definition the_player (active_player : nat) : M t Player.t :=
  fun gh =>
    match players gh !! active_player with
    | Some p => Return p gh
    | None => Raise (TypeError "Active player must be a Player instance") gh
    end.

Definition play_bid_turn (active_player : nat) (number_of_dice dice_value : Z)
    : M t unit :=
  let* p := the_player active_player in
  if bool_decide (Player.state p <> ACTIVE) then
    raise (Exception "Player is not active")
  else
    on_round_handler
      (RoundHandler.make_bid (Player.name p) number_of_dice dice_value).

Definition play_challenge_turn (active_player : nat) (entropy : nat -> nat -> Z)
    : M t string :=
  let* p := the_player active_player in
  if negb (bool_decide (Player.state p = ACTIVE)) then
    raise (Exception "Player is not active")
  else
    on_round_handler (RoundHandler.challenge_and_end_round (Player.name p) entropy).

Definition play_check_turn (active_player : nat) : M t (list Z) :=
  let* p := the_player active_player in
  if negb (bool_decide (Player.state p = ACTIVE)) then
    raise (Exception "Player is not active")
  else ret (Player.last_roll p).

Definition get_active_player : M t nat :=
  on_round_handler RoundHandler.get_active_player.

Definition start_round (entropy : nat -> nat -> Z) : M t unit :=
  on_round_handler (RoundHandler.start_round entropy).

Definition get_round_number (gh : t) : Z :=
  RoundHandler.round_number (round_handler gh).

Definition get_current_bid (gh : t) : option Bid.t :=
  RoundHandler.current_bid (round_handler gh).

Definition check_if_start_next_round : M t bool :=
  on_round_handler RoundHandler.check_if_start_next_round.

Definition end_game_info : M t string :=
  on_round_handler RoundHandler.end_game_info.

End GameHandler.

(** ** Programs over the core

    A caller of the core is a sequence of method calls, on the game
    handler, on its round handler or on one of the Player objects (and
    their dice).  [run] gives the objects as they are once the calls have
    been made, whether a call returned or raised; a caller that catches
    the exception goes on with the objects as the raise left them. *)

Inductive PlayerOp : Type :=
| MakeRoll (count : Z) (entropy : nat -> Z)
| LoseDie
| ResetRoll
| SetState (s : PlayerState)
| SetSides (die : nat) (sides : Z).

Inductive RoundOp : Type :=
| StartRound (entropy : nat -> nat -> Z)
| MakeBid (player_name : string) (number_of_dice dice_value : Z)
| NextPlayer
| ChallengeAndEndRound (player_name : string) (entropy : nat -> nat -> Z)
| CountDiceValue (value : Z)
| ApplyPenalty (player : nat)
| ResetPlayersAfterRound
| GetPlayerByName (name : string)
| EliminatePlayer (player : nat)
| GetActivePlayer
| CheckIfStartNextRound
| EndGameInfo
| OnPlayer (player : nat) (op : PlayerOp).

Inductive GameOp : Type :=
| PlayBidTurn (active_player : nat) (number_of_dice dice_value : Z)
| PlayChallengeTurn (active_player : nat) (entropy : nat -> nat -> Z)
| PlayCheckTurn (active_player : nat)
| GameGetActivePlayer
| GameStartRound (entropy : nat -> nat -> Z)
| GameCheckIfStartNextRound
| GameEndGameInfo
| OnRoundHandler (op : RoundOp).

Definition player_method (op : PlayerOp) (p : Player.t) : result Player.t :=
  match op with
  | MakeRoll count entropy =>
      match Player.make_roll p count entropy with
      | Ok (_, p') => Ok p'
      | Error e => Error e
      end
  | LoseDie => Player.lose_die p
  | ResetRoll => Player.reset_roll p
  | SetState s => Player.set_state p s
  | SetSides j n =>
      match Player.dice p !! j with
      | None => Error (IndexError "list index out of range")
      | Some d =>
          match Die.set_sides d n with
          | Ok d' => Ok (Player.with_dice (<[j := d']> (Player.dice p)) p)
          | Error e => Error e
          end
      end
  end.

Definition run_round_op (op : RoundOp) (rh : RoundHandler.t) : RoundHandler.t :=
  match op with
  | StartRound entropy => final (RoundHandler.start_round entropy rh)
  | MakeBid name n v => final (RoundHandler.make_bid name n v rh)
  | NextPlayer => final (RoundHandler.next_player rh)
  | ChallengeAndEndRound name entropy =>
      final (RoundHandler.challenge_and_end_round name entropy rh)
  | CountDiceValue v => final (RoundHandler.count_dice_value v rh)
  | ApplyPenalty r => final (RoundHandler.apply_penalty r rh)
  | ResetPlayersAfterRound => final (RoundHandler.reset_players_after_round rh)
  | GetPlayerByName name => final (RoundHandler.get_player_by_name name rh)
  | EliminatePlayer r => final (RoundHandler.eliminate_player r rh)
  | GetActivePlayer => final (RoundHandler.get_active_player rh)
  | CheckIfStartNextRound => final (RoundHandler.check_if_start_next_round rh)
  | EndGameInfo => final (RoundHandler.end_game_info rh)
  | OnPlayer i op => final (RoundHandler.call_ i (player_method op) rh)
  end.

Definition run_game_op (op : GameOp) (gh : GameHandler.t) : GameHandler.t :=
  match op with
  | PlayBidTurn r n v => final (GameHandler.play_bid_turn r n v gh)
  | PlayChallengeTurn r entropy => final (GameHandler.play_challenge_turn r entropy gh)
  | PlayCheckTurn r => final (GameHandler.play_check_turn r gh)
  | GameGetActivePlayer => final (GameHandler.get_active_player gh)
  | GameStartRound entropy => final (GameHandler.start_round entropy gh)
  | GameCheckIfStartNextRound => final (GameHandler.check_if_start_next_round gh)
  | GameEndGameInfo => final (GameHandler.end_game_info gh)
  | OnRoundHandler op =>
      GameHandler.with_round_handler (run_round_op op (GameHandler.round_handler gh)) gh
  end.

Definition run_round (ops : list RoundOp) (rh : RoundHandler.t) : RoundHandler.t :=
  foldl (fun s op => run_round_op op s) rh ops.

Definition run (ops : list GameOp) (gh : GameHandler.t) : GameHandler.t :=
  foldl (fun s op => run_game_op op s) gh ops.

(** ** Vocabulary of the properties *)

(** [I] holds of the object after the call if it held before, however
    the call ends. *)
Definition inv {S A} (I : S -> Prop) (m : M S A) : Prop :=
  forall s, I s -> I (final (m s)).

(** The dice showing [value] among all recorded rolls. *)
Definition dice_showing (value : Z) (ps : list Player.t) : Z :=
  Z.of_nat (length (filter (fun roll => roll = value)
                           (concat (Player.last_roll <$> ps)))).

(** The rule that the specification gives for [candidate > current]. *)
Definition higher_by_either (q v : Z) (current : Bid.t) : Prop :=
  q > Bid.quantity current \/ v > Bid.value current.

(** The rule of [is_higher_bid]. *)
Definition higher_quantity_first (q v : Z) (current : Bid.t) : Prop :=
  q > Bid.quantity current \/ (q = Bid.quantity current /\ v > Bid.value current).

(** What the scan of [next_player] finds: it stops [d] positions after
    the current one, at the first WAITING player, and touches nothing but
    the rotation pointer. *)
Definition stops_at (rh : RoundHandler.t) (d : nat) (rh' : RoundHandler.t) : Prop :=
  let n := length (RoundHandler.players rh) in
  let c := RoundHandler.current_player_id rh in
  rh' = RoundHandler.with_current_player_id ((c + d) mod n)%nat rh /\
  (exists p, RoundHandler.players rh !! ((c + d) mod n)%nat = Some p /\
             Player.state p = WAITING) /\
  (forall d' p, (1 <= d' < d)%nat ->
     RoundHandler.players rh !! ((c + d') mod n)%nat = Some p ->
     Player.state p <> WAITING).

(** None of the [k] positions after the current one holds a WAITING
    player. *)
Definition none_waiting_within (rh : RoundHandler.t) (k : nat) : Prop :=
  let n := length (RoundHandler.players rh) in
  let c := RoundHandler.current_player_id rh in
  forall d' p, (1 <= d' <= k)%nat ->
    RoundHandler.players rh !! ((c + d') mod n)%nat = Some p ->
    Player.state p <> WAITING.

(** The method of the round handler that a method of the game handler
    comes down to, if it gets that far. *)
Definition round_ops_of (op : GameOp) (gh : GameHandler.t) : list RoundOp :=
  match op with
  | PlayBidTurn r n v =>
      match GameHandler.players gh !! r with
      | Some p =>
          if bool_decide (Player.state p = ACTIVE) then [MakeBid (Player.name p) n v]
          else []
      | None => []
      end
  | PlayChallengeTurn r entropy =>
      match GameHandler.players gh !! r with
      | Some p =>
          if bool_decide (Player.state p = ACTIVE)
          then [ChallengeAndEndRound (Player.name p) entropy]
          else []
      | None => []
      end
  | PlayCheckTurn _ => []
  | GameGetActivePlayer => [GetActivePlayer]
  | GameStartRound entropy => [StartRound entropy]
  | GameCheckIfStartNextRound => [CheckIfStartNextRound]
  | GameEndGameInfo => [EndGameInfo]
  | OnRoundHandler op => [op]
  end.

(** The call [player.set_state(PlayerState.WON)] made by the caller. *)
Definition passes_WON (op : GameOp) : Prop :=
  exists player, op = OnRoundHandler (OnPlayer player (SetState WON)).

Definition in_play (s : PlayerState) : Prop :=
  s = WAITING \/ s = ACTIVE \/ s = LOST.

Definition states_of (gh : GameHandler.t) : list PlayerState :=
  Player.state <$> GameHandler.players gh.

(** A player that is in the game and holds a die. *)
Definition playing (p : Player.t) : Prop :=
  Player.state p <> LOST /\ Player.dice p <> [].

(** What [reset_players_after_round] does with the player at [x]. *)
Definition reset_one (x : nat) : M RoundHandler.t unit :=
  RoundHandler.call_ x Player.reset_roll ;;
  let* p := RoundHandler.subscript x in
  if Player.get_dice_count p =? 0 then RoundHandler.eliminate_player x
  else RoundHandler.call_ x (fun p => Player.set_state p WAITING).

(** The player as [reset_players_after_round] leaves it, and as
    [start_round] leaves the player at position [k]. *)
Definition after_reset (p : Player.t) : Player.t :=
  Player.with_state WAITING (Player.with_last_roll [] p).

Definition after_roll (entropy : nat -> nat -> Z) (k : nat) (p : Player.t) : Player.t :=
  Player.with_last_roll
    (Player.last_roll p ++ Player.roll_first p (length (Player.dice p)) (entropy k)) p.

(** The players once [loser] has paid one die and stays in the game. *)
Definition penalised (loser : nat) (ps : list Player.t) : list Player.t :=
  match ps !! loser with
  | Some pl => <[loser := Player.with_dice (removelast (Player.dice pl)) pl]> ps
  | None => ps
  end.

(** The players as [start_round] leaves them: all have rolled their
    hand, and the player at the rotation pointer is ACTIVE. *)
Definition round_started (entropy : nat -> nat -> Z) (cur : nat)
    (ps : list Player.t) : list Player.t :=
  let rolled := imap (after_roll entropy) ps in
  match rolled !! cur with
  | Some pc => <[cur := Player.with_state ACTIVE pc]> rolled
  | None => rolled
  end.

(** ** Sample games *)

(** Entropy that makes every six-sided die show a three. *)
Definition threes : nat -> nat -> Z := fun _ _ => 2.

(** Jan and Kowalski with five dice each; Jan to act, then Kowalski. *)
Definition jan_to_act : list Player.t :=
  [ Player.mk "Jan" ACTIVE (replicate 5 Die.default) [];
    Player.mk "Kowalski" WAITING (replicate 5 Die.default) [] ].

Definition kowalski_to_act : list Player.t :=
  [ Player.mk "Jan" WAITING (replicate 5 Die.default) [];
    Player.mk "Kowalski" ACTIVE (replicate 5 Die.default) [] ].

(** Jan to act on the bid [standing], made by Kowalski. *)
Definition bidding_table (standing : option Bid.t) : RoundHandler.t :=
  RoundHandler.mk jan_to_act 1 0%nat standing 10.

(** Kowalski to act on Jan's bid of three fours; [fours] dice of Jan show
    a four, and none of Kowalski's. *)
Definition challenge_table (fours : nat) : RoundHandler.t :=
  RoundHandler.mk
    [ Player.mk "Jan" WAITING (replicate 5 Die.default)
        (replicate fours 4 ++ replicate (5 - fours) 1);
      Player.mk "Kowalski" ACTIVE (replicate 5 Die.default) [5; 6; 1; 2; 3] ]
    1 1%nat (Some (Bid.mk 3 4 0%nat)) 10.

(** A new game of Jan alone, with two dice. *)
Definition solo_start : GameHandler.t :=
  GameHandler.mk ["Jan"] 2
    (RoundHandler.init [ Player.mk "Jan" WAITING [Die.default; Die.default] [] ])
    RUNNING.

(** A new game of Jan and Kowalski with one die each. *)
Definition two_player_start : GameHandler.t :=
  GameHandler.mk ["Jan"; "Kowalski"] 1
    (RoundHandler.init
       [ Player.mk "Jan" WAITING [Die.default] [];
         Player.mk "Kowalski" WAITING [Die.default] [] ])
    RUNNING.

(** Jan bids one three, Kowalski one four, and Jan challenges: no die
    shows a four, Kowalski loses the only die and is LOST.  This is the
    round handler that is left; the rotation pointer is on Jan. *)
Definition lone_survivor : RoundHandler.t :=
  RoundHandler.mk
    [ Player.mk "Jan" WAITING [Die.default] [];
      Player.mk "Kowalski" LOST [] [3] ]
    1 0%nat (Some (Bid.mk 1 4 1%nat)) 2.

(** Jan and Kowalski with two dice each, not yet in a game. *)
Definition two_dice_each : list Player.t :=
  [ Player.mk "Jan" WAITING [Die.default; Die.default] [];
    Player.mk "Kowalski" WAITING [Die.default; Die.default] [] ].

(** Jan bids one three, Kowalski challenges and loses a die: three dice
    are left in play, and Kowalski opens the second round. *)
Definition after_one_challenge : RoundHandler.t :=
  run_round [StartRound threes; MakeBid "Jan" 1 3; ChallengeAndEndRound "Kowalski" threes]
    (RoundHandler.init two_dice_each).

(** A new game of Jan, Kowalski and Tomasz with one die each. *)
Definition three_player_start : GameHandler.t :=
  GameHandler.mk ["Jan"; "Kowalski"; "Tomasz"] 1
    (RoundHandler.init
       [ Player.mk "Jan" WAITING [Die.default] [];
         Player.mk "Kowalski" WAITING [Die.default] [];
         Player.mk "Tomasz" WAITING [Die.default] [] ])
    RUNNING.

(** Jan bids one three and Kowalski challenges; every die shows a three,
    so that Kowalski loses the only die. *)
Definition kowalski_eliminated : GameHandler.t :=
  run [GameStartRound threes; PlayBidTurn 0 1 3; PlayChallengeTurn 1 threes]
    three_player_start.

(** ** Further vocabulary *)

(** A face that the die [d] can show. *)
Definition face_of (d : Die.t) (v : Z) : Prop := 1 <= v <= Die.sides d.

(** [lose_die] called [k] times in a row. *)
Fixpoint lose_dice (k : nat) (p : Player.t) : result Player.t :=
  match k with
  | O => Ok p
  | S k' =>
      match Player.lose_die p with
      | Ok p' => lose_dice k' p'
      | Error e => Error e
      end
  end.

(** The players still in the game, in list order. *)
Definition not_LOST (rh : RoundHandler.t) : list Player.t :=
  filter (fun p => Player.state p <> LOST) (RoundHandler.players rh).

(** The number of values recorded as rolled, and of dice held, over all
    players. *)
Definition rolls_recorded (ps : list Player.t) : Z :=
  RoundHandler.sum_Z ((fun p => Z.of_nat (length (Player.last_roll p))) <$> ps).

Definition dice_in_play (ps : list Player.t) : Z :=
  RoundHandler.sum_Z (Player.get_dice_count <$> ps).

(** Jan, then two players called Kowalski, the second of them ACTIVE. *)
Definition namesakes : RoundHandler.t :=
  RoundHandler.mk
    [ Player.mk "Jan" WAITING [Die.default] [];
      Player.mk "Kowalski" WAITING [Die.default] [];
      Player.mk "Kowalski" ACTIVE [Die.default] [] ]
    1 2%nat None 3.

Global Instance Die_eq_dec : EqDecision Die.t.
Proof. solve_decision. Defined.

(** A player that is not LOST, as [reset_players_after_round] leaves it:
    the recorded roll cleared, LOST without dice and WAITING with. *)
Definition after_reset_any (p : Player.t) : Player.t :=
  Player.mk (Player.name p)
    (if bool_decide (Player.dice p = []) then LOST else WAITING)
    (Player.dice p) [].

(** The players when a loop over them has dealt with the first [k],
    replacing the player at position [i] by [f i] of it. *)
Definition done_upto (k : nat) (f : nat -> Player.t -> Player.t)
    (ps : list Player.t) : list Player.t :=
  imap f (take k ps) ++ drop k ps.

(** What [start_round] does with the player at position [i]. *)
Definition roll_one (entropy : nat -> nat -> Z) (i : nat) : M RoundHandler.t unit :=
  RoundHandler.call i
    (fun p => Player.make_roll p (Player.get_dice_count p) (entropy i)) ;;
  ret tt.

(** Jan has challenged and Kowalski has paid the only die: the round
    handler as [apply_penalty] leaves it, before the players are reset. *)
Definition kowalski_just_out : RoundHandler.t :=
  RoundHandler.mk
    [ Player.mk "Jan" ACTIVE [Die.default] [3];
      Player.mk "Kowalski" LOST [] [3];
      Player.mk "Tomasz" WAITING [Die.default] [3] ]
    1 0%nat (Some (Bid.mk 1 4 1%nat)) 3.

(** The names of the players, in list order. *)
Definition names_of (rh : RoundHandler.t) : list string :=
  Player.name <$> RoundHandler.players rh.


(** The players [ps] at a table where it is the turn of the player at
    position [cur]: that player ACTIVE, every other player WAITING. *)
Definition seated (cur : nat) (ps : list Player.t) : list Player.t :=
  imap (fun i p => Player.with_state (if decide (i = cur) then ACTIVE else WAITING) p) ps.

(** [next_player] called [k] times in a row. *)
Definition turns (k : nat) (rh : RoundHandler.t) : RoundHandler.t :=
  Nat.iter k (fun s => final (RoundHandler.next_player s)) rh.

(** A call of a method of a Player object: the object as the call leaves
    it, which is the object of before when the call raises. *)
Definition run_player_op (op : PlayerOp) (p : Player.t) : Player.t :=
  match player_method op p with
  | Ok p' => p'
  | Error _ => p
  end.

Definition run_player (ops : list PlayerOp) (p : Player.t) : Player.t :=
  foldl (fun p op => run_player_op op p) p ops.

(** * Properties *)

Ltac mred :=
  unfold bind, ret, raise, get, put, modify, lift, diverge in *; simpl in *.

(** ** Challenge resolution *)

Lemma sum_counts_dice_showing value ps :
  RoundHandler.sum_Z
    ((fun p => Z.of_nat (length (filter (fun roll => roll = value) (Player.last_roll p))))
       <$> ps) = dice_showing value ps.
Proof.
  unfold dice_showing, RoundHandler.sum_Z.
  induction ps as [|p ps IH]; [reflexivity|].
  rewrite !fmap_cons. cbn [foldr concat].
  rewrite IH, filter_app, length_app. lia.
Qed.

Lemma count_dice_value_Return value rh (c : Z) rh' :
  RoundHandler.count_dice_value value rh = Return c rh' ->
  rh' = rh /\ c = dice_showing value (RoundHandler.players rh).
Proof.
  unfold RoundHandler.count_dice_value, RoundHandler.subscript. mred.
  destruct (RoundHandler.players rh !! RoundHandler.current_player_id rh); [|discriminate].
  destruct (Player.get_die_value t); simpl; [|discriminate].
  destruct ((value <? 1) || (value >? a)); [discriminate|].
  intros [= <- <-]. split; [reflexivity|]. apply sum_counts_dice_showing.
Qed.

(** C6. With a bid of quantity [Q], and [C] the number of dice showing
    the bid's face value over the recorded rolls of all players (which is
    what [count_dice_value] returns), the loser of the challenge is the
    bidder when [C < Q] and the challenger when [C >= Q]. *)
Theorem resolve_challenge_loser (rh rh' : RoundHandler.t) (bid : Bid.t)
    (challenger : nat) (C : Z) :
  RoundHandler.count_dice_value (Bid.value bid) rh = Return C rh' ->
  C = dice_showing (Bid.value bid) (RoundHandler.players rh) /\
  (C < Bid.quantity bid ->
     RoundHandler.resolve_challenge (Bid.player bid) challenger (Bid.quantity bid) C
       = Bid.player bid) /\
  (C >= Bid.quantity bid ->
     RoundHandler.resolve_challenge (Bid.player bid) challenger (Bid.quantity bid) C
       = challenger).
Proof.
  intros Hc. apply count_dice_value_Return in Hc as [_ ->].
  unfold RoundHandler.resolve_challenge.
  split; [reflexivity|]. split; intros H.
  - apply Z.ltb_lt in H. rewrite H. reflexivity.
  - apply Z.ge_le, Z.ltb_ge in H. rewrite H. reflexivity.
Qed.

Lemma resolve_challenge_loser_witness :
  RoundHandler.count_dice_value 4 (challenge_table 2) = Return 2 (challenge_table 2) /\
  RoundHandler.resolve_challenge 0 1 3 2 = 0%nat /\
  RoundHandler.count_dice_value 4 (challenge_table 3) = Return 3 (challenge_table 3) /\
  RoundHandler.resolve_challenge 0 1 3 3 = 1%nat.
Proof.
  split; [vm_compute; reflexivity|]. split.
  - refine (proj1 (proj2 (resolve_challenge_loser (challenge_table 2) (challenge_table 2)
                            (Bid.mk 3 4 0%nat) 1%nat 2 _)) _);
      [vm_compute; reflexivity | simpl; lia].
  - split; [vm_compute; reflexivity|].
    refine (proj2 (proj2 (resolve_challenge_loser (challenge_table 3) (challenge_table 3)
                            (Bid.mk 3 4 0%nat) 1%nat 3 _)) _);
      [vm_compute; reflexivity | simpl; lia].
Defined.

(** ** Bid comparison *)

(** C3 (as the code has it).  Equal bids are neither greater nor less
    than each other; two bids that differ in quantity or in face value
    are related by [>] or by [<]; [a < b] is [b > a]; and every bid is
    higher than no bid.  Two bids of the same quantity and face value
    are neither [>] nor [<], and they are [==] exactly when their players
    carry the same name: by players of different names they are not
    [==], not [>] and not [<]. *)
Theorem bid_comparison_laws (heap : list Player.t) (a b : Bid.t) :
  Bid.eq heap a b && (Bid.gt a b || Bid.lt a b) = false /\
  (Bid.gt a b = true \/ Bid.lt a b = true \/
   (Bid.quantity a = Bid.quantity b /\ Bid.value a = Bid.value b)) /\
  Bid.lt a b = Bid.gt b a /\
  RoundHandler.is_higher_bid a None = true /\
  (forall pa pb,
     heap !! Bid.player a = Some pa -> heap !! Bid.player b = Some pb ->
     Bid.quantity a = Bid.quantity b -> Bid.value a = Bid.value b ->
     Bid.gt a b = false /\ Bid.lt a b = false /\
     (Bid.eq heap a b = true <-> Player.name pa = Player.name pb) /\
     (Player.name pa <> Player.name pb -> Bid.eq heap a b = false)).
Proof.
  unfold Bid.eq, Bid.gt, Bid.lt, Bid.get_player_name. simpl.
  destruct a as [qa va pa], b as [qb vb pb]; simpl.
  split; [|split; [|split; [|split]]].
  - destruct (Z.eqb_spec qa qb), (Z.eqb_spec va vb); simpl; try reflexivity.
    subst. rewrite !Z.gtb_ltb, !Z.ltb_irrefl. simpl. apply andb_false_r.
  - rewrite !Z.gtb_ltb.
    destruct (Z.ltb_spec qb qa), (Z.ltb_spec vb va), (Z.ltb_spec qa qb),
      (Z.ltb_spec va vb); simpl; auto; right; right; lia.
  - rewrite !Z.gtb_ltb. reflexivity.
  - reflexivity.
  - intros x y Hx Hy -> ->. rewrite Hx, Hy. simpl.
    rewrite !Z.gtb_ltb, !Z.ltb_irrefl, !Z.eqb_refl. simpl.
    split; [reflexivity|]. split; [reflexivity|].
    case_bool_decide as Hn; split.
    + split; [intros _; congruence|reflexivity].
    + intros Hne. congruence.
    + split; [discriminate|]. intros He. exfalso. apply Hn. congruence.
    + reflexivity.
Qed.

(** Jan's and Kowalski's bids of two threes are not equal; the bids of
    one three of two players called Kowalski are. *)
Lemma bid_comparison_laws_witness :
  Bid.gt (Bid.mk 2 3 0) (Bid.mk 2 3 1) = false /\
  Bid.lt (Bid.mk 2 3 0) (Bid.mk 2 3 1) = false /\
  Bid.eq kowalski_to_act (Bid.mk 2 3 0) (Bid.mk 2 3 1) = false /\
  Bid.eq (RoundHandler.players namesakes) (Bid.mk 1 3 1) (Bid.mk 1 3 2) = true.
Proof.
  destruct (proj2 (proj2 (proj2 (proj2
              (bid_comparison_laws kowalski_to_act (Bid.mk 2 3 0) (Bid.mk 2 3 1)))))
              (Player.mk "Jan" WAITING (replicate 5 Die.default) [])
              (Player.mk "Kowalski" ACTIVE (replicate 5 Die.default) [])
              eq_refl eq_refl eq_refl eq_refl)
    as (Hgt & Hlt & _ & Hne).
  split; [exact Hgt|]. split; [exact Hlt|]. split; [apply Hne; discriminate|].
  apply (proj2 (proj2 (proj2 (proj2
           (bid_comparison_laws (RoundHandler.players namesakes)
              (Bid.mk 1 3 1) (Bid.mk 1 3 2)))))
           (Player.mk "Kowalski" WAITING [Die.default] [])
           (Player.mk "Kowalski" ACTIVE [Die.default] [])
           eq_refl eq_refl eq_refl eq_refl).
  reflexivity.
Defined.

(** C3, as stated, fails: two valid bids of the same quantity and face
    value by different players are neither [>], [==] nor [<]. *)
Lemma bid_trichotomy_fails :
  Bid.init jan_to_act 2 3 0 = Ok (Bid.mk 2 3 0) /\
  Bid.init kowalski_to_act 2 3 1 = Ok (Bid.mk 2 3 1) /\
  Bid.gt (Bid.mk 2 3 0) (Bid.mk 2 3 1) = false /\
  Bid.eq kowalski_to_act (Bid.mk 2 3 0) (Bid.mk 2 3 1) = false /\
  Bid.lt (Bid.mk 2 3 0) (Bid.mk 2 3 1) = false.
Proof. repeat split. Qed.

(** The comparison that [__gt__] computes holds both ways between a bid
    of two sixes and a bid of five ones. *)
Lemma bid_gt_both_ways :
  Bid.gt (Bid.mk 2 6 0) (Bid.mk 5 1 0) = true /\
  Bid.gt (Bid.mk 5 1 0) (Bid.mk 2 6 0) = true.
Proof. split; reflexivity. Qed.

(** ** Turn rotation *)

Section NextPlayer.
Import RoundHandler.

Lemma subscript_Some i rh p :
  players rh !! i = Some p -> subscript i rh = Return p rh.
Proof. unfold subscript. intros ->. reflexivity. Qed.

Lemma subscript_None i rh :
  players rh !! i = None ->
  subscript i rh = Raise (IndexError "list index out of range") rh.
Proof. unfold subscript. intros ->. reflexivity. Qed.

Lemma assign_state_Some i s rh p :
  players rh !! i = Some p ->
  assign_state i s rh
    = Return tt (with_players (<[i := Player.with_state s p]> (players rh)) rh).
Proof. intros H. unfold assign_state, bind. rewrite (subscript_Some _ _ _ H). reflexivity. Qed.

Lemma next_player_loop_spec fuel : forall rh,
  length (players rh) <> 0%nat ->
  match next_player_loop fuel rh with
  | Return _ rh' => exists d, (1 <= d <= fuel)%nat /\ stops_at rh d rh'
  | Raise _ _ => False
  | Diverge rh' => players rh' = players rh /\ none_waiting_within rh fuel
  end.
Proof.
  induction fuel as [|fuel IH]; intros rh Hn.
  - simpl. split; [reflexivity|]. intros d' p Hd. lia.
  - cbn [next_player_loop]. unfold bind at 1, get.
    rewrite bool_decide_false by assumption.
    unfold bind at 1, modify. unfold bind at 1, get. unfold bind at 1.
    set (c := current_player_id rh). set (n := length (players rh)).
    set (rh1 := with_current_player_id ((c + 1) mod n)%nat rh).
    assert (Hlt : ((c + 1) mod n < n)%nat) by (apply Nat.mod_upper_bound; assumption).
    destruct (lookup_lt_is_Some_2 (players rh) _ Hlt) as [p Hp].
    rewrite (subscript_Some _ rh1 p) by exact Hp.
    case_bool_decide as Hw.
    + exists 1%nat. split; [lia|]. split; [reflexivity|]. split.
      * exists p. split; assumption.
      * intros d' q Hd. lia.
    + specialize (IH rh1 Hn).
      assert (Hshift : forall d, (((c + 1) mod n + d) mod n = (c + S d) mod n)%nat).
      { intros d. rewrite Nat.Div0.add_mod_idemp_l. f_equal. lia. }
      destruct (next_player_loop fuel rh1) as [[] rh'|e rh'|rh'].
      * destruct IH as (d & Hd & Hrh' & (q & Hq & Hqw) & Hfirst).
        simpl in Hrh', Hq, Hfirst. fold c n in Hrh', Hq, Hfirst.
        rewrite Hshift in Hrh', Hq.
        exists (S d). split; [lia|]. split; [exact Hrh'|]. split.
        { exists q. split; assumption. }
        intros d' q' Hd' Hq'. fold c n in Hq'.
        destruct (decide (d' = 1%nat)) as [->|Hne].
        { rewrite Hp in Hq'. injection Hq' as <-. exact Hw. }
        apply (Hfirst (d' - 1)%nat q'); [lia|].
        rewrite Hshift. replace (S (d' - 1)) with d' by lia. exact Hq'.
      * exact IH.
      * destruct IH as [Hps Hnone]. split; [exact Hps|].
        intros d' q' Hd' Hq'. fold c n in Hq'.
        destruct (decide (d' = 1%nat)) as [->|Hne].
        { rewrite Hp in Hq'. injection Hq' as <-. exact Hw. }
        apply (Hnone (d' - 1)%nat q'); [lia|].
        simpl. fold c n. rewrite Hshift.
        replace (S (d' - 1)) with d' by lia. exact Hq'.
Qed.

End NextPlayer.

Section NextPlayerTotal.
Import RoundHandler.

Lemma next_player_loop_S fuel rh :
  next_player_loop (S fuel) rh =
    if bool_decide (length (players rh) = 0%nat) then
      Raise (ZeroDivisionError "integer modulo by zero") rh
    else
      let rh1 := with_current_player_id
                   ((current_player_id rh + 1) mod length (players rh))%nat rh in
      match players rh1 !! current_player_id rh1 with
      | Some p =>
          if bool_decide (Player.state p = WAITING) then Return tt rh1
          else next_player_loop fuel rh1
      | None => Raise (IndexError "list index out of range") rh1
      end.
Proof.
  cbn [next_player_loop]. unfold bind at 1, get.
  case_bool_decide; [reflexivity|].
  unfold bind, modify, get, subscript. simpl.
  destruct (players rh !! _); [|reflexivity].
  case_bool_decide; reflexivity.
Qed.

(** More iterations do not change a scan that has come to an end. *)
Lemma next_player_loop_more fuel k : forall rh,
  (forall s, next_player_loop fuel rh <> Diverge s) ->
  next_player_loop (fuel + k) rh = next_player_loop fuel rh.
Proof.
  induction fuel as [|fuel IH]; intros rh Hend.
  - exfalso. apply (Hend rh). reflexivity.
  - replace (S fuel + k)%nat with (S (fuel + k)) by lia.
    rewrite !next_player_loop_S. rewrite next_player_loop_S in Hend.
    case_bool_decide; [reflexivity|]. cbv zeta in *.
    destruct (players _ !! _); [|reflexivity].
    case_bool_decide; [reflexivity|].
    apply IH. exact Hend.
Qed.

(** A scan that is still running after [len(self.players)] iterations
    never ends: no player is WAITING. *)
Lemma next_player_loop_stuck rh s :
  length (players rh) <> 0%nat ->
  next_player_loop (length (players rh)) rh = Diverge s ->
  forall fuel, exists s', next_player_loop fuel rh = Diverge s'.
Proof.
  intros Hn Hdiv fuel.
  pose proof (next_player_loop_spec (length (players rh)) rh Hn) as Hfull.
  rewrite Hdiv in Hfull. destruct Hfull as [_ Hnone].
  pose proof (next_player_loop_spec fuel rh Hn) as Hf.
  destruct (next_player_loop fuel rh) as [[] rh'|e rh'|rh'].
  - exfalso. destruct Hf as (d & Hd & _ & (p & Hp & Hw) & _).
    set (n := length (players rh)) in *. set (c := current_player_id rh) in *.
    apply (Hnone ((d - 1) mod n + 1)%nat p); [| | exact Hw].
    + pose proof (Nat.mod_upper_bound (d - 1) n Hn). lia.
    + fold n c. rewrite <- Hp.
      rewrite Nat.add_assoc, (Nat.add_comm c), <- Nat.add_assoc.
      rewrite Nat.Div0.add_mod_idemp_l. f_equal. f_equal. lia.
  - destruct Hf.
  - eauto.
Qed.

(** What [next_player] does, with the rotation pointer inside the list:
    it returns; the player it selects is the first one, going round from
    the position after the current actor, that is WAITING once the
    current actor has been demoted; afterwards the selected player is
    ACTIVE, the previous actor is WAITING unless it is the selected one,
    every other player is as before, and only states have changed. *)
Lemma next_player_spec (rh : t) :
  (current_player_id rh < length (players rh))%nat ->
  let n := length (players rh) in
  let c := current_player_id rh in
  exists rh' d,
    let j := ((c + d) mod n)%nat in
    next_player rh = Return tt rh' /\
    (1 <= d <= n)%nat /\
    rh' = with_current_player_id j (with_players (players rh') rh) /\
    (exists p, players rh !! j = Some p /\ (Player.state p = WAITING \/ j = c)) /\
    (forall d' p, (1 <= d' < d)%nat ->
       players rh !! ((c + d') mod n)%nat = Some p -> Player.state p <> WAITING) /\
    (forall i p, players rh !! i = Some p ->
       players rh' !! i =
         Some (Player.with_state
                 (if decide (i = j) then ACTIVE
                  else if decide (i = c) then WAITING else Player.state p) p)) /\
    length (players rh') = n /\
    ((forall i p, i <> c -> players rh !! i = Some p -> Player.state p <> ACTIVE) ->
     forall i p, players rh' !! i = Some p -> (Player.state p = ACTIVE <-> i = j)).
Proof.
  intros Hc n c. fold n c in Hc.
  assert (Hn : n <> 0%nat) by lia.
  destruct (lookup_lt_is_Some_2 (players rh) c Hc) as [pc Hpc].
  unfold next_player. unfold bind at 1, get. unfold bind at 1.
  rewrite (assign_state_Some _ _ _ _ Hpc).
  set (ps1 := <[c := Player.with_state WAITING pc]> (players rh)).
  set (rh1 := with_players ps1 rh).
  assert (Hlen1 : length ps1 = n) by (unfold ps1; apply length_insert).
  assert (Hps1c : ps1 !! c = Some (Player.with_state WAITING pc)).
  { unfold ps1. apply list_lookup_insert_eq. exact Hc. }
  pose proof (next_player_loop_spec n rh1) as Hloop.
  unfold stops_at, none_waiting_within in Hloop. simpl in Hloop.
  rewrite Hlen1 in Hloop. specialize (Hloop Hn). fold c in Hloop.
  unfold bind at 1. fold n.
  destruct (next_player_loop n rh1) as [[] rh2|e rh2|rh2].
  2: destruct Hloop.
  2: { exfalso. destruct Hloop as [_ Hnone].
       apply (Hnone n (Player.with_state WAITING pc)); [lia| |reflexivity].
       replace ((c + n) mod n)%nat with c; [exact Hps1c|].
       rewrite <- (Nat.Div0.add_mod_idemp_r c n n), Nat.Div0.mod_same, Nat.add_0_r.
       symmetry. apply Nat.mod_small. exact Hc. }
  destruct Hloop as (d & Hd & Hrh2 & (pj & Hpj & Hw) & Hfirst).
  set (j := ((c + d) mod n)%nat) in *.
  assert (Hj : (j < n)%nat) by (apply Nat.mod_upper_bound; exact Hn).
  unfold bind at 1, get.
  assert (Hsel : players rh2 !! current_player_id rh2 = Some pj)
    by (subst rh2; exact Hpj).
  rewrite (assign_state_Some _ _ _ _ Hsel). subst rh2. simpl.
  set (ps2 := <[j := Player.with_state ACTIVE pj]> ps1).
  assert (Hstates : forall i p, players rh !! i = Some p ->
            ps2 !! i = Some (Player.with_state
                 (if decide (i = j) then ACTIVE
                  else if decide (i = c) then WAITING else Player.state p) p)).
  { intros i p Hp. unfold ps2.
    pose proof (lookup_lt_Some _ _ _ Hp) as Hi.
    destruct (decide (i = j)) as [->|Hij].
    - rewrite list_lookup_insert_eq by (unfold ps1; rewrite length_insert; exact Hj).
      f_equal. unfold ps1 in Hpj.
      destruct (decide (c = j)) as [Hcj|Hcj].
      + rewrite <- Hcj in Hp, Hpj. rewrite list_lookup_insert_eq in Hpj by exact Hc.
        rewrite Hpc in Hp. injection Hp as <-. injection Hpj as <-. reflexivity.
      + rewrite list_lookup_insert_ne in Hpj by exact Hcj.
        rewrite Hp in Hpj. injection Hpj as <-. reflexivity.
    - rewrite list_lookup_insert_ne by auto.
      destruct (decide (i = c)) as [->|Hic].
      + rewrite Hps1c. rewrite Hpc in Hp. injection Hp as <-. reflexivity.
      + unfold ps1. rewrite list_lookup_insert_ne by auto.
        rewrite Hp. f_equal. destruct p; reflexivity. }
  exists (with_players ps2 (with_current_player_id j rh1)), d.
  cbv zeta. fold j.
  split; [reflexivity|]. split; [exact Hd|]. split; [reflexivity|].
  split; [|split; [|split; [exact Hstates|split]]].
  - unfold ps1 in Hpj. destruct (decide (c = j)) as [Hcj|Hcj].
    + exists pc. rewrite <- Hcj. auto.
    + rewrite list_lookup_insert_ne in Hpj by exact Hcj. exists pj. auto.
  - intros d' p Hd' Hp. apply (Hfirst d' p Hd').
    unfold ps1. rewrite list_lookup_insert_ne; [exact Hp|].
    intros Heq. assert (Hd'n : (d' < n)%nat) by lia.
    clear - Heq Hc Hd' Hd'n Hn.
    destruct (decide (c + d' < n)%nat).
    * rewrite Nat.mod_small in Heq by assumption. lia.
    * assert (Hm : ((c + d') mod n = c + d' - n)%nat).
      { symmetry. apply (Nat.mod_unique _ _ 1%nat); lia. }
      lia.
  - simpl. unfold ps2, ps1. rewrite !length_insert. reflexivity.
  - intros Hothers i p Hp. simpl in Hp.
    assert (Hi : (i < n)%nat).
    { apply lookup_lt_Some in Hp. unfold ps2, ps1 in Hp.
      rewrite !length_insert in Hp. exact Hp. }
    destruct (lookup_lt_is_Some_2 (players rh) i Hi) as [p0 Hp0].
    rewrite (Hstates i p0 Hp0) in Hp. injection Hp as <-. simpl.
    destruct (decide (i = j)); [tauto|].
    destruct (decide (i = c)); [split; [discriminate|tauto]|].
    split; [|tauto]. intros Ha. exfalso. exact (Hothers i p0 n1 Hp0 Ha).
Qed.

End NextPlayerTotal.

Section NextPlayerClaim.
Import RoundHandler.

(** C8 (as the code has it).  With a current actor that is not LOST,
    [next_player] returns.  The player it selects is the first one, going
    round from the position after the current actor, that is WAITING once
    the current actor has been demoted: a player that was WAITING before
    the call, or the current actor when nobody else is; it is not a LOST
    player.  Afterwards the selected player is ACTIVE, the previous actor
    is WAITING unless it is the selected one, and every other player is
    as before.  When no player other than the current actor was ACTIVE,
    the selected player is the only ACTIVE one. *)
Theorem next_player_rotation (rh : t) (pc : Player.t) :
  players rh !! current_player_id rh = Some pc ->
  Player.state pc <> LOST ->
  let n := length (players rh) in
  let c := current_player_id rh in
  exists rh' d,
    let j := ((c + d) mod n)%nat in
    next_player rh = Return tt rh' /\
    (1 <= d <= n)%nat /\
    rh' = with_current_player_id j (with_players (players rh') rh) /\
    (exists p, players rh !! j = Some p /\ Player.state p <> LOST /\
               (Player.state p = WAITING \/ j = c)) /\
    (forall d' p, (1 <= d' < d)%nat ->
       players rh !! ((c + d') mod n)%nat = Some p -> Player.state p <> WAITING) /\
    (forall i p, players rh !! i = Some p ->
       players rh' !! i =
         Some (Player.with_state
                 (if decide (i = j) then ACTIVE
                  else if decide (i = c) then WAITING else Player.state p) p)) /\
    ((forall i p, i <> c -> players rh !! i = Some p -> Player.state p <> ACTIVE) ->
     forall i p, players rh' !! i = Some p -> (Player.state p = ACTIVE <-> i = j)).
Proof.
  intros Hpc Hl n c.
  destruct (next_player_spec rh) as (rh' & d & H); [eapply lookup_lt_Some; exact Hpc|].
  cbv zeta in H. fold n c in H.
  destruct H as (Hrun & Hd & Heq & (p & Hp & Hsel) & Hfirst & Hstates & _ & Hone).
  exists rh', d. cbv zeta.
  split; [exact Hrun|]. split; [exact Hd|]. split; [exact Heq|].
  split; [|split; [exact Hfirst|split; [exact Hstates|exact Hone]]].
  exists p. split; [exact Hp|]. split; [|exact Hsel].
  destruct Hsel as [Hw|Hj]; [rewrite Hw; discriminate|].
  rewrite Hj in Hp. fold c in Hpc. rewrite Hpc in Hp. injection Hp as <-. exact Hl.
Qed.

End NextPlayerClaim.

Lemma next_player_rotation_witness :
  exists rh' d,
    RoundHandler.next_player (bidding_table None) = Return tt rh' /\
    (1 <= d <= 2)%nat /\
    RoundHandler.current_player_id rh' = ((0 + d) mod 2)%nat.
Proof.
  destruct (next_player_rotation (bidding_table None)
              (Player.mk "Jan" ACTIVE (replicate 5 Die.default) []))
    as (rh' & d & H); [reflexivity|discriminate|].
  cbv zeta in H. destruct H as (Hrun & Hd & Heq & _).
  exists rh', d. split; [exact Hrun|]. split; [exact Hd|].
  rewrite Heq. reflexivity.
Defined.

(** C8, as stated, fails: with Kowalski LOST, Jan is the only WAITING
    player once demoted, [next_player] selects Jan again, and the previous
    actor is ACTIVE afterwards, not WAITING. *)
Lemma next_player_reselects_actor :
  GameHandler.init ["Jan"; "Kowalski"] 1 = Ok two_player_start /\
  GameHandler.round_handler
    (run [GameStartRound threes; PlayBidTurn 0 1 3; PlayBidTurn 1 1 4;
          PlayChallengeTurn 0 threes] two_player_start) = lone_survivor /\
  RoundHandler.current_player_id lone_survivor = 0%nat /\
  RoundHandler.next_player lone_survivor
    = Return tt
        (RoundHandler.with_players
           [ Player.mk "Jan" ACTIVE [Die.default] [];
             Player.mk "Kowalski" LOST [] [3] ] lone_survivor).
Proof. repeat split. Qed.

(** ** Bidding *)

Section MakeBid.
Import RoundHandler.

Lemma get_player_by_name_found name rh i p :
  list_find (fun p => Player.name p = name) (players rh) = Some (i, p) ->
  get_player_by_name name rh = Return i rh /\ players rh !! i = Some p.
Proof.
  intros H. unfold get_player_by_name, bind, get. rewrite H.
  split; [reflexivity|]. apply list_find_Some in H. tauto.
Qed.

Lemma get_player_by_name_absent name rh :
  list_find (fun p => Player.name p = name) (players rh) = None ->
  get_player_by_name name rh = Raise (Exception "Player not found") rh.
Proof. intros H. unfold get_player_by_name, bind, get. rewrite H. reflexivity. Qed.

(** [make_bid] once the player has been found: the checks in the order
    of the source, then the two assignments. *)
Lemma make_bid_found name q v rh i p :
  list_find (fun p => Player.name p = name) (players rh) = Some (i, p) ->
  make_bid name q v rh =
    if v <? 1 then Raise (ValueError "Bid value must be greater than 0") rh
    else
      match Player.get_die_value p with
      | Error e => Raise e rh
      | Ok die_value =>
          if v >? die_value then
            Raise (ValueError
              "Bid value must be less or equal to the value of dice in game") rh
          else if q >? dice_count rh then
            Raise (ValueError
              "Number of dice must be equal or less than number of dice in game") rh
          else if bool_decide (Player.state p <> ACTIVE) then
            Raise (ValueError ("Player " +:+ name +:+ " is not active")) rh
          else
            match Bid.init (players rh) q v i with
            | Error e => Raise e rh
            | Ok new_bid =>
                if negb (is_higher_bid new_bid (current_bid rh)) then
                  Raise (ValueError "Bid must be higher than the previous one!") rh
                else next_player (with_current_bid (Some new_bid) rh)
            end
      end.
Proof.
  intros H. destruct (get_player_by_name_found _ _ _ _ H) as [Hg Hp].
  unfold make_bid. unfold bind at 1. rewrite Hg.
  unfold bind at 1. rewrite (subscript_Some _ _ _ Hp).
  destruct (v <? 1); [reflexivity|].
  unfold bind at 1. destruct (Player.get_die_value p) as [fc|e]; [|reflexivity].
  simpl. unfold ret. destruct (v >? fc); [reflexivity|].
  unfold bind at 1, get. destruct (q >? dice_count rh); [reflexivity|].
  case_bool_decide; [reflexivity|].
  unfold bind at 1. destruct (Bid.init (players rh) q v i) as [nb|e]; [|reflexivity].
  simpl. unfold ret. destruct (negb _); reflexivity.
Qed.

Lemma next_player_returns rh :
  (current_player_id rh < length (players rh))%nat ->
  exists rh', next_player rh = Return tt rh' /\
              current_bid rh' = current_bid rh /\
              dice_count rh' = dice_count rh /\
              round_number rh' = round_number rh.
Proof.
  intros Hc. destruct (next_player_spec rh Hc) as (rh' & d & H).
  cbv zeta in H. destruct H as (Hrun & _ & Heq & _).
  exists rh'. split; [exact Hrun|]. rewrite Heq. auto.
Qed.

(** The failures of [make_bid] for a player holding dice.  [make_bid]
    raises "Player not found" when no player has the name.  For the
    player found, holding dice of [sides] sides, it raises
    a ValueError whenever the face value is below 1 or above [sides], the
    quantity exceeds [dice_count], or the player is not ACTIVE; the
    message is that of the first check that fails, in the order of the
    source.  Whenever [make_bid] raises, the round handler (bid, rotation
    pointer, players) is as it was. *)
Theorem make_bid_failures (name : string) (q v : Z) (rh : t) :
  (list_find (fun p => Player.name p = name) (players rh) = None ->
     make_bid name q v rh = Raise (Exception "Player not found") rh) /\
  (forall i p sides,
     list_find (fun p => Player.name p = name) (players rh) = Some (i, p) ->
     Player.get_die_value p = Ok sides ->
     (v < 1 \/ v > sides \/ q > dice_count rh \/ Player.state p <> ACTIVE ->
        exists msg, make_bid name q v rh = Raise (ValueError msg) rh) /\
     (v < 1 ->
        make_bid name q v rh = Raise (ValueError "Bid value must be greater than 0") rh) /\
     (1 <= v -> v > sides ->
        make_bid name q v rh =
          Raise (ValueError
            "Bid value must be less or equal to the value of dice in game") rh) /\
     (1 <= v <= sides -> q > dice_count rh ->
        make_bid name q v rh =
          Raise (ValueError
            "Number of dice must be equal or less than number of dice in game") rh) /\
     (1 <= v <= sides -> q <= dice_count rh -> Player.state p <> ACTIVE ->
        make_bid name q v rh =
          Raise (ValueError ("Player " +:+ name +:+ " is not active")) rh)) /\
  ((current_player_id rh < length (players rh))%nat ->
     forall e rh', make_bid name q v rh = Raise e rh' -> rh' = rh).
Proof.
  split; [|split].
  - intros H. unfold make_bid. unfold bind at 1.
    rewrite (get_player_by_name_absent _ _ H). reflexivity.
  - intros i p sides H Hsides. rewrite (make_bid_found _ _ _ _ _ _ H), Hsides.
    split; [|split; [|split; [|split]]].
    + intros Hbad.
      destruct (Z.ltb_spec v 1); [eauto|].
      destruct (Z.gtb_spec v sides); [eauto|].
      destruct (Z.gtb_spec q (dice_count rh)); [eauto|].
      case_bool_decide as Hact; [eauto|].
      exfalso. destruct Hbad as [?|[?|[?|Hna]]]; [lia..|exact (Hna Hact)].
    + intros Hv. apply Z.ltb_lt in Hv. rewrite Hv. reflexivity.
    + intros H1 H2. destruct (Z.ltb_spec v 1); [lia|].
      destruct (Z.gtb_spec v sides); [reflexivity|lia].
    + intros H1 H2. destruct (Z.ltb_spec v 1); [lia|].
      destruct (Z.gtb_spec v sides); [lia|].
      destruct (Z.gtb_spec q (dice_count rh)); [reflexivity|lia].
    + intros H1 H2 H3. destruct (Z.ltb_spec v 1); [lia|].
      destruct (Z.gtb_spec v sides); [lia|].
      destruct (Z.gtb_spec q (dice_count rh)); [lia|].
      rewrite bool_decide_true by assumption. reflexivity.
  - intros Hc e rh'.
    destruct (list_find (fun p => Player.name p = name) (players rh)) as [[i p]|] eqn:H.
    + rewrite (make_bid_found _ _ _ _ _ _ H).
      destruct (v <? 1); [intros [= _ <-]; reflexivity|].
      destruct (Player.get_die_value p); [|intros [= _ <-]; reflexivity].
      destruct (v >? a); [intros [= _ <-]; reflexivity|].
      destruct (q >? dice_count rh); [intros [= _ <-]; reflexivity|].
      case_bool_decide; [intros [= _ <-]; reflexivity|].
      destruct (Bid.init _ _ _ _); [|intros [= _ <-]; reflexivity].
      destruct (negb _); [intros [= _ <-]; reflexivity|].
      destruct (next_player_returns (with_current_bid (Some a0) rh) Hc) as (s & -> & _).
      discriminate.
    + unfold make_bid. unfold bind at 1.
      rewrite (get_player_by_name_absent _ _ H). intros [= _ <-]. reflexivity.
Qed.

(** A player whose hand is empty has no number of sides to check the
    face value against: the call ends in the IndexError of [self.dice[0]]. *)
Lemma make_bid_empty_hand (name : string) (q v : Z) (rh : t) i p :
  list_find (fun p => Player.name p = name) (players rh) = Some (i, p) ->
  Player.dice p = [] -> 1 <= v ->
  make_bid name q v rh = Raise (IndexError "list index out of range") rh.
Proof.
  intros H Hd Hv. rewrite (make_bid_found _ _ _ _ _ _ H).
  destruct (Z.ltb_spec v 1); [lia|].
  unfold Player.get_die_value. rewrite Hd. reflexivity.
Qed.

End MakeBid.

Lemma make_bid_failures_witness :
  RoundHandler.make_bid "Tomasz" 1 3 (bidding_table None)
    = Raise (Exception "Player not found") (bidding_table None) /\
  RoundHandler.make_bid "Jan" 1 0 (bidding_table None)
    = Raise (ValueError "Bid value must be greater than 0") (bidding_table None) /\
  RoundHandler.make_bid "Jan" 1 7 (bidding_table None)
    = Raise (ValueError "Bid value must be less or equal to the value of dice in game")
        (bidding_table None) /\
  RoundHandler.make_bid "Jan" 11 3 (bidding_table None)
    = Raise (ValueError
        "Number of dice must be equal or less than number of dice in game")
        (bidding_table None) /\
  RoundHandler.make_bid "Kowalski" 1 3 (bidding_table None)
    = Raise (ValueError "Player Kowalski is not active") (bidding_table None) /\
  (exists msg, RoundHandler.make_bid "Kowalski" 11 0 (bidding_table None)
                 = Raise (ValueError msg) (bidding_table None)) /\
  (forall e rh', RoundHandler.make_bid "Jan" 0 3 (bidding_table None) = Raise e rh' ->
     rh' = bidding_table None).
Proof.
  pose (jan := Player.mk "Jan" ACTIVE (replicate 5 Die.default) []).
  pose (kowalski := Player.mk "Kowalski" WAITING (replicate 5 Die.default) []).
  assert (Hj : list_find (fun p => Player.name p = "Jan")
                 (RoundHandler.players (bidding_table None)) = Some (0%nat, jan))
    by reflexivity.
  assert (Hk : list_find (fun p => Player.name p = "Kowalski")
                 (RoundHandler.players (bidding_table None)) = Some (1%nat, kowalski))
    by reflexivity.
  split.
  { apply (proj1 (make_bid_failures "Tomasz" 1 3 (bidding_table None))). reflexivity. }
  split.
  { destruct (proj1 (proj2 (make_bid_failures "Jan" 1 0 (bidding_table None)))
                0%nat jan 6 Hj eq_refl) as (_ & H & _). apply H. lia. }
  split.
  { destruct (proj1 (proj2 (make_bid_failures "Jan" 1 7 (bidding_table None)))
                0%nat jan 6 Hj eq_refl) as (_ & _ & H & _). apply H; lia. }
  split.
  { destruct (proj1 (proj2 (make_bid_failures "Jan" 11 3 (bidding_table None)))
                0%nat jan 6 Hj eq_refl) as (_ & _ & _ & H & _). apply H; simpl; lia. }
  split.
  { destruct (proj1 (proj2 (make_bid_failures "Kowalski" 1 3 (bidding_table None)))
                1%nat kowalski 6 Hk eq_refl) as (_ & _ & _ & _ & H).
    apply H; simpl; (lia || discriminate). }
  split.
  { destruct (proj1 (proj2 (make_bid_failures "Kowalski" 11 0 (bidding_table None)))
                1%nat kowalski 6 Hk eq_refl) as (H & _). apply H. left. lia. }
  apply (proj2 (proj2 (make_bid_failures "Jan" 0 3 (bidding_table None)))).
  simpl. lia.
Defined.

(** C7, on the code.  Kowalski has lost the only die and is LOST, so
    that a bid in Kowalski's name is a bid of a player that is not
    ACTIVE.  [make_bid] does not get as far as that check, nor as the
    check of the quantity: [get_die_value] reads the first die of an
    empty hand, and the call ends in an IndexError where a ValueError is
    documented, for a quantity within [dice_count] as for one above
    it. *)
Theorem make_bid_IndexError_on_eliminated :
  GameHandler.init ["Jan"; "Kowalski"; "Tomasz"] 1 = Ok three_player_start /\
  RoundHandler.players (GameHandler.round_handler kowalski_eliminated)
    = [ Player.mk "Jan" WAITING [Die.default] [];
        Player.mk "Kowalski" LOST [] [3];
        Player.mk "Tomasz" WAITING [Die.default] [3] ] /\
  RoundHandler.dice_count (GameHandler.round_handler kowalski_eliminated) = 3 /\
  RoundHandler.make_bid "Kowalski" 1 3 (GameHandler.round_handler kowalski_eliminated)
    = Raise (IndexError "list index out of range")
        (GameHandler.round_handler kowalski_eliminated) /\
  RoundHandler.make_bid "Kowalski" 4 3 (GameHandler.round_handler kowalski_eliminated)
    = Raise (IndexError "list index out of range")
        (GameHandler.round_handler kowalski_eliminated).
Proof. repeat split. Qed.

Section MakeBidAccepts.
Import RoundHandler.

Lemma is_higher_bid_Some q v i current :
  is_higher_bid (Bid.mk q v i) (Some current) = true <->
  higher_quantity_first q v current.
Proof.
  unfold is_higher_bid, higher_quantity_first. simpl.
  destruct (Z.gtb_spec q (Bid.quantity current)); [split; auto; lia|].
  destruct (Z.eqb_spec q (Bid.quantity current)); simpl.
  - destruct (Z.gtb_spec v (Bid.value current)); split; auto; try lia; discriminate.
  - split; [discriminate|lia].
Qed.

Lemma Bid_init_Ok heap q v i p :
  heap !! i = Some p -> 1 <= q -> 1 <= v -> Player.state p = ACTIVE ->
  Bid.init heap q v i = Ok (Bid.mk q v i).
Proof.
  intros Hp Hq Hv Hact. unfold Bid.init. rewrite Hp.
  destruct (Z.ltb_spec q 1); [lia|]. destruct (Z.ltb_spec v 1); [lia|]. simpl.
  unfold Player.is_active. rewrite bool_decide_true by exact Hact. reflexivity.
Qed.

(** C1 (as the code has it).  For an ACTIVE player found by name whose
    bid passes the range checks, [make_bid] accepts the bid over a
    standing bid exactly when its quantity is higher, or its quantity
    is the same and its face value higher; a bid that is not is refused
    with "Bid must be higher than the previous one!" and nothing
    changes.  With no standing bid it is accepted.  An accepted bid
    becomes the current bid. *)
Theorem make_bid_accepts_iff (rh : t) (name : string) (q v : Z)
    (i : nat) (p : Player.t) (sides : Z) :
  (current_player_id rh < length (players rh))%nat ->
  list_find (fun p => Player.name p = name) (players rh) = Some (i, p) ->
  Player.state p = ACTIVE ->
  Player.get_die_value p = Ok sides ->
  1 <= v <= sides ->
  1 <= q <= dice_count rh ->
  (forall current, current_bid rh = Some current ->
     ((exists rh', make_bid name q v rh = Return tt rh') <->
      higher_quantity_first q v current) /\
     (~ higher_quantity_first q v current ->
      make_bid name q v rh =
        Raise (ValueError "Bid must be higher than the previous one!") rh)) /\
  (current_bid rh = None -> exists rh', make_bid name q v rh = Return tt rh') /\
  (forall rh', make_bid name q v rh = Return tt rh' ->
     current_bid rh' = Some (Bid.mk q v i)).
Proof.
  intros Hc Hfind Hact Hsides Hv Hq.
  rewrite (make_bid_found _ _ _ _ _ _ Hfind), Hsides.
  destruct (Z.ltb_spec v 1); [lia|].
  destruct (Z.gtb_spec v sides); [lia|].
  destruct (Z.gtb_spec q (dice_count rh)); [lia|].
  rewrite bool_decide_false by (intros Hne; exact (Hne Hact)).
  pose proof (proj1 (list_find_Some _ _ _ _) Hfind) as (Hp & _).
  rewrite (Bid_init_Ok _ q v i p Hp) by (assumption || lia).
  set (new_bid := Bid.mk q v i).
  destruct (next_player_returns (with_current_bid (Some new_bid) rh) Hc)
    as (rh1 & Hnext & Hbid & _).
  split; [|split].
  - intros current Hcur. rewrite Hcur.
    pose proof (is_higher_bid_Some q v i current) as Hhigh. fold new_bid in Hhigh.
    destruct (is_higher_bid new_bid (Some current)); simpl.
    + split; [|intros Hno; exfalso; apply Hno, Hhigh; reflexivity].
      split; [intros _; apply Hhigh; reflexivity|].
      intros _. exists rh1. exact Hnext.
    + split; [|reflexivity].
      split; [intros [rh' Hr]; discriminate|].
      intros Hh. apply Hhigh in Hh. discriminate.
  - intros Hnone. rewrite Hnone. simpl. exists rh1. exact Hnext.
  - intros rh'. destruct (negb _); [discriminate|].
    rewrite Hnext. intros [= <-]. exact Hbid.
Qed.

Lemma make_bid_accepts_iff_witness :
  (exists rh', make_bid "Jan" 3 5 (bidding_table (Some (Bid.mk 3 4 1%nat)))
                 = Return tt rh') /\
  make_bid "Jan" 2 6 (bidding_table (Some (Bid.mk 3 4 1%nat)))
    = Raise (ValueError "Bid must be higher than the previous one!")
        (bidding_table (Some (Bid.mk 3 4 1%nat))) /\
  (exists rh', make_bid "Jan" 1 1 (bidding_table None) = Return tt rh').
Proof.
  assert (Hp : Player.get_die_value (Player.mk "Jan" ACTIVE (replicate 5 Die.default) [])
               = Ok 6) by reflexivity.
  split; [|split].
  - refine (proj2 (proj1 (proj1 (make_bid_accepts_iff
              (bidding_table (Some (Bid.mk 3 4 1%nat))) "Jan" 3 5 0%nat _ 6
              _ _ _ Hp _ _) (Bid.mk 3 4 1%nat) _)) _);
      [simpl; lia | reflexivity | reflexivity | lia | simpl; lia | reflexivity
      | right; simpl; lia].
  - refine (proj2 (proj1 (make_bid_accepts_iff
              (bidding_table (Some (Bid.mk 3 4 1%nat))) "Jan" 2 6 0%nat _ 6
              _ _ _ Hp _ _) (Bid.mk 3 4 1%nat) _) _);
      [simpl; lia | reflexivity | reflexivity | lia | simpl; lia | reflexivity
      | unfold higher_quantity_first; simpl; lia].
  - refine (proj1 (proj2 (make_bid_accepts_iff
              (bidding_table None) "Jan" 1 1 0%nat _ 6 _ _ _ Hp _ _)) _);
      [simpl; lia | reflexivity | reflexivity | lia | simpl; lia | reflexivity].
Defined.

(** C1, as stated, fails: over a standing bid of five ones, two sixes
    have the higher face value, and [make_bid] refuses them. *)
Lemma make_bid_refuses_higher_value :
  current_bid (bidding_table (Some (Bid.mk 5 1 1%nat))) = Some (Bid.mk 5 1 1%nat) /\
  higher_by_either 2 6 (Bid.mk 5 1 1%nat) /\
  Bid.gt (Bid.mk 2 6 0%nat) (Bid.mk 5 1 1%nat) = true /\
  make_bid "Jan" 2 6 (bidding_table (Some (Bid.mk 5 1 1%nat)))
    = Raise (ValueError "Bid must be higher than the previous one!")
        (bidding_table (Some (Bid.mk 5 1 1%nat))).
Proof.
  split; [reflexivity|]. split; [right; simpl; lia|].
  split; [reflexivity|]. vm_compute. reflexivity.
Qed.

End MakeBidAccepts.

(** ** Invariants of method calls *)

Section Inv.
Context {S : Type} (I : S -> Prop).

Lemma inv_ret {A} (a : A) : inv I (ret a).
Proof. intros s Hs. exact Hs. Qed.

Lemma inv_raise {A} e : inv I (raise (A := A) e).
Proof. intros s Hs. exact Hs. Qed.

Lemma inv_diverge {A} : inv I (diverge (A := A)).
Proof. intros s Hs. exact Hs. Qed.

Lemma inv_get : inv I get.
Proof. intros s Hs. exact Hs. Qed.

Lemma inv_lift {A} (r : result A) : inv I (lift r).
Proof. destruct r; intros s Hs; exact Hs. Qed.

Lemma inv_modify (f : S -> S) : (forall s, I s -> I (f s)) -> inv I (modify f).
Proof. intros Hf s Hs. apply Hf, Hs. Qed.

Lemma inv_bind {A B} (m : M S A) (f : A -> M S B) :
  inv I m -> (forall a, inv I (f a)) -> inv I (bind m f).
Proof.
  intros Hm Hf s Hs. unfold bind. specialize (Hm s Hs).
  destruct (m s) as [a s'|e s'|s']; simpl in *; [apply Hf, Hm|exact Hm|exact Hm].
Qed.

Lemma inv_for_each {A} (xs : list A) (body : A -> M S unit) :
  (forall x, inv I (body x)) -> inv I (for_each xs body).
Proof.
  intros Hb. induction xs as [|x xs IH]; simpl.
  - apply inv_ret.
  - apply inv_bind; [apply Hb|intros _; exact IH].
Qed.

End Inv.

(** Breaks a method body down to its primitive steps. *)
Ltac inv_step :=
  match goal with
  | |- inv _ (bind _ _) => apply inv_bind; [|intros ?]
  | |- inv _ (ret _) => apply inv_ret
  | |- inv _ (raise _) => apply inv_raise
  | |- inv _ diverge => apply inv_diverge
  | |- inv _ get => apply inv_get
  | |- inv _ (lift _) => apply inv_lift
  | |- inv _ (for_each _ _) => apply inv_for_each; intros ?
  | |- inv _ (if ?c then _ else _) => destruct c
  | |- inv _ (match ?x with _ => _ end) => destruct x
  end.

Section RoundInv.
Import RoundHandler.

(** An invariant of the round handler that the round number and the
    current bid do not bear on, that moving the rotation pointer inside
    the list keeps, and that every assignment to a player keeps, as long
    as the state assigned is one of those in [ok]. *)
Context (I : t -> Prop) (ok : PlayerState -> Prop).
Context (ok_ACTIVE : ok ACTIVE) (ok_LOST : ok LOST) (ok_WAITING : ok WAITING).
Context (I_round_number : forall n rh, I rh -> I (with_round_number n rh)).
Context (I_current_player_id : forall i rh, I rh ->
           (i < length (players rh))%nat -> I (with_current_player_id i rh)).
Context (I_current_bid : forall b rh, I rh -> I (with_current_bid b rh)).
Context (I_state : forall i s p rh, ok s -> I rh -> players rh !! i = Some p ->
           I (with_players (<[i := Player.with_state s p]> (players rh)) rh)).
Context (I_dice : forall i d p rh, I rh -> players rh !! i = Some p ->
           I (with_players (<[i := Player.with_dice d p]> (players rh)) rh)).
Context (I_last_roll : forall i l p rh, I rh -> players rh !! i = Some p ->
           I (with_players (<[i := Player.with_last_roll l p]> (players rh)) rh)).

Lemma inv_subscript i : inv I (subscript i).
Proof. intros rh Hs. unfold subscript. destruct (players rh !! i); exact Hs. Qed.

Lemma inv_positions : inv I positions.
Proof. intros rh Hs. exact Hs. Qed.

Lemma inv_assign_state i s : ok s -> inv I (assign_state i s).
Proof.
  intros Hne rh Hs. unfold assign_state, bind, subscript, modify.
  destruct (players rh !! i) eqn:Hp; simpl; [|exact Hs].
  apply I_state; assumption.
Qed.

Lemma inv_call_ i op :
  (forall s, op = SetState s -> ok s) -> inv I (call_ i (player_method op)).
Proof.
  intros Hop rh Hs. unfold call_, call, bind, subscript, modify, lift.
  destruct (players rh !! i) as [p|] eqn:Hp; simpl; [|exact Hs].
  destruct op as [count entropy| | |s|j n]; simpl.
  - unfold Player.make_roll.
    destruct (count <? 1); [exact Hs|].
    destruct (count >? Player.get_dice_count p); [exact Hs|]. simpl.
    apply I_last_roll; assumption.
  - unfold Player.lose_die.
    destruct (Player.dice p) as [|d ds] eqn:Hd; [exact Hs|].
    destruct (_ =? 0); simpl.
    + pose proof (I_dice i (removelast (d :: ds)) p rh Hs Hp) as H1.
      pose proof (I_state i LOST (Player.with_dice (removelast (d :: ds)) p) _
                    ok_LOST H1) as H2.
      simpl in H2. rewrite list_insert_insert_eq in H2. apply H2.
      apply list_lookup_insert_eq. eapply lookup_lt_Some. exact Hp.
    + apply I_dice; assumption.
  - unfold Player.reset_roll.
    destruct (bool_decide _); simpl; [exact Hs|]. apply I_last_roll; assumption.
  - unfold Player.set_state.
    destruct (bool_decide _); simpl; [exact Hs|].
    apply I_state; [apply Hop; reflexivity|assumption..].
  - destruct (Player.dice p !! j); simpl; [|exact Hs].
    unfold Die.set_sides. destruct (n <=? 1); simpl; [exact Hs|].
    apply I_dice; assumption.
Qed.

Lemma inv_lose_die i : inv I (call_ i Player.lose_die).
Proof. apply (inv_call_ i LoseDie). discriminate. Qed.


Lemma inv_reset_roll i : inv I (call_ i Player.reset_roll).
Proof. apply (inv_call_ i ResetRoll). discriminate. Qed.

Lemma inv_set_state i s :
  ok s -> inv I (call_ i (fun p => Player.set_state p s)).
Proof. intros Hs. apply (inv_call_ i (SetState s)). intros ? [= <-]. exact Hs. Qed.

Lemma inv_make_roll i count entropy :
  inv I (call i (fun p => Player.make_roll p (count p) entropy)).
Proof.
  intros rh Hs. unfold call, bind, subscript, modify, lift.
  destruct (players rh !! i) as [p|] eqn:Hp; simpl; [|exact Hs].
  unfold Player.make_roll.
  destruct (count p <? 1); [exact Hs|].
  destruct (count p >? Player.get_dice_count p); [exact Hs|]. simpl.
  apply I_last_roll; assumption.
Qed.

Ltac inv_round :=
  repeat match goal with
  | |- inv _ (subscript _) => apply inv_subscript
  | |- inv _ positions => apply inv_positions
  | |- inv _ (call_ _ Player.lose_die) => apply inv_lose_die
  | |- inv _ (call_ _ Player.reset_roll) => apply inv_reset_roll
  | |- inv _ (call_ _ (fun p => Player.set_state p _)) =>
      apply inv_set_state; assumption
  | |- inv _ (call _ (fun p => Player.make_roll p _ _)) => apply inv_make_roll
  | |- inv _ (assign_state _ _) => apply inv_assign_state; assumption
  | |- inv _ (modify _) => apply inv_modify; intros; auto
  | _ => inv_step
  end.

Lemma inv_eliminate_player r : inv I (eliminate_player r).
Proof. unfold eliminate_player. inv_round. Qed.

Lemma inv_apply_penalty r : inv I (apply_penalty r).
Proof. unfold apply_penalty. inv_round. apply inv_eliminate_player. Qed.

Lemma inv_reset_players_after_round : inv I reset_players_after_round.
Proof. unfold reset_players_after_round. inv_round. apply inv_eliminate_player. Qed.

Lemma inv_start_round entropy : inv I (start_round entropy).
Proof. unfold start_round. inv_round. Qed.

Lemma inv_next_player_loop fuel : inv I (next_player_loop fuel).
Proof.
  induction fuel as [|fuel IH]; intros rh Hs; [exact Hs|].
  rewrite next_player_loop_S.
  case_bool_decide as Hn; [exact Hs|]. cbv zeta.
  set (rh1 := with_current_player_id _ rh).
  assert (H1 : I rh1).
  { apply I_current_player_id; [exact Hs|]. apply Nat.mod_upper_bound. exact Hn. }
  destruct (players rh1 !! current_player_id rh1); [|exact H1].
  case_bool_decide; [exact H1|]. apply IH, H1.
Qed.

Lemma inv_next_player : inv I next_player.
Proof. unfold next_player. inv_round. apply inv_next_player_loop. Qed.

Lemma inv_get_player_by_name name : inv I (get_player_by_name name).
Proof. unfold get_player_by_name. inv_round. Qed.

Lemma inv_get_active_player : inv I get_active_player.
Proof. unfold get_active_player. inv_round. Qed.

Lemma inv_check_if_start_next_round : inv I check_if_start_next_round.
Proof. unfold check_if_start_next_round. inv_round. Qed.

Lemma inv_end_game_info : inv I end_game_info.
Proof. unfold end_game_info. inv_round. Qed.

Lemma inv_count_dice_value v : inv I (count_dice_value v).
Proof. unfold count_dice_value. inv_round. Qed.

Lemma inv_make_bid name q v : inv I (make_bid name q v).
Proof.
  unfold make_bid. inv_round;
    first [apply inv_get_player_by_name | apply inv_next_player].
Qed.

Lemma inv_challenge_and_end_round name entropy :
  inv I (challenge_and_end_round name entropy).
Proof.
  unfold challenge_and_end_round. inv_round;
    first [ apply inv_get_player_by_name | apply inv_count_dice_value
          | apply inv_apply_penalty | apply inv_reset_players_after_round
          | apply inv_check_if_start_next_round | apply inv_start_round
          | apply inv_end_game_info ].
Qed.

(** Whatever the caller does with the round handler and its players
    keeps the invariant, provided the states passed to [set_state] are
    in [ok]. *)
Lemma inv_run_round_op op rh :
  (forall i s, op = OnPlayer i (SetState s) -> ok s) -> I rh -> I (run_round_op op rh).
Proof.
  intros Hop Hs. destruct op; simpl.
  - apply inv_start_round, Hs.
  - apply inv_make_bid, Hs.
  - apply inv_next_player, Hs.
  - apply inv_challenge_and_end_round, Hs.
  - apply inv_count_dice_value, Hs.
  - apply inv_apply_penalty, Hs.
  - apply inv_reset_players_after_round, Hs.
  - apply inv_get_player_by_name, Hs.
  - apply inv_eliminate_player, Hs.
  - apply inv_get_active_player, Hs.
  - apply inv_check_if_start_next_round, Hs.
  - apply inv_end_game_info, Hs.
  - apply inv_call_; [|exact Hs]. intros s ->. exact (Hop player s eq_refl).
Qed.

Lemma inv_run_round ops : forall rh,
  Forall (fun op => forall i s, op = OnPlayer i (SetState s) -> ok s) ops ->
  I rh -> I (run_round ops rh).
Proof.
  induction ops as [|op ops IH]; intros rh Hops Hs; [exact Hs|].
  inversion Hops; subst. simpl. apply IH; [assumption|].
  apply inv_run_round_op; assumption.
Qed.

End RoundInv.

(** ** The game handler is a front for the round handler *)

Lemma final_on_round_handler {A} (m : M RoundHandler.t A) gh :
  final (GameHandler.on_round_handler m gh)
    = GameHandler.with_round_handler (final (m (GameHandler.round_handler gh))) gh.
Proof. unfold GameHandler.on_round_handler. destruct (m _); reflexivity. Qed.

Lemma with_round_handler_same gh :
  GameHandler.with_round_handler (GameHandler.round_handler gh) gh = gh.
Proof. destruct gh; reflexivity. Qed.

Lemma run_game_op_facade op gh :
  run_game_op op gh =
    GameHandler.with_round_handler
      (run_round (round_ops_of op gh) (GameHandler.round_handler gh)) gh.
Proof.
  destruct op; simpl;
    try (apply final_on_round_handler);
    try reflexivity.
  - unfold GameHandler.play_bid_turn, GameHandler.the_player, bind.
    destruct (GameHandler.players gh !! active_player) as [p|];
      [|simpl; symmetry; apply with_round_handler_same].
    destruct (decide (Player.state p = ACTIVE)) as [Ha|Ha].
    + rewrite bool_decide_false by (intros H; exact (H Ha)).
      rewrite bool_decide_true by exact Ha.
      rewrite final_on_round_handler. reflexivity.
    + rewrite bool_decide_true by exact Ha. rewrite bool_decide_false by exact Ha.
      simpl. symmetry. apply with_round_handler_same.
  - unfold GameHandler.play_challenge_turn, GameHandler.the_player, bind.
    destruct (GameHandler.players gh !! active_player) as [p|];
      [|simpl; symmetry; apply with_round_handler_same].
    destruct (bool_decide (Player.state p = ACTIVE)); simpl.
    + rewrite final_on_round_handler. reflexivity.
    + symmetry. apply with_round_handler_same.
  - unfold GameHandler.play_check_turn, GameHandler.the_player, bind.
    destruct (GameHandler.players gh !! active_player) as [p|];
      [|simpl; symmetry; apply with_round_handler_same].
    destruct (bool_decide (Player.state p = ACTIVE)); simpl;
      symmetry; apply with_round_handler_same.
Qed.

Lemma run_facade ops : forall gh,
  GameHandler.game_state (run ops gh) = GameHandler.game_state gh /\
  GameHandler.players_names (run ops gh) = GameHandler.players_names gh /\
  GameHandler.dice_count (run ops gh) = GameHandler.dice_count gh /\
  exists rops,
    GameHandler.round_handler (run ops gh)
      = run_round rops (GameHandler.round_handler gh) /\
    (forall i s, OnPlayer i (SetState s) ∈ rops ->
       OnRoundHandler (OnPlayer i (SetState s)) ∈ ops).
Proof.
  induction ops as [|op ops IH]; intros gh.
  - repeat split. exists []. split; [reflexivity|]. intros i s H. inversion H.
  - simpl. destruct (IH (run_game_op op gh)) as (Hg & Hn & Hd & rops & Hr & Hin).
    rewrite Hg, Hn, Hd, Hr. rewrite run_game_op_facade. simpl.
    repeat split. exists (round_ops_of op gh ++ rops). split.
    + unfold run_round. rewrite foldl_app. reflexivity.
    + intros i s H. apply elem_of_app in H as [H|H].
      * assert (op = OnRoundHandler (OnPlayer i (SetState s))) as ->;
          [|apply list_elem_of_here].
        destruct op; simpl in H;
          repeat match type of H with
                 | context [match ?x with _ => _ end] => destruct x
                 end;
          repeat match type of H with
                 | _ ∈ [] => inversion H
                 | _ ∈ [_] => apply list_elem_of_singleton in H
                 end; try discriminate.
        rewrite H. reflexivity.
      * apply list_elem_of_further, Hin, H.
Qed.

(** ** What no call changes *)

(** C9.  A game handler is constructed RUNNING, and its [game_state] is
    RUNNING after any sequence of calls on the game handler, its round
    handler and its players: nothing in the core assigns OVER. *)
Theorem game_state_always_running (names : list string) (d : Z)
    (g0 : GameHandler.t) (ops : list GameOp) :
  GameHandler.init names d = Ok g0 ->
  GameHandler.game_state g0 = RUNNING /\
  GameHandler.game_state (run ops g0) = RUNNING.
Proof.
  intros Hinit.
  assert (H0 : GameHandler.game_state g0 = RUNNING).
  { unfold GameHandler.init in Hinit.
    destruct (d <? 1); [discriminate|].
    destruct (GameHandler.create_players names d); [|discriminate].
    injection Hinit as <-. reflexivity. }
  split; [exact H0|].
  destruct (run_facade ops g0) as (Hg & _). rewrite Hg. exact H0.
Qed.

(** Jan alone: the challenge leaves fewer than two players in the game,
    [challenge_and_end_round] takes the branch that ends the game, and
    the game is RUNNING all the same. *)
Lemma game_state_always_running_witness :
  GameHandler.play_challenge_turn 0 threes
      (run [GameStartRound threes; PlayBidTurn 0 1 3] solo_start)
    = Return "Jan" (run [GameStartRound threes; PlayBidTurn 0 1 3;
                         PlayChallengeTurn 0 threes] solo_start) /\
  GameHandler.check_if_start_next_round
      (run [GameStartRound threes; PlayBidTurn 0 1 3; PlayChallengeTurn 0 threes]
           solo_start)
    = Return false (run [GameStartRound threes; PlayBidTurn 0 1 3;
                         PlayChallengeTurn 0 threes] solo_start) /\
  GameHandler.game_state solo_start = RUNNING /\
  GameHandler.game_state
      (run [GameStartRound threes; PlayBidTurn 0 1 3; PlayChallengeTurn 0 threes]
           solo_start) = RUNNING.
Proof.
  split; [vm_compute; reflexivity|]. split; [vm_compute; reflexivity|].
  apply (game_state_always_running ["Jan"] 2). vm_compute. reflexivity.
Defined.

(** In a round handler constructed over at least one player, the
    rotation pointer is inside the list after any sequence of calls. *)
Lemma pointer_in_range (ps : list Player.t) (ops : list RoundOp) :
  ps <> [] ->
  (RoundHandler.current_player_id (run_round ops (RoundHandler.init ps))
   < length (RoundHandler.players (run_round ops (RoundHandler.init ps))))%nat.
Proof.
  intros Hps.
  apply (inv_run_round
           (fun rh => (RoundHandler.current_player_id rh
                       < length (RoundHandler.players rh))%nat)
           (fun _ => True)); auto.
  - intros i s p rh _ H _. simpl. rewrite length_insert. exact H.
  - intros i d p rh H _. simpl. rewrite length_insert. exact H.
  - intros i l p rh H _. simpl. rewrite length_insert. exact H.
  - apply Forall_forall. auto.
  - simpl. destruct ps; [congruence|simpl; lia].
Qed.

Section DiceCount.
Import RoundHandler.

Lemma make_bid_above_dice_count name q v rh rh' :
  q > dice_count rh -> make_bid name q v rh <> Return tt rh'.
Proof.
  intros Hq.
  destruct (list_find (fun p => Player.name p = name) (players rh)) as [[i p]|] eqn:H.
  - rewrite (make_bid_found _ _ _ _ _ _ H).
    destruct (v <? 1); [discriminate|].
    destruct (Player.get_die_value p); [|discriminate].
    destruct (v >? a); [discriminate|].
    destruct (Z.gtb_spec q (dice_count rh)); [discriminate|lia].
  - unfold make_bid. unfold bind at 1.
    rewrite (get_player_by_name_absent _ _ H). discriminate.
Qed.

Lemma sum_Z_dice_nonneg (ps : list Player.t) :
  0 <= sum_Z (Player.get_dice_count <$> ps).
Proof.
  unfold sum_Z, Player.get_dice_count.
  induction ps as [|p ps IH]; [reflexivity|].
  rewrite fmap_cons. cbn [foldr]. lia.
Qed.

(** What is left of [make_bid] for an ACTIVE player whose face value is
    in range and whose bid is higher than the standing one: the bid is
    accepted exactly when the quantity lies between one and
    [dice_count]. *)
Lemma make_bid_quantity_check name q v rh i p sides :
  (current_player_id rh < length (players rh))%nat ->
  list_find (fun p => Player.name p = name) (players rh) = Some (i, p) ->
  Player.state p = ACTIVE ->
  Player.get_die_value p = Ok sides ->
  1 <= v <= sides ->
  is_higher_bid (Bid.mk q v i) (current_bid rh) = true ->
  (exists rh', make_bid name q v rh = Return tt rh') <-> 1 <= q <= dice_count rh.
Proof.
  intros Hc Hfind Hact Hsides Hv Hhigher.
  rewrite (make_bid_found _ _ _ _ _ _ Hfind), Hsides.
  destruct (Z.ltb_spec v 1); [lia|].
  destruct (Z.gtb_spec v sides); [lia|].
  pose proof (proj1 (list_find_Some _ _ _ _) Hfind) as (Hp & _).
  destruct (Z.gtb_spec q (dice_count rh)) as [Hq|Hq].
  { split; [intros [rh' Hrun]; discriminate|lia]. }
  rewrite bool_decide_false by (intros Hne; exact (Hne Hact)).
  destruct (Z.lt_ge_cases q 1) as [Hq1|Hq1].
  - unfold Bid.init. rewrite Hp.
    destruct (Z.ltb_spec q 1); [|lia]. simpl.
    split; [intros [rh' Hrun]; discriminate|lia].
  - rewrite (Bid_init_Ok _ q v i p Hp) by (assumption || lia).
    rewrite Hhigher. simpl.
    destruct (next_player_returns (with_current_bid (Some (Bid.mk q v i)) rh) Hc)
      as (rh1 & Hnext & _).
    split; [lia|]. intros _. exists rh1. exact Hnext.
Qed.

(** C4.  [dice_count] is the sum of the hand sizes of the players the
    round handler is constructed with, and stays so after any sequence
    of calls on the round handler and on its players.  It is this sum
    that [make_bid] checks the quantity against, whatever number of dice
    is left: a bid of a higher quantity is never accepted, and the bid
    of an ACTIVE player that passes the other checks is accepted exactly
    when its quantity lies between one and the sum at construction, so
    that a quantity above the number of dice now held and within that
    sum is accepted. *)
Theorem dice_count_fixed_at_construction (ps : list Player.t) (ops : list RoundOp) :
  dice_count (RoundHandler.init ps) = sum_Z (Player.get_dice_count <$> ps) /\
  dice_count (run_round ops (RoundHandler.init ps))
    = sum_Z (Player.get_dice_count <$> ps) /\
  (forall name q v rh',
     q > sum_Z (Player.get_dice_count <$> ps) ->
     make_bid name q v (run_round ops (RoundHandler.init ps)) <> Return tt rh') /\
  (forall name q v i p sides,
     ps <> [] ->
     list_find (fun p => Player.name p = name)
       (players (run_round ops (RoundHandler.init ps))) = Some (i, p) ->
     Player.state p = ACTIVE ->
     Player.get_die_value p = Ok sides ->
     1 <= v <= sides ->
     is_higher_bid (Bid.mk q v i)
       (current_bid (run_round ops (RoundHandler.init ps))) = true ->
     ((exists rh', make_bid name q v (run_round ops (RoundHandler.init ps))
                     = Return tt rh') <->
      1 <= q <= sum_Z (Player.get_dice_count <$> ps)) /\
     (sum_Z (Player.get_dice_count <$> players (run_round ops (RoundHandler.init ps)))
        < q <= sum_Z (Player.get_dice_count <$> ps) ->
      exists rh', make_bid name q v (run_round ops (RoundHandler.init ps))
                    = Return tt rh')).
Proof.
  assert (H : dice_count (run_round ops (RoundHandler.init ps))
              = sum_Z (Player.get_dice_count <$> ps)).
  { apply (inv_run_round
             (fun rh => dice_count rh = sum_Z (Player.get_dice_count <$> ps))
             (fun _ => True)); auto.
    apply Forall_forall. auto. }
  split; [reflexivity|]. split; [exact H|]. split.
  - intros name q v rh' Hq. apply make_bid_above_dice_count. rewrite H. exact Hq.
  - intros name q v i p sides Hps Hfind Hact Hsides Hv Hhigher.
    pose proof (make_bid_quantity_check name q v _ i p sides
                  (pointer_in_range ps ops Hps) Hfind Hact Hsides Hv Hhigher) as Hiff.
    rewrite H in Hiff. split; [exact Hiff|].
    intros [Hlow Hhigh]. apply (proj2 Hiff).
    pose proof (sum_Z_dice_nonneg (players (run_round ops (RoundHandler.init ps)))).
    lia.
Qed.

(** After the challenge three dice are in play and [dice_count] is
    still four: a bid of four is accepted, a bid of five is not. *)
Lemma dice_count_fixed_at_construction_witness :
  sum_Z (Player.get_dice_count <$> players after_one_challenge) = 3 /\
  dice_count after_one_challenge = 4 /\
  (exists rh', make_bid "Kowalski" 4 3 after_one_challenge = Return tt rh') /\
  (forall rh', make_bid "Kowalski" 5 3 after_one_challenge <> Return tt rh').
Proof.
  split; [vm_compute; reflexivity|].
  split; [apply (dice_count_fixed_at_construction two_dice_each)|].
  split.
  - refine (proj2 (proj2 (proj2 (proj2 (dice_count_fixed_at_construction two_dice_each
              [StartRound threes; MakeBid "Jan" 1 3; ChallengeAndEndRound "Kowalski" threes])))
              "Kowalski" 4 3 1%nat
              (Player.mk "Kowalski" ACTIVE [Die.default] [3]) 6
              _ _ _ _ _ _) _).
    + discriminate.
    + vm_compute. reflexivity.
    + reflexivity.
    + reflexivity.
    + lia.
    + vm_compute. reflexivity.
    + vm_compute. split; [reflexivity|discriminate].
  - intros rh'.
    apply (proj1 (proj2 (proj2 (dice_count_fixed_at_construction two_dice_each _)))).
    vm_compute. reflexivity.
Defined.

End DiceCount.

(** ** Player states *)

Lemma create_players_WAITING d : forall names ps,
  GameHandler.create_players names d = Ok ps ->
  Forall (fun p => Player.state p = WAITING) ps.
Proof.
  induction names as [|name names IH]; intros ps; simpl.
  - intros [= <-]. constructor.
  - unfold Player.init. destruct (d <? 1); [discriminate|].
    destruct (GameHandler.create_players names d) as [ps'|]; [|discriminate].
    intros [= <-]. constructor; [reflexivity|]. apply IH. reflexivity.
Qed.

Lemma in_play_insert_state i s (p : Player.t) ps :
  in_play s ->
  Forall (fun p => in_play (Player.state p)) ps ->
  Forall (fun p => in_play (Player.state p)) (<[i := Player.with_state s p]> ps).
Proof. intros Hs Hps. apply Forall_insert; assumption. Qed.

Lemma in_play_insert_same i (p p' : Player.t) ps :
  Player.state p' = Player.state p ->
  ps !! i = Some p ->
  Forall (fun p => in_play (Player.state p)) ps ->
  Forall (fun p => in_play (Player.state p)) (<[i := p']> ps).
Proof.
  intros Heq Hp Hps. apply Forall_insert; [exact Hps|].
  rewrite Heq. exact (proj1 (Forall_lookup _ _) Hps i p Hp).
Qed.

(** C10 (as the code has it).  Every player of a new game is WAITING,
    and after any sequence of calls on the game handler, its round
    handler and its players in which the caller does not itself pass WON
    to [set_state], every player is WAITING, ACTIVE or LOST. *)
Theorem WON_only_by_set_state (names : list string) (d : Z)
    (g0 : GameHandler.t) (ops : list GameOp) :
  GameHandler.init names d = Ok g0 ->
  Forall (fun op => ~ passes_WON op) ops ->
  Forall (fun p => Player.state p = WAITING) (GameHandler.players g0) /\
  Forall (fun p => in_play (Player.state p)) (GameHandler.players (run ops g0)).
Proof.
  intros Hinit Hops.
  assert (H0 : Forall (fun p => Player.state p = WAITING) (GameHandler.players g0)).
  { unfold GameHandler.init in Hinit.
    destruct (d <? 1); [discriminate|].
    destruct (GameHandler.create_players names d) as [ps|] eqn:Hps; [|discriminate].
    injection Hinit as <-. simpl. exact (create_players_WAITING _ _ _ Hps). }
  split; [exact H0|].
  destruct (run_facade ops g0) as (_ & _ & _ & rops & Hr & Hin).
  unfold GameHandler.players. rewrite Hr.
  apply (inv_run_round
           (fun rh => Forall (fun p => in_play (Player.state p)) (RoundHandler.players rh))
           in_play); unfold in_play; auto.
  - intros i s p rh Hs Hrh Hp. simpl. apply in_play_insert_state; assumption.
  - intros i dice p rh Hrh Hp. simpl.
    eapply in_play_insert_same; [|exact Hp|exact Hrh]. reflexivity.
  - intros i l p rh Hrh Hp. simpl.
    eapply in_play_insert_same; [|exact Hp|exact Hrh]. reflexivity.
  - apply Forall_forall. intros rop Hrop i s ->.
    specialize (Hin i s Hrop).
    destruct s; auto. exfalso.
    apply (proj1 (Forall_forall _ _) Hops _ Hin). exists i. reflexivity.
  - eapply Forall_impl; [exact H0|]. simpl. intros p ->. auto.
Qed.

Lemma WON_only_by_set_state_witness :
  states_of two_player_start = [WAITING; WAITING] /\
  Forall (fun p => in_play (Player.state p))
    (GameHandler.players
       (run [GameStartRound threes; PlayBidTurn 0 1 3; PlayBidTurn 1 1 4;
             PlayChallengeTurn 0 threes; OnRoundHandler NextPlayer]
            two_player_start)).
Proof.
  split; [reflexivity|].
  apply (WON_only_by_set_state ["Jan"; "Kowalski"] 1 two_player_start);
    [reflexivity|].
  repeat constructor; intros [i H]; discriminate H.
Defined.

(** C10, as stated, fails: [set_state] is an operation of Player, and it
    assigns WON when WON is what its caller passes. *)
Lemma set_state_assigns_WON :
  GameHandler.init ["Jan"; "Kowalski"] 1 = Ok two_player_start /\
  Player.set_state (Player.mk "Jan" WAITING [Die.default] []) WON
    = Ok (Player.mk "Jan" WON [Die.default] []) /\
  states_of (run [OnRoundHandler (OnPlayer 0 (SetState WON))] two_player_start)
    = [WON; WAITING].
Proof. repeat split. Qed.

(** ** The rotation pointer, and termination *)

(** [next_player] comes back from every round handler: the scan finds
    the demoted actor at the latest. *)
Lemma next_player_never_diverges (rh s : RoundHandler.t) :
  RoundHandler.next_player rh <> Diverge s.
Proof.
  destruct (RoundHandler.players rh !! RoundHandler.current_player_id rh) as [p|] eqn:Hp.
  - destruct (next_player_spec rh) as (rh' & d & H);
      [eapply lookup_lt_Some; exact Hp|].
    cbv zeta in H. destruct H as (-> & _). discriminate.
  - unfold RoundHandler.next_player, RoundHandler.assign_state. unfold bind at 1, get.
    unfold bind at 1. unfold bind at 1.
    rewrite (subscript_None _ _ Hp). discriminate.
Qed.

(** ** Elimination *)

Lemma set_state_LOST_fails (p : Player.t) (s : PlayerState) :
  Player.state p = LOST ->
  Player.set_state p s = Error (Exception "Player cannot come back after losing").
Proof. intros H. unfold Player.set_state. rewrite bool_decide_true by exact H. reflexivity. Qed.

(** A LOST player at the rotation pointer is not LOST any more once
    [next_player] has run. *)
Lemma next_player_revives (rh : RoundHandler.t) (p : Player.t) :
  RoundHandler.players rh !! RoundHandler.current_player_id rh = Some p ->
  Player.state p = LOST ->
  exists rh' p',
    RoundHandler.next_player rh = Return tt rh' /\
    RoundHandler.players rh' !! RoundHandler.current_player_id rh = Some p' /\
    Player.state p' <> LOST.
Proof.
  intros Hp Hlost.
  destruct (next_player_spec rh) as (rh' & d & H);
    [eapply lookup_lt_Some; exact Hp|].
  cbv zeta in H. destruct H as (Hrun & _ & _ & _ & _ & Hstates & _).
  specialize (Hstates _ _ Hp).
  eexists rh', _. split; [exact Hrun|]. split; [exact Hstates|].
  simpl. destruct (decide _); [discriminate|].
  rewrite decide_True by reflexivity. discriminate.
Qed.

(** C5, on the code.  [set_state] refuses to change a LOST player, yet
    [next_player] assigns to [state] directly: after Kowalski has lost the
    only die in a challenge, with the rotation pointer on Kowalski, a
    call of [next_player] makes Kowalski WAITING again. *)
Theorem next_player_revives_eliminated :
  GameHandler.init ["Jan"; "Kowalski"; "Tomasz"] 1 = Ok three_player_start /\
  states_of kowalski_eliminated = [WAITING; LOST; WAITING] /\
  RoundHandler.current_player_id (GameHandler.round_handler kowalski_eliminated) = 1%nat /\
  (forall s, final (RoundHandler.call_ 1 (fun p => Player.set_state p s)
                      (GameHandler.round_handler kowalski_eliminated))
             = GameHandler.round_handler kowalski_eliminated) /\
  states_of (run [OnRoundHandler NextPlayer] kowalski_eliminated)
    = [WAITING; WAITING; ACTIVE].
Proof.
  split; [reflexivity|]. split; [reflexivity|]. split; [reflexivity|].
  split; [|reflexivity]. intros s. reflexivity.
Qed.

(** ** A challenge that eliminates its loser *)

Section Elimination.
Import RoundHandler.

Lemma reset_one_LOST x rh p :
  players rh !! x = Some p -> Player.state p = LOST ->
  reset_one x rh = Raise (Exception "Player cannot roll dice after losing") rh.
Proof.
  intros Hp Hl. unfold reset_one, call_, call. unfold bind at 1. unfold bind at 1.
  rewrite (subscript_Some _ _ _ Hp). unfold bind at 1.
  unfold Player.reset_roll. rewrite bool_decide_true by exact Hl. reflexivity.
Qed.

Lemma reset_one_cases x rh :
  (x < length (players rh))%nat ->
  reset_one x rh = Raise (Exception "Player cannot roll dice after losing") rh \/
  exists rh', reset_one x rh = Return tt rh' /\
              length (players rh') = length (players rh) /\
              forall k, k <> x -> players rh' !! k = players rh !! k.
Proof.
  intros Hx. destruct (lookup_lt_is_Some_2 _ _ Hx) as [p Hp].
  destruct (decide (Player.state p = LOST)) as [Hl|Hl].
  { left. exact (reset_one_LOST _ _ _ Hp Hl). }
  right. unfold reset_one, call_, call, bind, subscript, modify, lift, ret.
  rewrite Hp. unfold Player.reset_roll. rewrite bool_decide_false by exact Hl.
  simpl. rewrite list_lookup_insert_eq by exact Hx.
  destruct (Player.get_dice_count _ =? 0).
  - unfold eliminate_player, assign_state, bind, get, subscript, modify. simpl.
    repeat (rewrite list_lookup_insert_eq by (rewrite ?length_insert; exact Hx); simpl).
    eexists. split; [reflexivity|]. simpl. rewrite !length_insert.
    split; [reflexivity|]. intros k Hk.
    rewrite !list_lookup_insert_ne by auto. reflexivity.
  - simpl. rewrite list_lookup_insert_eq by exact Hx.
    unfold Player.set_state. simpl. rewrite bool_decide_false by exact Hl. simpl.
    eexists. split; [reflexivity|]. simpl. rewrite !length_insert.
    split; [reflexivity|]. intros k Hk.
    rewrite !list_lookup_insert_ne by auto. reflexivity.
Qed.

Lemma reset_loop_raises (l : list nat) : forall rh k q,
  Forall (fun x => (x < length (players rh))%nat) l ->
  k ∈ l -> players rh !! k = Some q -> Player.state q = LOST ->
  exists rh',
    for_each l reset_one rh = Raise (Exception "Player cannot roll dice after losing") rh'.
Proof.
  induction l as [|x l IH]; intros rh k q Hall Hk Hq Hl.
  - inversion Hk.
  - inversion Hall as [|? ? Hx Hall']; subst. cbn [for_each]. unfold bind.
    destruct (decide (x = k)) as [->|Hne].
    + rewrite (reset_one_LOST _ _ _ Hq Hl). eauto.
    + destruct (reset_one_cases x rh Hx) as [->|(rh1 & -> & Hlen & Hsame)]; [eauto|].
      apply (IH rh1 k q).
      * rewrite Hlen. exact Hall'.
      * apply elem_of_cons in Hk as [->|Hk]; [congruence|exact Hk].
      * rewrite Hsame by auto. exact Hq.
      * exact Hl.
Qed.

Lemma lose_last_die (pl : Player.t) (d : Die.t) :
  Player.dice pl = [d] ->
  Player.lose_die pl = Ok (Player.with_state LOST (Player.with_dice [] pl)).
Proof. intros H. unfold Player.lose_die. rewrite H. reflexivity. Qed.

(** Whenever the loser of a challenge holds one die only,
    [challenge_and_end_round] raises instead of returning a name. *)
Lemma challenge_raises_whenever_loser_eliminated
    (rh : t) (name : string) (entropy : nat -> nat -> Z)
    (bid : Bid.t) (i : nat) (p : Player.t) (C : Z) (pl : Player.t) (d : Die.t) :
  current_bid rh = Some bid ->
  list_find (fun p => Player.name p = name) (players rh) = Some (i, p) ->
  Player.state p = ACTIVE ->
  count_dice_value (Bid.value bid) rh = Return C rh ->
  players rh !! resolve_challenge (Bid.player bid) i (Bid.quantity bid) C = Some pl ->
  Player.dice pl = [d] ->
  exists rh',
    challenge_and_end_round name entropy rh
      = Raise (Exception "Player cannot roll dice after losing") rh'.
Proof.
  intros Hbid Hfind Hact Hcount Hloser Hdice.
  destruct (get_player_by_name_found _ _ _ _ Hfind) as [Hg Hp].
  unfold challenge_and_end_round. unfold bind at 1, get. rewrite Hbid.
  unfold bind at 1. rewrite Hg. unfold bind at 1. rewrite (subscript_Some _ _ _ Hp).
  rewrite bool_decide_false by (intros H; exact (H Hact)).
  unfold bind at 1. rewrite Hcount.
  set (loser := resolve_challenge (Bid.player bid) i (Bid.quantity bid) C) in *.
  pose proof (lookup_lt_Some _ _ _ Hloser) as Hlt.
  assert (Hpen : exists rh1 q,
            apply_penalty loser rh = Return tt rh1 /\
            length (players rh1) = length (players rh) /\
            players rh1 !! loser = Some q /\ Player.state q = LOST).
  { unfold apply_penalty, call_, call, bind, get, subscript, modify, lift, ret.
    repeat (rewrite Hloser; simpl). rewrite (lose_last_die pl d Hdice). simpl.
    rewrite list_lookup_insert_eq by exact Hlt. simpl.
    unfold eliminate_player, assign_state, bind, get, subscript, modify. simpl.
    repeat (rewrite list_lookup_insert_eq by (rewrite ?length_insert; exact Hlt); simpl).
    eexists _, _. split; [reflexivity|]. simpl. rewrite !length_insert.
    split; [reflexivity|]. split.
    - apply list_lookup_insert_eq. rewrite length_insert. exact Hlt.
    - reflexivity. }
  destruct Hpen as (rh1 & q & Hpen & Hlen & Hq & Hl).
  unfold bind at 1. rewrite Hpen.
  assert (Hreset : exists rh',
            reset_players_after_round rh1
              = Raise (Exception "Player cannot roll dice after losing") rh').
  { unfold reset_players_after_round, positions. unfold bind at 1.
    apply (reset_loop_raises _ rh1 loser q); [| |exact Hq|exact Hl].
    - apply Forall_forall. intros x Hx. apply elem_of_seq in Hx. lia.
    - apply elem_of_seq. lia. }
  destruct Hreset as (rh' & Hreset).
  unfold bind at 1. rewrite Hreset. eauto.
Qed.

End Elimination.

(** C2, on the code.  Kowalski challenges Jan's bid of one three while
    every die shows a three, and loses the only die.  The call does not
    return Kowalski's name: [reset_roll] raises on the player just
    eliminated, Tomasz keeps the recorded roll, and no round is started. *)
Theorem challenge_raises_on_elimination :
  GameHandler.init ["Jan"; "Kowalski"; "Tomasz"] 1 = Ok three_player_start /\
  RoundHandler.challenge_and_end_round "Kowalski" threes
      (GameHandler.round_handler
         (run [GameStartRound threes; PlayBidTurn 0 1 3] three_player_start))
    = Raise (Exception "Player cannot roll dice after losing")
        (RoundHandler.mk
           [ Player.mk "Jan" WAITING [Die.default] [];
             Player.mk "Kowalski" LOST [] [3];
             Player.mk "Tomasz" WAITING [Die.default] [3] ]
           1 1%nat (Some (Bid.mk 1 3 0%nat)) 3).
Proof. split; reflexivity. Qed.

(** ** A challenge that eliminates nobody *)

Section Survival.
Import RoundHandler.

Lemma with_players_same rh : with_players (players rh) rh = rh.
Proof. destruct rh; reflexivity. Qed.

(** A loop over the positions whose body replaces the player at its
    position replaces them all. *)
Lemma for_each_players (body : nat -> M t unit) (f : nat -> Player.t -> Player.t)
    (good : Player.t -> Prop) :
  (forall i rh p, players rh !! i = Some p -> good p ->
     body i rh = Return tt (with_players (<[i := f i p]> (players rh)) rh)) ->
  forall l pre rh, players rh = pre ++ l -> Forall good l ->
    for_each (seq (length pre) (length l)) body rh
      = Return tt (with_players (pre ++ imap (fun k => f (length pre + k)%nat) l) rh).
Proof.
  intros Hbody. induction l as [|a l IH]; intros pre rh Hps Hgood.
  - simpl. rewrite app_nil_r in *. rewrite <- Hps, with_players_same. reflexivity.
  - inversion Hgood as [|? ? Ha Hl]; subst.
    cbn [length seq for_each]. unfold bind.
    rewrite (Hbody (length pre) rh a) by (rewrite ?Hps, ?list_lookup_middle; auto).
    set (rh1 := with_players _ rh).
    assert (Hps1 : players rh1 = (pre ++ [f (length pre) a]) ++ l).
    { unfold rh1. simpl. rewrite Hps.
      rewrite insert_app_r_alt by lia. rewrite Nat.sub_diag. simpl.
      rewrite <- app_assoc. reflexivity. }
    assert (Hlen : length (pre ++ [f (length pre) a]) = S (length pre))
      by (rewrite length_app; simpl; lia).
    specialize (IH _ rh1 Hps1 Hl). rewrite Hlen in IH. rewrite IH.
    f_equal. unfold rh1, with_players. simpl. f_equal.
    rewrite <- app_assoc. simpl. rewrite Nat.add_0_r. do 2 f_equal.
    apply imap_ext. intros k x _. simpl. f_equal. lia.
Qed.

Lemma for_each_all_players (body : nat -> M t unit) (f : nat -> Player.t -> Player.t)
    (good : Player.t -> Prop) rh :
  (forall i rh p, players rh !! i = Some p -> good p ->
     body i rh = Return tt (with_players (<[i := f i p]> (players rh)) rh)) ->
  Forall good (players rh) ->
  for_each (seq 0 (length (players rh))) body rh
    = Return tt (with_players (imap f (players rh)) rh).
Proof.
  intros Hbody Hgood.
  exact (for_each_players body f good Hbody (players rh) [] rh eq_refl Hgood).
Qed.

Lemma reset_one_playing i rh p :
  players rh !! i = Some p -> playing p ->
  reset_one i rh = Return tt (with_players (<[i := after_reset p]> (players rh)) rh).
Proof.
  intros Hp [Hl Hd]. pose proof (lookup_lt_Some _ _ _ Hp) as Hi.
  unfold reset_one, call_, call, bind, subscript, modify, lift, ret.
  rewrite Hp. unfold Player.reset_roll. rewrite bool_decide_false by exact Hl.
  simpl. rewrite list_lookup_insert_eq by exact Hi.
  unfold Player.get_dice_count. simpl.
  destruct (Player.dice p) as [|d ds] eqn:Hdice; [congruence|].
  simpl. rewrite list_lookup_insert_eq by exact Hi.
  unfold Player.set_state. simpl. rewrite bool_decide_false by exact Hl. simpl.
  rewrite list_insert_insert_eq. unfold after_reset, Player.with_state,
    Player.with_last_roll. simpl. rewrite Hdice. reflexivity.
Qed.

Lemma reset_players_after_round_playing rh :
  Forall playing (players rh) ->
  reset_players_after_round rh
    = Return tt (with_players (after_reset <$> players rh) rh).
Proof.
  intros Hall. unfold reset_players_after_round, positions. unfold bind at 1.
  pose proof (for_each_all_players reset_one (const after_reset) playing rh
                (fun i rh p => reset_one_playing i rh p) Hall) as H.
  rewrite imap_const in H. exact H.
Qed.

Lemma roll_one_playing entropy i rh p :
  players rh !! i = Some p -> Player.dice p <> [] ->
  (call i (fun p => Player.make_roll p (Player.get_dice_count p) (entropy i)) ;; ret tt) rh
    = Return tt (with_players (<[i := after_roll entropy i p]> (players rh)) rh).
Proof.
  intros Hp Hd. unfold call, bind, subscript, modify, lift, ret. rewrite Hp.
  assert (Hlen : (0 < length (Player.dice p))%nat)
    by (destruct (Player.dice p); [congruence|simpl; lia]).
  unfold Player.make_roll, Player.get_dice_count.
  destruct (Z.ltb_spec (Z.of_nat (length (Player.dice p))) 1); [lia|].
  rewrite Z.gtb_ltb, Z.ltb_irrefl, Nat2Z.id. reflexivity.
Qed.

End Survival.

Section SurvivalChallenge.
Import RoundHandler.

Lemma start_round_playing entropy rh pc :
  Forall (fun p => Player.dice p <> []) (players rh) ->
  players rh !! current_player_id rh = Some pc ->
  Player.state pc <> LOST ->
  start_round entropy rh
    = Return tt (mk (round_started entropy (current_player_id rh) (players rh))
                    (round_number rh + 1) (current_player_id rh) None (dice_count rh)).
Proof.
  intros Hdice Hpc Hl. pose proof (lookup_lt_Some _ _ _ Hpc) as Hc.
  unfold start_round. unfold bind at 1, modify. unfold bind at 1, positions.
  unfold bind at 1.
  set (rh1 := with_round_number (round_number rh + 1) rh).
  pose proof (for_each_all_players
    (fun i => call i (fun p => Player.make_roll p (Player.get_dice_count p) (entropy i)) ;;
              ret tt)
    (after_roll entropy) (fun p => Player.dice p <> []) rh1
    (fun i rh p => roll_one_playing entropy i rh p) Hdice) as Hloop.
  simpl in Hloop. simpl. rewrite Hloop. clear Hloop.
  unfold bind at 1, modify. unfold bind at 1, get. simpl.
  set (rolled := imap (after_roll entropy) (players rh)).
  assert (Hrolled : rolled !! current_player_id rh
                    = Some (after_roll entropy (current_player_id rh) pc)).
  { unfold rolled. rewrite list_lookup_imap, Hpc. reflexivity. }
  unfold call_, call, bind, subscript, modify, lift, ret. simpl.
  fold rolled. rewrite Hrolled. unfold Player.set_state. simpl.
  rewrite bool_decide_false by exact Hl. simpl.
  unfold round_started. fold rolled. rewrite Hrolled. reflexivity.
Qed.

Lemma apply_penalty_survives loser rh pl :
  players rh !! loser = Some pl ->
  (2 <= length (Player.dice pl))%nat ->
  apply_penalty loser rh = Return tt (with_players (penalised loser (players rh)) rh).
Proof.
  intros Hpl Hlen. pose proof (lookup_lt_Some _ _ _ Hpl) as Hlt.
  assert (Hlose : Player.lose_die pl
                  = Ok (Player.with_dice (removelast (Player.dice pl)) pl)).
  { unfold Player.lose_die, Player.get_dice_count.
    destruct (Player.dice pl) as [|d [|d' ds]] eqn:Hd; simpl in Hlen; try lia.
    reflexivity. }
  unfold apply_penalty, call_, call, bind, get, subscript, modify, lift, ret.
  repeat (rewrite Hpl; simpl). rewrite Hlose. simpl.
  rewrite list_lookup_insert_eq by exact Hlt.
  unfold Player.get_dice_count. simpl.
  destruct (Player.dice pl) as [|d [|d' ds]] eqn:Hd; simpl in Hlen; try lia.
  unfold penalised. rewrite Hpl, Hd. reflexivity.
Qed.

End SurvivalChallenge.

Section ChallengeOutcome.
Import RoundHandler.

Lemma playing_penalised loser (ps : list Player.t) pl :
  ps !! loser = Some pl -> (2 <= length (Player.dice pl))%nat ->
  Forall playing ps -> Forall playing (penalised loser ps).
Proof.
  intros Hpl Hlen Hall. unfold penalised. rewrite Hpl.
  apply Forall_insert; [exact Hall|].
  pose proof (proj1 (Forall_lookup _ _) Hall _ _ Hpl) as [Hs _].
  split; [exact Hs|]. simpl.
  destruct (Player.dice pl) as [|d [|d' ds]]; simpl in *; try lia. discriminate.
Qed.

Lemma filter_not_LOST_after_reset (ps : list Player.t) :
  filter (fun p => Player.state p <> LOST) (after_reset <$> ps) = after_reset <$> ps.
Proof.
  induction ps as [|p ps IH]; [reflexivity|].
  rewrite fmap_cons, filter_cons_True by discriminate. rewrite IH. reflexivity.
Qed.

(** The part of C2 that the code does: when the loser of the challenge
    holds at least two dice and every player is in the game with a die,
    [challenge_and_end_round] returns the loser's name; the loser has one
    die less, every recorded roll has been cleared, every player has been
    made WAITING, and with two players or more a new round has been
    started on top of that. *)
Lemma challenge_without_elimination
    (rh : t) (name : string) (entropy : nat -> nat -> Z)
    (bid : Bid.t) (i : nat) (p : Player.t) (C : Z) (pl : Player.t) :
  current_bid rh = Some bid ->
  list_find (fun p => Player.name p = name) (players rh) = Some (i, p) ->
  Player.state p = ACTIVE ->
  count_dice_value (Bid.value bid) rh = Return C rh ->
  let loser := resolve_challenge (Bid.player bid) i (Bid.quantity bid) C in
  players rh !! loser = Some pl ->
  (2 <= length (Player.dice pl))%nat ->
  Forall playing (players rh) ->
  (current_player_id rh < length (players rh))%nat ->
  let survivors := after_reset <$> penalised loser (players rh) in
  challenge_and_end_round name entropy rh
    = Return (Player.name pl)
        (if decide (2 <= length (players rh))%nat then
           mk (round_started entropy (current_player_id rh) survivors)
              (round_number rh + 1) (current_player_id rh) None (dice_count rh)
         else with_players survivors rh).
Proof.
  intros Hbid Hfind Hact Hcount loser Hloser Hlen Hall Hc survivors.
  destruct (get_player_by_name_found _ _ _ _ Hfind) as [Hg Hp].
  pose proof (lookup_lt_Some _ _ _ Hloser) as Hlt.
  unfold challenge_and_end_round. unfold bind at 1, get. rewrite Hbid.
  unfold bind at 1. rewrite Hg. unfold bind at 1. rewrite (subscript_Some _ _ _ Hp).
  rewrite bool_decide_false by (intros H; exact (H Hact)).
  unfold bind at 1. rewrite Hcount. fold loser.
  unfold bind at 1. rewrite (apply_penalty_survives _ _ _ Hloser Hlen).
  set (rh1 := with_players (penalised loser (players rh)) rh).
  assert (Hall1 : Forall playing (players rh1))
    by (apply playing_penalised with pl; assumption).
  unfold bind at 1. rewrite (reset_players_after_round_playing rh1 Hall1).
  change (after_reset <$> players rh1) with survivors.
  set (rh2 := with_players survivors rh1).
  assert (Hlen2 : length survivors = length (players rh)).
  { unfold survivors, penalised. rewrite Hloser, length_fmap, length_insert. reflexivity. }
  assert (Hname : exists q, survivors !! loser = Some q /\ Player.name q = Player.name pl).
  { unfold survivors, penalised. rewrite Hloser, list_lookup_fmap.
    rewrite list_lookup_insert_eq by exact Hlt. eexists. split; reflexivity. }
  destruct Hname as (q & Hq & Hqn).
  unfold bind at 1. unfold check_if_start_next_round at 1. unfold bind at 1, get, ret.
  change (players rh2) with survivors.
  unfold survivors at 1. rewrite filter_not_LOST_after_reset. fold survivors.
  rewrite Hlen2.
  destruct (decide (2 <= length (players rh))%nat) as [H2|H2].
  - destruct (Z.gtb_spec (Z.of_nat (length (players rh))) 1); [|lia].
    unfold bind at 1.
    assert (Hcur : exists pc, players rh2 !! current_player_id rh2 = Some pc /\
                              Player.state pc <> LOST).
    { destruct (lookup_lt_is_Some_2 survivors (current_player_id rh)) as [pc Hpc];
        [rewrite Hlen2; exact Hc|].
      exists pc. split; [exact Hpc|].
      unfold survivors in Hpc. rewrite list_lookup_fmap in Hpc.
      destruct (penalised loser (players rh) !! current_player_id rh); [|discriminate].
      injection Hpc as <-. discriminate. }
    destruct Hcur as (pc & Hpc & Hpcl).
    rewrite (start_round_playing entropy rh2 pc); [|..|exact Hpc|exact Hpcl].
    + unfold bind at 1. simpl.
      assert (Hfin : exists q', round_started entropy (current_player_id rh) survivors
                                  !! loser = Some q' /\ Player.name q' = Player.name pl).
      { unfold round_started. change (players rh2) with survivors in Hpc. simpl in Hpc.
        set (rolled := imap (after_roll entropy) survivors).
        assert (Hr : rolled !! loser = Some (after_roll entropy loser q))
          by (unfold rolled; rewrite list_lookup_imap, Hq; reflexivity).
        destruct (rolled !! current_player_id rh) as [pc'|] eqn:Hpc'; [|eauto].
        destruct (decide (current_player_id rh = loser)) as [Heq|Hne].
        - rewrite Heq in *. rewrite list_lookup_insert_eq
            by (eapply lookup_lt_Some; exact Hr).
          rewrite Hr in Hpc'. injection Hpc' as <-. eauto.
        - rewrite list_lookup_insert_ne by exact Hne. eauto. }
      destruct Hfin as (q' & Hq' & Hq'n).
      unfold subscript. simpl. rewrite Hq'. unfold ret. rewrite Hq'n. reflexivity.
    + simpl. apply Forall_fmap. eapply Forall_impl; [exact Hall1|].
      intros x [_ Hx]. exact Hx.
  - destruct (Z.gtb_spec (Z.of_nat (length (players rh))) 1); [lia|].
    unfold bind at 1. unfold bind at 1. unfold end_game_info. unfold bind at 1, get.
    change (players rh2) with survivors.
    unfold survivors at 1. rewrite filter_not_LOST_after_reset. fold survivors.
    destruct survivors as [|w ws] eqn:Hs; [simpl in Hlen2; lia|].
    unfold ret. unfold bind at 1. unfold subscript.
    change (players rh2) with (w :: ws). rewrite Hq, Hqn. reflexivity.
Qed.

End ChallengeOutcome.

(** Kowalski challenges Jan's bid of one three with two dice each, all
    showing three: Kowalski pays a die and opens the second round. *)
Lemma challenge_without_elimination_example :
  RoundHandler.challenge_and_end_round "Kowalski" threes
      (run_round [StartRound threes; MakeBid "Jan" 1 3] (RoundHandler.init two_dice_each))
    = Return "Kowalski"
        (RoundHandler.mk
           [ Player.mk "Jan" WAITING [Die.default; Die.default] [3; 3];
             Player.mk "Kowalski" ACTIVE [Die.default] [3] ]
           2 1%nat None 4).
Proof.
  set (rh := run_round [StartRound threes; MakeBid "Jan" 1 3]
               (RoundHandler.init two_dice_each)).
  set (kowalski := Player.mk "Kowalski" ACTIVE [Die.default; Die.default] [3; 3]).
  refine (eq_trans (challenge_without_elimination rh "Kowalski" threes
                      (Bid.mk 1 3 0%nat) 1%nat kowalski 4 kowalski _ _ _ _ _ _ _ _) _).
  - reflexivity.
  - reflexivity.
  - reflexivity.
  - vm_compute. reflexivity.
  - reflexivity.
  - simpl. lia.
  - repeat constructor; discriminate.
  - simpl. lia.
  - vm_compute. reflexivity.
Qed.

(** * More of the code *)

(** ** Dice *)

Lemma roll_face (d : Die.t) (r : Z) : 2 <= Die.sides d -> face_of d (Die.roll d r).
Proof.
  intros Hs. unfold face_of, Die.roll, Die.randint.
  replace (Die.sides d - 1 + 1) with (Die.sides d) by lia.
  pose proof (Z.mod_pos_bound r (Die.sides d) ltac:(lia)). lia.
Qed.

(** X1.  A die made by the constructor or reconfigured by [set_sides] has
    at least two sides; each roll of it shows one of the faces 1 to
    [sides], and each of these faces is shown on some roll. *)
Theorem roll_in_range (n : Z) (d : Die.t) :
  Die.init n = Ok d \/ (exists d0, Die.set_sides d0 n = Ok d) ->
  Die.sides d = n /\ 2 <= n /\
  (forall r, face_of d (Die.roll d r)) /\
  (forall v, face_of d v -> exists r, Die.roll d r = v).
Proof.
  intros H.
  assert (Hd : Die.sides d = n /\ 2 <= n).
  { unfold Die.init, Die.set_sides in H.
    destruct (Z.leb_spec n 1); [destruct H as [H|[d0 H]]; discriminate|].
    destruct H as [H|[d0 H]]; injection H as <-; simpl; lia. }
  destruct Hd as [Hs Hn]. split; [exact Hs|]. split; [exact Hn|]. split.
  - intros r. apply roll_face. lia.
  - intros v [H1 H2]. exists (v - 1). unfold Die.roll, Die.randint.
    replace (Die.sides d - 1 + 1) with (Die.sides d) by lia.
    rewrite Z.mod_small by lia. lia.
Qed.

Lemma roll_in_range_witness :
  Die.init 6 = Ok Die.default /\ face_of Die.default (Die.roll Die.default 41) /\
  exists r, Die.roll Die.default r = 6.
Proof.
  destruct (roll_in_range 6 Die.default) as (_ & _ & Hface & Hall);
    [left; reflexivity|].
  split; [reflexivity|]. split; [apply Hface|].
  apply Hall. unfold face_of. simpl. lia.
Defined.

(** X2.  [roll_dice] refuses a count of zero or less with a ValueError;
    for a count of one or more, on a die with two sides or more, it
    returns that many rolls, each a face of the die. *)
Theorem roll_dice_many (d : Die.t) (num : Z) (entropy : nat -> Z) :
  (num <= 0 ->
     Die.roll_dice d num entropy
       = Error (ValueError "Number of times thrown must be greater than 0")) /\
  (1 <= num -> 2 <= Die.sides d ->
     exists rolls, Die.roll_dice d num entropy = Ok rolls /\
                   Z.of_nat (length rolls) = num /\
                   Forall (face_of d) rolls).
Proof.
  unfold Die.roll_dice. split.
  - intros H. destruct (Z.leb_spec num 0); [reflexivity|lia].
  - intros H Hs. destruct (Z.leb_spec num 0); [lia|].
    eexists. split; [reflexivity|]. split.
    + rewrite length_fmap, length_seq. lia.
    + apply Forall_fmap, Forall_forall. intros i _. apply roll_face, Hs.
Qed.

Lemma roll_dice_many_witness :
  Die.roll_dice Die.default 0 (fun _ => 2)
    = Error (ValueError "Number of times thrown must be greater than 0") /\
  exists rolls, Die.roll_dice Die.default 3 (fun _ => 2) = Ok rolls /\
                Z.of_nat (length rolls) = 3 /\ Forall (face_of Die.default) rolls.
Proof.
  split.
  - apply (proj1 (roll_dice_many Die.default 0 (fun _ => 2))). lia.
  - apply (proj2 (roll_dice_many Die.default 3 (fun _ => 2))); simpl; lia.
Defined.

(** ** Players *)

Lemma lose_die_replicate name s n (x : Die.t) l :
  Player.lose_die (Player.mk name s (replicate (S n) x) l)
    = Ok (Player.mk name (match n with O => LOST | S _ => s end) (replicate n x) l).
Proof.
  unfold Player.lose_die, Player.get_dice_count, Player.with_dice, Player.with_state.
  cbn [Player.dice Player.name Player.state Player.last_roll replicate].
  assert (Hrl : removelast (x :: replicate n x) = replicate n x).
  { clear. induction n as [|n IH]; [reflexivity|].
    cbn [replicate]. rewrite <- IH at 2. reflexivity. }
  rewrite Hrl, length_replicate. destruct n; reflexivity.
Qed.

Lemma lose_dice_replicate (x : Die.t) name l : forall k n s,
  (k <= n)%nat ->
  lose_dice k (Player.mk name s (replicate n x) l)
    = Ok (Player.mk name (if (k =? n)%nat && (0 <? k)%nat then LOST else s)
            (replicate (n - k) x) l).
Proof.
  induction k as [|k IH]; intros n s Hk.
  - simpl. rewrite andb_false_r, Nat.sub_0_r. reflexivity.
  - destruct n as [|n]; [lia|]. cbn [lose_dice]. rewrite lose_die_replicate.
    rewrite IH by lia. cbn [Nat.sub]. do 2 f_equal.
    destruct n as [|n].
    + assert (k = 0)%nat as -> by lia. reflexivity.
    + cbn [Nat.eqb Nat.ltb Nat.leb]. rewrite andb_true_r.
      destruct (Nat.eqb_spec k (S n)) as [->|Hne]; reflexivity.
Qed.

Lemma lose_dice_empty k name s l :
  lose_dice (S k) (Player.mk name s [] l) = Error (IndexError "pop from empty list").
Proof. reflexivity. Qed.

Lemma lose_dice_add a b p :
  lose_dice (a + b) p =
    match lose_dice a p with Ok p' => lose_dice b p' | Error e => Error e end.
Proof.
  revert p. induction a as [|a IH]; intros p; [reflexivity|].
  cbn [Nat.add lose_dice]. destruct (Player.lose_die p); [apply IH|reflexivity].
Qed.

(** X3.  A player created with [d] dice is still WAITING, with [d - k]
    dice, after losing [k < d] of them; is LOST, with an empty hand,
    after losing all [d]; and [lose_die] on the empty hand ends in the
    IndexError of [pop]. *)
Theorem lose_dice_countdown (name : string) (d : Z) (p : Player.t) (k : nat) :
  Player.init name d = Ok p ->
  (Z.of_nat k < d ->
     lose_dice k p
       = Ok (Player.mk name WAITING (replicate (Z.to_nat d - k) Die.default) [])) /\
  (Z.of_nat k = d -> lose_dice k p = Ok (Player.mk name LOST [] [])) /\
  (Z.of_nat k > d -> lose_dice k p = Error (IndexError "pop from empty list")).
Proof.
  unfold Player.init. destruct (Z.ltb_spec d 1); [discriminate|].
  intros [= <-]. set (n := Z.to_nat d).
  assert (Hn : d = Z.of_nat n) by lia. split; [|split]; intros Hk.
  - rewrite lose_dice_replicate by lia.
    destruct (Nat.eqb_spec k n); [lia|]. reflexivity.
  - rewrite lose_dice_replicate by lia.
    destruct (Nat.eqb_spec k n); [|lia]. destruct (Nat.ltb_spec 0 k); [|lia].
    simpl. replace (n - k)%nat with 0%nat by lia. reflexivity.
  - replace k with (n + S (k - n - 1))%nat by lia.
    rewrite lose_dice_add, lose_dice_replicate by lia.
    rewrite Nat.sub_diag. apply lose_dice_empty.
Qed.

Lemma lose_dice_countdown_witness :
  Player.init "Jan" 5 = Ok (Player.mk "Jan" WAITING (replicate 5 Die.default) []) /\
  lose_dice 2 (Player.mk "Jan" WAITING (replicate 5 Die.default) [])
    = Ok (Player.mk "Jan" WAITING (replicate 3 Die.default) []) /\
  lose_dice 5 (Player.mk "Jan" WAITING (replicate 5 Die.default) [])
    = Ok (Player.mk "Jan" LOST [] []) /\
  lose_dice 6 (Player.mk "Jan" WAITING (replicate 5 Die.default) [])
    = Error (IndexError "pop from empty list").
Proof.
  split; [reflexivity|]. split; [|split].
  - apply (proj1 (lose_dice_countdown "Jan" 5 _ 2 eq_refl)). lia.
  - apply (proj1 (proj2 (lose_dice_countdown "Jan" 5 _ 5 eq_refl))). lia.
  - apply (proj2 (proj2 (lose_dice_countdown "Jan" 5 _ 6 eq_refl))). lia.
Defined.

(** X4.  [make_roll] refuses a count below one or above the size of the
    hand.  Otherwise it appends [count] values to the recorded roll, the
    [i]-th of them a face of the [i]-th die of the hand, returns the
    whole record, and changes nothing else of the player. *)
Theorem make_roll_appends (p : Player.t) (count : Z) (entropy : nat -> Z) :
  (count < 1 ->
     Player.make_roll p count entropy
       = Error (ValueError "Number of dice to roll must be greater than 0")) /\
  (1 <= count -> count > Player.get_dice_count p ->
     Player.make_roll p count entropy
       = Error (ValueError
           "Number of dice to roll must be less or equal to the number of dice in game")) /\
  (1 <= count <= Player.get_dice_count p ->
     exists rolled,
       Player.make_roll p count entropy
         = Ok (Player.last_roll p ++ rolled,
               Player.with_last_roll (Player.last_roll p ++ rolled) p) /\
       Z.of_nat (length rolled) = count /\
       (Forall (fun d => 2 <= Die.sides d) (Player.dice p) ->
        forall i v d, rolled !! i = Some v -> Player.dice p !! i = Some d -> face_of d v)).
Proof.
  unfold Player.make_roll. split; [|split].
  - intros H. destruct (Z.ltb_spec count 1); [reflexivity|lia].
  - intros H1 H2. destruct (Z.ltb_spec count 1); [lia|].
    destruct (Z.gtb_spec count (Player.get_dice_count p)); [reflexivity|lia].
  - intros [H1 H2]. destruct (Z.ltb_spec count 1); [lia|].
    destruct (Z.gtb_spec count (Player.get_dice_count p)); [lia|].
    eexists. split; [reflexivity|]. unfold Player.roll_first. split.
    + rewrite length_imap, length_take. unfold Player.get_dice_count in H2. lia.
    + intros Hsides i v d Hv Hd. rewrite list_lookup_imap in Hv.
      destruct (take (Z.to_nat count) (Player.dice p) !! i) as [d'|] eqn:Hd';
        [|discriminate].
      injection Hv as <-.
      assert (d' = d) as ->.
      { pose proof (lookup_lt_Some _ _ _ Hd') as Hi. rewrite length_take in Hi.
        rewrite lookup_take_lt in Hd' by lia. congruence. }
      apply roll_face. exact (proj1 (Forall_lookup _ _) Hsides i d Hd).
Qed.

Lemma make_roll_appends_witness :
  Player.make_roll (Player.mk "Jan" WAITING (replicate 5 Die.default) [4]) 0 (fun _ => 2)
    = Error (ValueError "Number of dice to roll must be greater than 0") /\
  Player.make_roll (Player.mk "Jan" WAITING (replicate 5 Die.default) [4]) 6 (fun _ => 2)
    = Error (ValueError
        "Number of dice to roll must be less or equal to the number of dice in game") /\
  exists rolled,
    Player.make_roll (Player.mk "Jan" WAITING (replicate 5 Die.default) [4]) 3 (fun _ => 2)
      = Ok ([4] ++ rolled,
            Player.mk "Jan" WAITING (replicate 5 Die.default) ([4] ++ rolled)) /\
    Z.of_nat (length rolled) = 3.
Proof.
  pose (jan := Player.mk "Jan" WAITING (replicate 5 Die.default) [4]).
  split; [|split].
  - apply (proj1 (make_roll_appends jan 0 (fun _ => 2))). lia.
  - apply (proj1 (proj2 (make_roll_appends jan 6 (fun _ => 2))));
      unfold jan, Player.get_dice_count; simpl; lia.
  - destruct (proj2 (proj2 (make_roll_appends jan 3 (fun _ => 2))))
      as (rolled & Hr & Hlen & _); [unfold jan, Player.get_dice_count; simpl; lia|].
    exists rolled. split; [exact Hr|exact Hlen].
Defined.

(** ** Looking players up *)

Section Lookup.
Import RoundHandler.

(** X5.  [get_player_by_name] returns the first player of that name in
    list order, raises "Player not found" exactly when no player has the
    name, and changes nothing.  When the names are pairwise distinct, the
    name of the player at a position leads back to that position. *)
Theorem get_player_by_name_first (name : string) (rh : t) :
  (forall i,
     get_player_by_name name rh = Return i rh <->
     exists p, players rh !! i = Some p /\ Player.name p = name /\
               forall j q, (j < i)%nat -> players rh !! j = Some q ->
                           Player.name q <> name) /\
  (get_player_by_name name rh = Raise (Exception "Player not found") rh <->
   Forall (fun p => Player.name p <> name) (players rh)) /\
  final (get_player_by_name name rh) = rh /\
  (NoDup (Player.name <$> players rh) ->
   forall i p, players rh !! i = Some p ->
               get_player_by_name (Player.name p) rh = Return i rh).
Proof.
  unfold get_player_by_name, bind, get, ret, raise. repeat split.
  - destruct (list_find _ _) as [[i' p']|] eqn:Hf; [|discriminate].
    intros [= ->]. apply list_find_Some in Hf as (Hp & Hn & Hfirst).
    exists p'. repeat split; [exact Hp|exact Hn|]. intros j q Hj Hq. eauto.
  - intros (p & Hp & Hn & Hfirst).
    assert (Hf : list_find (fun p => Player.name p = name) (players rh) = Some (i, p)).
    { apply list_find_Some. repeat split; [exact Hp|exact Hn|].
      intros j q Hq Hj. eauto. }
    rewrite Hf. reflexivity.
  - destruct (list_find _ _) as [[i' p']|] eqn:Hf; [discriminate|].
    intros _. exact (proj1 (list_find_None _ _) Hf).
  - intros Hall. rewrite (proj2 (list_find_None _ _) Hall). reflexivity.
  - destruct (list_find _ _) as [[i' p']|]; reflexivity.
  - intros Hnd i p Hp.
    assert (Hf : list_find (fun q => Player.name q = Player.name p) (players rh)
                 = Some (i, p)).
    { apply list_find_Some. repeat split; [exact Hp|].
      intros j q Hq Hj Heq.
      assert (j = i); [|lia].
      apply (NoDup_lookup (Player.name <$> players rh) j i (Player.name p) Hnd).
      - rewrite list_lookup_fmap, Hq. simpl. congruence.
      - rewrite list_lookup_fmap, Hp. reflexivity. }
    rewrite Hf. reflexivity.
Qed.

Lemma get_player_by_name_first_witness :
  get_player_by_name "Kowalski" namesakes = Return 1%nat namesakes /\
  get_player_by_name "Tomasz" namesakes = Raise (Exception "Player not found") namesakes /\
  get_player_by_name "Kowalski" (bidding_table None) = Return 1%nat (bidding_table None).
Proof.
  split; [|split].
  - apply (proj1 (get_player_by_name_first "Kowalski" namesakes)).
    eexists. split; [reflexivity|]. split; [reflexivity|].
    intros j q Hj Hq. assert (j = 0)%nat as -> by lia.
    injection Hq as <-. discriminate.
  - apply (proj1 (proj2 (get_player_by_name_first "Tomasz" namesakes))).
    repeat constructor; discriminate.
  - apply (proj2 (proj2 (proj2 (get_player_by_name_first "Kowalski" (bidding_table None))))
             ltac:(apply (bool_decide_unpack _); vm_compute; exact I) 1%nat
             (Player.mk "Kowalski" WAITING (replicate 5 Die.default) [])).
    reflexivity.
Defined.

(** X6.  After [next_player], called with the rotation pointer inside
    the list and no player other than the current actor ACTIVE,
    [get_active_player] returns the player at the rotation pointer. *)
Theorem get_active_player_after_next_player (rh : t) :
  (current_player_id rh < length (players rh))%nat ->
  (forall i p, i <> current_player_id rh -> players rh !! i = Some p ->
               Player.state p <> ACTIVE) ->
  exists rh', next_player rh = Return tt rh' /\
              get_active_player rh' = Return (current_player_id rh') rh'.
Proof.
  intros Hc Hothers. destruct (next_player_spec rh Hc) as (rh' & d & H).
  cbv zeta in H. destruct H as (Hrun & _ & Heq & _ & _ & _ & Hlen & Hone).
  specialize (Hone Hothers). exists rh'. split; [exact Hrun|].
  set (j := ((current_player_id rh + d) mod length (players rh))%nat) in *.
  assert (Hj : current_player_id rh' = j) by (rewrite Heq; reflexivity).
  assert (Hjlt : (j < length (players rh'))%nat).
  { rewrite Hlen. apply Nat.mod_upper_bound. lia. }
  destruct (lookup_lt_is_Some_2 _ _ Hjlt) as [pj Hpj].
  unfold get_active_player, bind, get.
  assert (Hf : list_find (fun p => Player.is_active p = true) (players rh') = Some (j, pj)).
  { apply list_find_Some. repeat split; [exact Hpj| |].
    - unfold Player.is_active. apply bool_decide_eq_true. apply (Hone j pj Hpj). reflexivity.
    - intros i q Hq Hi Ha. unfold Player.is_active in Ha.
      apply bool_decide_eq_true in Ha. apply (Hone i q Hq) in Ha. lia. }
  rewrite Hf, Hj. reflexivity.
Qed.

Lemma get_active_player_after_next_player_witness :
  exists rh', next_player (bidding_table None) = Return tt rh' /\
              get_active_player rh' = Return (current_player_id rh') rh'.
Proof.
  apply get_active_player_after_next_player; [simpl; lia|].
  intros i p Hi Hp. simpl in Hi.
  destruct i as [|[|i]]; [congruence| |discriminate Hp].
  injection Hp as <-. discriminate.
Defined.

End Lookup.

(** ** The end of the game, the count, and the penalty *)

Section Endgame.
Import RoundHandler.

(** X7.  [check_if_start_next_round] answers whether two players or more
    are not LOST, and changes nothing.  [end_game_info] returns the name
    of the first player that is not LOST, which is the only one when
    the check answers no and there is one, and raises "No winner" when
    every player is LOST. *)
Theorem next_round_or_winner (rh : t) :
  check_if_start_next_round rh
    = Return (bool_decide (2 <= length (not_LOST rh))%nat) rh /\
  (forall w, not_LOST rh = [w] ->
     check_if_start_next_round rh = Return false rh /\
     end_game_info rh = Return (Player.name w) rh) /\
  (not_LOST rh = [] ->
     check_if_start_next_round rh = Return false rh /\
     end_game_info rh = Raise (Exception "No winner") rh) /\
  (check_if_start_next_round rh = Return true rh ->
     exists w w' rest, not_LOST rh = w :: w' :: rest /\
                       end_game_info rh = Return (Player.name w) rh).
Proof.
  unfold check_if_start_next_round, end_game_info, bind, get, ret, raise, not_LOST.
  set (alive := filter (fun p => Player.state p <> LOST) (players rh)).
  assert (Hcheck : (Z.of_nat (length alive) >? 1) = bool_decide (2 <= length alive)%nat).
  { destruct (Z.gtb_spec (Z.of_nat (length alive)) 1).
    - rewrite bool_decide_true by lia. reflexivity.
    - rewrite bool_decide_false by lia. reflexivity. }
  rewrite Hcheck. split; [reflexivity|]. split; [|split].
  - intros w ->. split; reflexivity.
  - intros ->. split; reflexivity.
  - intros [= H]. apply bool_decide_eq_true in H.
    destruct alive as [|w [|w' rest]]; simpl in H; try lia. eauto.
Qed.

Lemma next_round_or_winner_witness :
  check_if_start_next_round lone_survivor = Return false lone_survivor /\
  end_game_info lone_survivor = Return "Jan" lone_survivor /\
  exists w w' rest, not_LOST (bidding_table None) = w :: w' :: rest /\
                    end_game_info (bidding_table None)
                      = Return (Player.name w) (bidding_table None).
Proof.
  split; [|split].
  - apply (proj1 (proj2 (next_round_or_winner lone_survivor))
             (Player.mk "Jan" WAITING [Die.default] [])). reflexivity.
  - apply (proj1 (proj2 (next_round_or_winner lone_survivor))
             (Player.mk "Jan" WAITING [Die.default] [])). reflexivity.
  - apply (proj2 (proj2 (proj2 (next_round_or_winner (bidding_table None))))).
    reflexivity.
Defined.

Lemma dice_showing_bounds value (ps : list Player.t) :
  0 <= dice_showing value ps <= rolls_recorded ps.
Proof.
  rewrite <- sum_counts_dice_showing. unfold rolls_recorded, sum_Z.
  induction ps as [|p ps IH]; [simpl; lia|].
  rewrite !fmap_cons. cbn [foldr].
  pose proof (length_filter (fun roll => roll = value) (Player.last_roll p)). lia.
Qed.

(** X8.  With [sides] the number of sides of the first die of the player
    at the rotation pointer, [count_dice_value] refuses a value outside 1
    to [sides] with a ValueError naming [sides]; for a value inside, it
    returns the number of recorded rolls showing it, which lies between
    zero and the number of rolls recorded, and changes nothing.  With the
    rotation pointer on a player without dice it ends in an IndexError. *)
Theorem count_dice_value_bounds (value : Z) (rh : t) (cur : Player.t) :
  players rh !! current_player_id rh = Some cur ->
  (forall sides, Player.get_die_value cur = Ok sides ->
     (value < 1 \/ value > sides ->
        count_dice_value value rh
          = Raise (ValueError ("Value must be between 1 and " +:+ str sides)) rh) /\
     (1 <= value <= sides ->
        count_dice_value value rh = Return (dice_showing value (players rh)) rh /\
        0 <= dice_showing value (players rh) <= rolls_recorded (players rh))) /\
  (Player.dice cur = [] ->
     count_dice_value value rh = Raise (IndexError "list index out of range") rh).
Proof.
  intros Hcur. unfold count_dice_value, bind, get, lift, ret, raise.
  rewrite (subscript_Some _ _ _ Hcur). split.
  - intros sides ->. split.
    + intros Hbad. destruct (Z.ltb_spec value 1); [reflexivity|].
      destruct (Z.gtb_spec value sides); [reflexivity|lia].
    + intros Hin. destruct (Z.ltb_spec value 1); [lia|].
      destruct (Z.gtb_spec value sides); [lia|]. simpl.
      rewrite sum_counts_dice_showing. split; [reflexivity|apply dice_showing_bounds].
  - intros Hd. unfold Player.get_die_value. rewrite Hd. reflexivity.
Qed.

Lemma count_dice_value_bounds_witness :
  count_dice_value 7 (challenge_table 2)
    = Raise (ValueError "Value must be between 1 and 6") (challenge_table 2) /\
  count_dice_value 1 (challenge_table 2) = Return 4 (challenge_table 2) /\
  count_dice_value 4 lone_survivor = Return 0 lone_survivor.
Proof.
  pose (kowalski := Player.mk "Kowalski" ACTIVE (replicate 5 Die.default) [5; 6; 1; 2; 3]).
  split; [|split].
  - apply (proj1 (proj1 (count_dice_value_bounds 7 (challenge_table 2) kowalski eq_refl)
                    6 eq_refl)). right. lia.
  - apply (proj2 (proj1 (count_dice_value_bounds 1 (challenge_table 2) kowalski eq_refl)
                    6 eq_refl)). lia.
  - apply (proj2 (proj1 (count_dice_value_bounds 4 lone_survivor
                           (Player.mk "Jan" WAITING [Die.default] []) eq_refl)
                    6 eq_refl)). lia.
Defined.

Lemma sum_Z_insert {A} (f : A -> Z) (l : list A) i x y :
  l !! i = Some x ->
  sum_Z (f <$> <[i := y]> l) = sum_Z (f <$> l) - f x + f y.
Proof.
  unfold sum_Z. revert i.
  induction l as [|a l IH]; intros i Hx; [discriminate|].
  destruct i as [|i].
  - injection Hx as ->. change (<[0%nat := y]> (x :: l)) with (y :: l).
    rewrite !fmap_cons. cbn [foldr]. lia.
  - change (<[S i := y]> (a :: l)) with (a :: <[i := y]> l).
    rewrite !fmap_cons. cbn [foldr]. rewrite (IH i Hx). lia.
Qed.

Lemma dice_in_play_insert (ps : list Player.t) i p p' :
  ps !! i = Some p ->
  dice_in_play (<[i := p']> ps)
    = dice_in_play ps - Player.get_dice_count p + Player.get_dice_count p'.
Proof. apply sum_Z_insert. Qed.

Lemma length_removelast_cons {A} (d : A) ds :
  length (removelast (d :: ds)) = length ds.
Proof.
  revert d. induction ds as [|d' ds IH]; intros d; [reflexivity|].
  change (removelast (d :: d' :: ds)) with (d :: removelast (d' :: ds)).
  cbn [length]. rewrite IH. reflexivity.
Qed.

(** X9.  [apply_penalty] on a player holding dice returns: the player
    has the last die of the hand removed, keeps name and recorded roll,
    and is LOST when the hand has become empty, in the state of before
    otherwise; the other players and the rest of the round handler are as
    they were, and one die less is in play.  On a player without dice it
    ends in the IndexError of [pop], with nothing changed. *)
Theorem apply_penalty_one_die (r : nat) (rh : t) (p : Player.t) :
  players rh !! r = Some p ->
  (Player.dice p = [] ->
     apply_penalty r rh = Raise (IndexError "pop from empty list") rh) /\
  (Player.dice p <> [] ->
     let p' := Player.mk (Player.name p)
                 (if bool_decide (length (Player.dice p) = 1%nat) then LOST
                  else Player.state p)
                 (removelast (Player.dice p)) (Player.last_roll p) in
     apply_penalty r rh = Return tt (with_players (<[r := p']> (players rh)) rh) /\
     Player.get_dice_count p' = Player.get_dice_count p - 1 /\
     dice_in_play (<[r := p']> (players rh)) = dice_in_play (players rh) - 1).
Proof.
  intros Hp. pose proof (lookup_lt_Some _ _ _ Hp) as Hlt. split.
  - intros Hd. unfold apply_penalty, call_, call, bind, get, subscript, lift, raise.
    repeat (rewrite Hp; simpl). unfold Player.lose_die. rewrite Hd. reflexivity.
  - intros Hd p'.
    destruct (Player.dice p) as [|d ds] eqn:Hdice; [congruence|].
    assert (Hcount : Player.get_dice_count p' = Player.get_dice_count p - 1).
    { unfold p', Player.get_dice_count. cbn [Player.dice].
      rewrite length_removelast_cons, Hdice. cbn [length]. lia. }
    split; [|split; [exact Hcount|]].
    + assert (Hlose : Player.lose_die p = Ok p').
      { unfold Player.lose_die, Player.get_dice_count. rewrite Hdice.
        unfold Player.with_dice, Player.with_state. cbn [Player.dice Player.name
          Player.state Player.last_roll]. rewrite length_removelast_cons.
        unfold p'. destruct ds; reflexivity. }
      unfold apply_penalty, call_, call, bind, get, subscript, modify, lift, ret.
      repeat (rewrite Hp; simpl). rewrite Hlose. simpl.
      rewrite list_lookup_insert_eq by exact Hlt.
      unfold Player.get_dice_count at 1. unfold p' at 1. cbn [Player.dice].
      rewrite length_removelast_cons.
      destruct ds as [|d' ds].
      * simpl. unfold eliminate_player, assign_state, bind, get, subscript, modify.
        simpl. repeat (rewrite list_lookup_insert_eq by (rewrite ?length_insert; exact Hlt);
                       simpl).
        rewrite list_insert_insert_eq. reflexivity.
      * reflexivity.
    + rewrite (dice_in_play_insert _ _ _ _ Hp), Hcount. lia.
Qed.

Lemma apply_penalty_one_die_witness :
  apply_penalty 0 lone_survivor
    = Return tt (with_players
                   [ Player.mk "Jan" LOST [] []; Player.mk "Kowalski" LOST [] [3] ]
                   lone_survivor) /\
  apply_penalty 1 lone_survivor = Raise (IndexError "pop from empty list") lone_survivor /\
  dice_in_play (players (challenge_table 2)) = 10 /\
  exists rh', apply_penalty 1 (challenge_table 2) = Return tt rh' /\
              dice_in_play (players rh') = 9.
Proof.
  split; [|split; [|split; [reflexivity|]]].
  - apply (proj2 (apply_penalty_one_die 0 lone_survivor
                    (Player.mk "Jan" WAITING [Die.default] []) eq_refl)).
    discriminate.
  - apply (proj1 (apply_penalty_one_die 1 lone_survivor
                    (Player.mk "Kowalski" LOST [] [3]) eq_refl)).
    reflexivity.
  - destruct (proj2 (apply_penalty_one_die 1 (challenge_table 2)
                       (Player.mk "Kowalski" ACTIVE (replicate 5 Die.default)
                          [5; 6; 1; 2; 3]) eq_refl))
      as (Hrun & _ & Hsum); [discriminate|].
    eexists. split; [exact Hrun|]. exact Hsum.
Defined.

End Endgame.

(** ** The loops over the players *)

Section Loops.
Import RoundHandler.

Lemma for_each_app {S A} (xs ys : list A) (body : A -> M S unit) (s : S) :
  for_each (xs ++ ys) body s = (for_each xs body ;; for_each ys body) s.
Proof.
  revert s. induction xs as [|x xs IH]; intros s; [reflexivity|].
  cbn [app for_each]. unfold bind.
  destruct (body x s) as [[] s'|e s'|s']; [|reflexivity..].
  rewrite IH. reflexivity.
Qed.

(** A loop over the first [k] positions whose body replaces the player
    at its position replaces the first [k] players. *)
Lemma for_each_upto (body : nat -> M t unit) (f : nat -> Player.t -> Player.t)
    (good : Player.t -> Prop) :
  (forall i rh p, players rh !! i = Some p -> good p ->
     body i rh = Return tt (with_players (<[i := f i p]> (players rh)) rh)) ->
  forall k rh, (k <= length (players rh))%nat ->
    Forall good (take k (players rh)) ->
    for_each (seq 0 k) body rh
      = Return tt (with_players (done_upto k f (players rh)) rh).
Proof.
  intros Hbody. induction k as [|k IH]; intros rh Hk Hgood.
  - unfold done_upto. simpl. rewrite drop_0, with_players_same. reflexivity.
  - rewrite seq_S, for_each_app. unfold bind.
    assert (Hgk : Forall good (take k (players rh))).
    { apply Forall_lookup. intros i x Hx. pose proof (lookup_lt_Some _ _ _ Hx) as Hi.
      rewrite length_take in Hi. rewrite lookup_take_lt in Hx by lia.
      apply (proj1 (Forall_lookup _ _) Hgood i x). rewrite lookup_take_lt by lia. exact Hx. }
    rewrite IH by (lia || exact Hgk). cbn [Nat.add for_each]. unfold bind.
    destruct (lookup_lt_is_Some_2 (players rh) k) as [p Hp]; [lia|].
    assert (Hgp : good p).
    { apply (proj1 (Forall_lookup _ _) Hgood k p). rewrite lookup_take_lt by lia. exact Hp. }
    set (rh1 := with_players (done_upto k f (players rh)) rh).
    assert (Hp1 : players rh1 !! k = Some p).
    { unfold rh1, done_upto. simpl.
      rewrite lookup_app_r by (rewrite length_imap, length_take; lia).
      rewrite length_imap, length_take, lookup_drop.
      replace (k + (k - k `min` length (players rh)))%nat with k by lia. exact Hp. }
    rewrite (Hbody k rh1 p Hp1 Hgp). unfold ret. f_equal.
    unfold rh1, with_players. simpl. f_equal. unfold done_upto.
    apply list_eq. intros i.
    destruct (decide (i = k)) as [->|Hne].
    + rewrite list_lookup_insert_eq
        by (rewrite length_app, length_imap, length_take, length_drop; lia).
      rewrite lookup_app_l by (rewrite length_imap, length_take; lia).
      rewrite list_lookup_imap, lookup_take_lt by lia. rewrite Hp. reflexivity.
    + rewrite list_lookup_insert_ne by auto.
      destruct (decide (i < k)%nat).
      * rewrite !lookup_app_l by (rewrite length_imap, length_take; lia).
        rewrite !list_lookup_imap, !lookup_take_lt by lia. reflexivity.
      * rewrite !lookup_app_r by (rewrite length_imap, length_take; lia).
        rewrite !length_imap, !length_take, !lookup_drop. f_equal. lia.
Qed.

Lemma seq_split (k n : nat) :
  (k < n)%nat -> seq 0 n = seq 0 k ++ k :: seq (S k) (n - S k).
Proof.
  intros Hk. replace n with (k + S (n - S k))%nat at 1 by lia.
  rewrite seq_app. reflexivity.
Qed.

(** A loop over all positions whose body raises on the first player
    that is not [good]: the players before it have been replaced, and
    the exception comes from that player. *)
Lemma for_each_raises_at (body : nat -> M t unit) (f : nat -> Player.t -> Player.t)
    (good : Player.t -> Prop) `{!forall p, Decision (good p)} (e : exn) :
  (forall i rh p, players rh !! i = Some p -> good p ->
     body i rh = Return tt (with_players (<[i := f i p]> (players rh)) rh)) ->
  (forall i rh p, players rh !! i = Some p -> ~ good p -> body i rh = Raise e rh) ->
  forall rh k p,
    list_find (fun p => ~ good p) (players rh) = Some (k, p) ->
    for_each (seq 0 (length (players rh))) body rh
      = Raise e (with_players (done_upto k f (players rh)) rh).
Proof.
  intros Hgood Hbad rh k p Hfind.
  apply list_find_Some in Hfind as (Hp & Hnp & Hfirst).
  pose proof (lookup_lt_Some _ _ _ Hp) as Hk.
  rewrite (seq_split k _ Hk), for_each_app. unfold bind.
  assert (Hbefore : Forall good (take k (players rh))).
  { apply Forall_lookup. intros i x Hx.
    pose proof (lookup_lt_Some _ _ _ Hx) as Hi. rewrite length_take in Hi.
    rewrite lookup_take_lt in Hx by lia.
    destruct (decide (good x)) as [Hg|Hg]; [exact Hg|].
    exfalso. apply (Hfirst i x Hx); [lia|exact Hg]. }
  rewrite (for_each_upto body f good Hgood k rh) by (lia || exact Hbefore).
  cbn [for_each]. unfold bind.
  set (rh1 := with_players (done_upto k f (players rh)) rh).
  assert (Hp1 : players rh1 !! k = Some p).
  { unfold rh1, done_upto. simpl.
    rewrite lookup_app_r by (rewrite length_imap, length_take; lia).
    rewrite length_imap, length_take, lookup_drop.
    replace (k + (k - k `min` length (players rh)))%nat with k by lia. exact Hp. }
  rewrite (Hbad k rh1 p Hp1 Hnp). reflexivity.
Qed.

Lemma reset_one_not_LOST i rh p :
  players rh !! i = Some p -> Player.state p <> LOST ->
  reset_one i rh = Return tt (with_players (<[i := after_reset_any p]> (players rh)) rh).
Proof.
  intros Hp Hl. pose proof (lookup_lt_Some _ _ _ Hp) as Hi.
  unfold reset_one, call_, call, bind, subscript, modify, lift, ret.
  rewrite Hp. unfold Player.reset_roll. rewrite bool_decide_false by exact Hl.
  simpl. rewrite list_lookup_insert_eq by exact Hi.
  unfold Player.get_dice_count. simpl. unfold after_reset_any.
  destruct (Player.dice p) as [|d ds] eqn:Hdice.
  - simpl. unfold eliminate_player, assign_state, bind, get, subscript, modify. simpl.
    repeat (rewrite list_lookup_insert_eq by (rewrite ?length_insert; exact Hi); simpl).
    rewrite list_insert_insert_eq. unfold Player.with_state, Player.with_last_roll.
    simpl. rewrite Hdice. reflexivity.
  - simpl. rewrite list_lookup_insert_eq by exact Hi.
    unfold Player.set_state. simpl. rewrite bool_decide_false by exact Hl. simpl.
    rewrite list_insert_insert_eq. unfold Player.with_state, Player.with_last_roll.
    simpl. rewrite Hdice. reflexivity.
Qed.

(** X10.  [reset_players_after_round] returns when no player is LOST:
    every recorded roll is then cleared, a player without dice is LOST
    and every other player WAITING.  With a LOST player in the list it
    raises the exception of [reset_roll]: the players before the first
    LOST one have been reset, that one and those after it are as they
    were. *)
Theorem reset_players_after_round_outcome (rh : t) :
  (Forall (fun p => Player.state p <> LOST) (players rh) ->
     reset_players_after_round rh
       = Return tt (with_players (after_reset_any <$> players rh) rh)) /\
  (forall k p,
     list_find (fun p => Player.state p = LOST) (players rh) = Some (k, p) ->
     reset_players_after_round rh
       = Raise (Exception "Player cannot roll dice after losing")
           (with_players (done_upto k (fun _ => after_reset_any) (players rh)) rh)).
Proof.
  unfold reset_players_after_round, positions. split.
  - intros Hall. unfold bind at 1.
    pose proof (for_each_all_players reset_one (const after_reset_any)
                  (fun p => Player.state p <> LOST) rh
                  (fun i rh p => reset_one_not_LOST i rh p) Hall) as H.
    rewrite imap_const in H. exact H.
  - intros k p Hfind. unfold bind at 1.
    apply (for_each_raises_at reset_one (fun _ => after_reset_any)
             (fun p => Player.state p <> LOST) _
             (fun i rh p => reset_one_not_LOST i rh p)) with p.
    + intros i rh' q Hq Hl. apply (reset_one_LOST _ _ _ Hq).
      destruct (decide (Player.state q = LOST)); [assumption|contradiction].
    + apply list_find_Some in Hfind as (Hp & Hl & Hfirst).
      apply list_find_Some. repeat split; [exact Hp|intros H; exact (H Hl)|].
      intros j y Hy Hj Hny. apply (Hfirst j y Hy Hj).
      destruct (decide (Player.state y = LOST)); [assumption|contradiction].
Qed.

Lemma reset_players_after_round_outcome_witness :
  reset_players_after_round (challenge_table 2)
    = Return tt (with_players
                   [ Player.mk "Jan" WAITING (replicate 5 Die.default) [];
                     Player.mk "Kowalski" WAITING (replicate 5 Die.default) [] ]
                   (challenge_table 2)) /\
  reset_players_after_round kowalski_just_out
    = Raise (Exception "Player cannot roll dice after losing")
        (with_players
           [ Player.mk "Jan" WAITING [Die.default] [];
             Player.mk "Kowalski" LOST [] [3];
             Player.mk "Tomasz" WAITING [Die.default] [3] ] kowalski_just_out).
Proof.
  split.
  - apply (proj1 (reset_players_after_round_outcome (challenge_table 2))).
    repeat constructor; discriminate.
  - exact (proj2 (reset_players_after_round_outcome kowalski_just_out) 1%nat
             (Player.mk "Kowalski" LOST [] [3]) eq_refl).
Defined.

End Loops.

Section StartRound.
Import RoundHandler.

Lemma roll_one_has_dice entropy i rh p :
  players rh !! i = Some p -> Player.dice p <> [] ->
  roll_one entropy i rh
    = Return tt (with_players (<[i := after_roll entropy i p]> (players rh)) rh).
Proof. apply roll_one_playing. Qed.

Lemma roll_one_no_dice entropy i rh p :
  players rh !! i = Some p -> ~ Player.dice p <> [] ->
  roll_one entropy i rh
    = Raise (ValueError "Number of dice to roll must be greater than 0") rh.
Proof.
  intros Hp Hd. assert (Hnil : Player.dice p = [])
    by (destruct (Player.dice p); [reflexivity|exfalso; apply Hd; discriminate]).
  unfold roll_one, call, bind, subscript, lift. rewrite Hp.
  unfold Player.make_roll, Player.get_dice_count. rewrite Hnil. reflexivity.
Qed.

(** X11.  [start_round] first adds one to the round number, then has the
    players roll in list order.  If a player has no dice it raises the
    ValueError of [make_roll] there: the players before the first such
    player have rolled, the current bid is not cleared, nobody is made
    ACTIVE.  If every player has dice, every player has rolled the whole
    hand and the bid is cleared; the player at the rotation pointer is
    then made ACTIVE and the call returns, unless that player is LOST,
    where it raises the exception of [set_state]. *)
Theorem start_round_outcome (entropy : nat -> nat -> Z) (rh : t) :
  (forall k p,
     list_find (fun p => Player.dice p = []) (players rh) = Some (k, p) ->
     start_round entropy rh
       = Raise (ValueError "Number of dice to roll must be greater than 0")
           (mk (done_upto k (after_roll entropy) (players rh))
               (round_number rh + 1) (current_player_id rh) (current_bid rh)
               (dice_count rh))) /\
  (Forall (fun p => Player.dice p <> []) (players rh) ->
   forall pc, players rh !! current_player_id rh = Some pc ->
     (Player.state pc <> LOST ->
        start_round entropy rh
          = Return tt (mk (round_started entropy (current_player_id rh) (players rh))
                          (round_number rh + 1) (current_player_id rh) None
                          (dice_count rh))) /\
     (Player.state pc = LOST ->
        start_round entropy rh
          = Raise (Exception "Player cannot come back after losing")
              (mk (imap (after_roll entropy) (players rh))
                  (round_number rh + 1) (current_player_id rh) None (dice_count rh)))).
Proof.
  split.
  - intros k p Hfind.
    unfold start_round. unfold bind at 1, modify. unfold bind at 1, positions.
    unfold bind at 1.
    set (rh1 := with_round_number (round_number rh + 1) rh).
    set (loop := for_each _ _ rh1).
    assert (Hloop : loop = Raise (ValueError "Number of dice to roll must be greater than 0")
                             (with_players (done_upto k (after_roll entropy) (players rh1))
                                rh1)); [|rewrite Hloop; reflexivity].
    apply (for_each_raises_at (roll_one entropy) (after_roll entropy)
             (fun p => Player.dice p <> []) _
             (fun i rh p => roll_one_has_dice entropy i rh p)
             (fun i rh p => roll_one_no_dice entropy i rh p) rh1 k p).
    apply list_find_Some in Hfind as (Hp & Hd & Hfirst).
    apply list_find_Some. repeat split; [exact Hp|intros Hn; exact (Hn Hd)|].
    intros j y Hy Hj Hny. apply (Hfirst j y Hy Hj).
    destruct (Player.dice y); [reflexivity|exfalso; apply Hny; discriminate].
  - intros Hall pc Hpc. split.
    + intros Hl. exact (start_round_playing entropy rh pc Hall Hpc Hl).
    + intros Hl.
      unfold start_round. unfold bind at 1, modify. unfold bind at 1, positions.
      unfold bind at 1.
      set (rh1 := with_round_number (round_number rh + 1) rh).
      pose proof (for_each_all_players (roll_one entropy) (after_roll entropy)
                    (fun p => Player.dice p <> []) rh1
                    (fun i rh p => roll_one_has_dice entropy i rh p) Hall) as Hloop.
      simpl in Hloop. simpl. unfold roll_one in Hloop. rewrite Hloop. clear Hloop.
      unfold bind at 1, modify. unfold bind at 1, get. simpl.
      unfold call_, call, bind, subscript, lift, raise. simpl.
      rewrite list_lookup_imap, Hpc. simpl.
      unfold Player.set_state. simpl. rewrite bool_decide_true by exact Hl.
      reflexivity.
Qed.

Lemma start_round_outcome_witness :
  start_round threes kowalski_just_out
    = Raise (ValueError "Number of dice to roll must be greater than 0")
        (mk [ Player.mk "Jan" ACTIVE [Die.default] [3; 3];
              Player.mk "Kowalski" LOST [] [3];
              Player.mk "Tomasz" WAITING [Die.default] [3] ]
            2 0%nat (Some (Bid.mk 1 4 1%nat)) 3) /\
  start_round threes (bidding_table (Some (Bid.mk 3 4 1%nat)))
    = Return tt (mk [ Player.mk "Jan" ACTIVE (replicate 5 Die.default) [3; 3; 3; 3; 3];
                      Player.mk "Kowalski" WAITING (replicate 5 Die.default)
                        [3; 3; 3; 3; 3] ]
                    2 0%nat None 10).
Proof.
  split.
  - exact (proj1 (start_round_outcome threes kowalski_just_out) 1%nat
             (Player.mk "Kowalski" LOST [] [3]) eq_refl).
  - refine (proj1 (proj2 (start_round_outcome threes
                            (bidding_table (Some (Bid.mk 3 4 1%nat)))) _
                     (Player.mk "Jan" ACTIVE (replicate 5 Die.default) []) eq_refl) _).
    + repeat constructor; discriminate.
    + discriminate.
Defined.

End StartRound.

(** ** Bids in a round *)

Section Bids.
Import RoundHandler.




(** X14.  [make_bid] has no check of its own on the quantity from below:
    a quantity under one gets as far as the constructor of Bid, which
    refuses it.  Such a bid is never accepted; for an ACTIVE player whose
    bid passes the other checks the call raises the ValueError of the
    constructor, and the round handler is as it was. *)
Theorem make_bid_quantity_positive (name : string) (q v : Z) (rh : t) :
  q < 1 ->
  (forall rh', make_bid name q v rh <> Return tt rh') /\
  (forall i p sides,
     list_find (fun p => Player.name p = name) (players rh) = Some (i, p) ->
     Player.get_die_value p = Ok sides -> 1 <= v <= sides -> q <= dice_count rh ->
     Player.state p = ACTIVE ->
     make_bid name q v rh
       = Raise (ValueError "Quantity and value must be greater than 0") rh).
Proof.
  intros Hq.
  assert (Hinit : forall i p, players rh !! i = Some p ->
            Bid.init (players rh) q v i
              = Error (ValueError "Quantity and value must be greater than 0")).
  { intros i p Hp. unfold Bid.init. rewrite Hp.
    destruct (Z.ltb_spec q 1); [reflexivity|lia]. }
  split.
  - intros rh'.
    destruct (list_find (fun p => Player.name p = name) (players rh)) as [[i p]|] eqn:H.
    + rewrite (make_bid_found _ _ _ _ _ _ H).
      destruct (get_player_by_name_found _ _ _ _ H) as [_ Hp].
      rewrite (Hinit i p Hp).
      destruct (v <? 1); [discriminate|].
      destruct (Player.get_die_value p); [|discriminate].
      destruct (v >? a); [discriminate|].
      destruct (q >? dice_count rh); [discriminate|].
      case_bool_decide; discriminate.
    + unfold make_bid. unfold bind at 1.
      rewrite (get_player_by_name_absent _ _ H). discriminate.
  - intros i p sides H Hsides Hv Hdc Hact.
    rewrite (make_bid_found _ _ _ _ _ _ H), Hsides.
    destruct (get_player_by_name_found _ _ _ _ H) as [_ Hp].
    rewrite (Hinit i p Hp).
    destruct (Z.ltb_spec v 1); [lia|].
    destruct (Z.gtb_spec v sides); [lia|].
    destruct (Z.gtb_spec q (dice_count rh)); [lia|].
    rewrite bool_decide_false by (intros Hn; exact (Hn Hact)). reflexivity.
Qed.

Lemma make_bid_quantity_positive_witness :
  make_bid "Jan" 0 4 (bidding_table None)
    = Raise (ValueError "Quantity and value must be greater than 0") (bidding_table None) /\
  forall rh', make_bid "Jan" (-2) 4 (bidding_table None) <> Return tt rh'.
Proof.
  split.
  - apply (proj2 (make_bid_quantity_positive "Jan" 0 4 (bidding_table None) ltac:(lia))
             0%nat (Player.mk "Jan" ACTIVE (replicate 5 Die.default) []) 6);
      try reflexivity; simpl; lia.
  - apply (proj1 (make_bid_quantity_positive "Jan" (-2) 4 (bidding_table None)
                    ltac:(lia))).
Defined.

End Bids.

(** ** Who the players are *)

Section Names.
Import RoundHandler.

Lemma names_insert (ps : list Player.t) i (p p' : Player.t) :
  ps !! i = Some p -> Player.name p' = Player.name p ->
  Player.name <$> <[i := p']> ps = Player.name <$> ps.
Proof.
  intros Hp Hn. rewrite list_fmap_insert, Hn. apply list_insert_id.
  rewrite list_lookup_fmap, Hp. reflexivity.
Qed.

(** After any sequence of calls, the round handler lists the players it
    was given, under the same names and in the same order. *)
Lemma names_of_run_round (ops : list RoundOp) (rh : t) :
  names_of (run_round ops rh) = names_of rh.
Proof.
  apply (inv_run_round (fun s => names_of s = names_of rh) (fun _ => True));
    unfold names_of; auto.
  - intros i s p s0 _ H Hp. simpl. rewrite (names_insert _ _ p) by auto. exact H.
  - intros i d p s0 H Hp. simpl. rewrite (names_insert _ _ p) by auto. exact H.
  - intros i l p s0 H Hp. simpl. rewrite (names_insert _ _ p) by auto. exact H.
  - apply Forall_forall. auto.
Qed.

Lemma create_players_names d : forall names ps,
  GameHandler.create_players names d = Ok ps ->
  ps = (fun name => Player.mk name WAITING (replicate (Z.to_nat d) Die.default) [])
         <$> names.
Proof.
  induction names as [|name names IH]; intros ps; simpl.
  - intros [= <-]. reflexivity.
  - unfold Player.init. destruct (d <? 1); [discriminate|].
    destruct (GameHandler.create_players names d) as [ps'|]; [|discriminate].
    intros [= <-]. rewrite (IH ps' eq_refl). reflexivity.
Qed.

Lemma create_players_fmap_name d names ps :
  GameHandler.create_players names d = Ok ps -> Player.name <$> ps = names.
Proof.
  intros H. rewrite (create_players_names _ _ _ H), <- list_fmap_compose.
  apply list_fmap_id.
Qed.

(** X15.  The players of a game are the names it was constructed with,
    one player per name and in that order, and they stay so after any
    sequence of calls on the game handler, its round handler and its
    players: no call adds, removes, renames or reorders a player. *)
Theorem players_are_the_names_given (names : list string) (d : Z)
    (g0 : GameHandler.t) (ops : list GameOp) :
  GameHandler.init names d = Ok g0 ->
  Player.name <$> GameHandler.players g0 = names /\
  Player.name <$> GameHandler.players (run ops g0) = names /\
  length (GameHandler.players (run ops g0)) = length names /\
  GameHandler.players_names (run ops g0) = names.
Proof.
  intros Hinit.
  assert (H0 : Player.name <$> GameHandler.players g0 = names /\
               GameHandler.players_names g0 = names).
  { unfold GameHandler.init in Hinit. destruct (d <? 1); [discriminate|].
    destruct (GameHandler.create_players names d) as [ps|] eqn:Hps; [|discriminate].
    injection Hinit as <-. simpl. split; [|reflexivity].
    exact (create_players_fmap_name _ _ _ Hps). }
  destruct H0 as [H0 Hn0].
  destruct (run_facade ops g0) as (_ & Hnames & _ & rops & Hr & _).
  assert (H1 : Player.name <$> GameHandler.players (run ops g0) = names).
  { unfold GameHandler.players. rewrite Hr.
    change (names_of (run_round rops (GameHandler.round_handler g0)) = names).
    rewrite names_of_run_round. exact H0. }
  split; [exact H0|]. split; [exact H1|]. split.
  - rewrite <- (length_fmap Player.name), H1. reflexivity.
  - rewrite Hnames. exact Hn0.
Qed.

Lemma players_are_the_names_given_witness :
  Player.name <$> GameHandler.players kowalski_eliminated = ["Jan"; "Kowalski"; "Tomasz"] /\
  length (GameHandler.players
            (run [OnRoundHandler (ApplyPenalty 0); OnRoundHandler NextPlayer]
               kowalski_eliminated)) = 3%nat.
Proof.
  split.
  - apply (players_are_the_names_given ["Jan"; "Kowalski"; "Tomasz"] 1
             three_player_start
             [GameStartRound threes; PlayBidTurn 0 1 3; PlayChallengeTurn 1 threes]).
    reflexivity.
  - apply (players_are_the_names_given ["Jan"; "Kowalski"; "Tomasz"] 1
             three_player_start
             ([GameStartRound threes; PlayBidTurn 0 1 3; PlayChallengeTurn 1 threes]
              ++ [OnRoundHandler (ApplyPenalty 0); OnRoundHandler NextPlayer])).
    reflexivity.
Defined.

End Names.

(** ** The name that a challenge returns *)

Section ChallengeName.
Import RoundHandler.

Lemma bind_Return {S A B} (m : M S A) (f : A -> M S B) s b s' :
  bind m f s = Return b s' ->
  exists a s1, m s = Return a s1 /\ f a s1 = Return b s'.
Proof.
  unfold bind. destruct (m s) as [a s1|e s1|s1]; [eauto|discriminate..].
Qed.

Lemma names_of_challenge name entropy rh :
  names_of (final (challenge_and_end_round name entropy rh)) = names_of rh.
Proof.
  apply (inv_challenge_and_end_round (fun s => names_of s = names_of rh) (fun _ => True));
    unfold names_of; auto.
  - intros i s p s0 _ H Hp. simpl. rewrite (names_insert _ _ p) by auto. exact H.
  - intros i d p s0 H Hp. simpl. rewrite (names_insert _ _ p) by auto. exact H.
  - intros i l p s0 H Hp. simpl. rewrite (names_insert _ _ p) by auto. exact H.
Qed.

(** X16.  Whenever [challenge_and_end_round] returns, there was a bid to
    challenge and the challenger was found by name and ACTIVE; the name
    returned is the name of the bidder when fewer dice than the bid's
    quantity show the bid's face value, and that of the challenger
    otherwise. *)
Theorem challenge_returns_the_loser (name : string) (entropy : nat -> nat -> Z)
    (rh rh' : t) (loser_name : string) :
  challenge_and_end_round name entropy rh = Return loser_name rh' ->
  exists bid challenger p,
    current_bid rh = Some bid /\
    list_find (fun p => Player.name p = name) (players rh) = Some (challenger, p) /\
    Player.state p = ACTIVE /\
    let count := dice_showing (Bid.value bid) (players rh) in
    let loser := if count <? Bid.quantity bid then Bid.player bid else challenger in
    Player.name <$> players rh !! loser = Some loser_name.
Proof.
  intros Hrun.
  assert (Hnames : names_of rh' = names_of rh).
  { pose proof (names_of_challenge name entropy rh) as H.
    rewrite Hrun in H. exact H. }
  unfold challenge_and_end_round in Hrun. unfold bind at 1, get in Hrun.
  destruct (current_bid rh) as [bid|] eqn:Hbid; [|discriminate].
  apply bind_Return in Hrun as (i & s1 & Hg & Hrun).
  unfold get_player_by_name, bind, get in Hg.
  destruct (list_find _ _) as [[i' p]|] eqn:Hfind; [|discriminate].
  injection Hg as <- <-.
  apply bind_Return in Hrun as (p' & s1 & Hp & Hrun).
  destruct (get_player_by_name_found _ _ _ _ Hfind) as [_ Hpi].
  rewrite (subscript_Some _ _ _ Hpi) in Hp. injection Hp as <- <-.
  case_bool_decide as Hact; [discriminate|].
  apply bind_Return in Hrun as (C & s1 & Hcount & Hrun).
  apply count_dice_value_Return in Hcount as [-> ->].
  apply bind_Return in Hrun as (? & s1 & _ & Hrun).
  apply bind_Return in Hrun as (? & s2 & _ & Hrun).
  apply bind_Return in Hrun as (again & s3 & _ & Hrun).
  apply bind_Return in Hrun as (? & s4 & _ & Hrun).
  apply bind_Return in Hrun as (l & s5 & Hl & Hrun).
  unfold ret in Hrun. injection Hrun as <- <-.
  unfold subscript in Hl.
  destruct (players s4 !! _) as [l'|] eqn:Hl'; [|discriminate].
  injection Hl as <- <-.
  exists bid, i', p. split; [reflexivity|]. split; [reflexivity|].
  split; [destruct (decide (Player.state p = ACTIVE)); [assumption|contradiction]|].
  cbv zeta. unfold resolve_challenge in Hl'.
  rewrite <- list_lookup_fmap. change (Player.name <$> players rh) with (names_of rh).
  rewrite <- Hnames. unfold names_of. rewrite list_lookup_fmap, Hl'. reflexivity.
Qed.

Lemma challenge_returns_the_loser_witness :
  exists bid challenger p,
    current_bid (run_round [StartRound threes; MakeBid "Jan" 1 3]
                   (RoundHandler.init two_dice_each)) = Some bid /\
    Bid.player bid = 0%nat /\ challenger = 1%nat /\ Player.name p = "Kowalski" /\
    dice_showing 3 (players (run_round [StartRound threes; MakeBid "Jan" 1 3]
                               (RoundHandler.init two_dice_each))) = 4.
Proof.
  destruct (challenge_returns_the_loser "Kowalski" threes
              (run_round [StartRound threes; MakeBid "Jan" 1 3]
                 (RoundHandler.init two_dice_each))
              (RoundHandler.mk
                 [ Player.mk "Jan" WAITING [Die.default; Die.default] [3; 3];
                   Player.mk "Kowalski" ACTIVE [Die.default] [3] ]
                 2 1%nat None 4)
              "Kowalski" ltac:(vm_compute; reflexivity))
    as (bid & challenger & p & Hbid & Hfind & _ & _).
  exists bid, challenger, p. split; [exact Hbid|].
  injection Hbid as <-. injection Hfind as <- <-.
  repeat split.
Defined.

End ChallengeName.

(** ** Taking turns *)

Section RoundRobin.
Import RoundHandler.

Lemma next_player_seated (ps : list Player.t) (c : nat) (rh : t) :
  players rh = seated c ps -> current_player_id rh = c -> (c < length ps)%nat ->
  next_player rh
    = Return tt (with_current_player_id ((c + 1) mod length ps)%nat
                   (with_players (seated ((c + 1) mod length ps)%nat ps) rh)).
Proof.
  intros Hps Hcur Hc.
  assert (Hlen : length (players rh) = length ps)
    by (rewrite Hps; unfold seated; apply length_imap).
  destruct (next_player_spec rh) as (rh' & d & H); [rewrite Hcur, Hlen; exact Hc|].
  cbv zeta in H. rewrite Hcur, Hlen in H.
  destruct H as (Hrun & Hd & Heq & _ & Hfirst & Hstates & Hlen' & _).
  set (n := length ps) in *.
  assert (Hd1 : d = 1%nat).
  { destruct (decide (d = 1%nat)) as [|Hne]; [assumption|]. exfalso.
    assert (Hn2 : (2 <= n)%nat) by lia.
    assert (Hlt : ((c + 1) mod n < n)%nat) by (apply Nat.mod_upper_bound; lia).
    destruct (lookup_lt_is_Some_2 ps _ Hlt) as [q Hq].
    apply (Hfirst 1%nat (Player.with_state WAITING q)); [lia| |reflexivity].
    rewrite Hps. unfold seated. rewrite list_lookup_imap, Hq. simpl.
    rewrite decide_False; [reflexivity|].
    destruct (decide (c + 1 < n)%nat).
    - rewrite Nat.mod_small by assumption. lia.
    - replace (c + 1)%nat with n by lia. rewrite Nat.Div0.mod_same. lia. }
  subst d. rewrite Hrun, Heq. f_equal. unfold with_current_player_id, with_players.
  simpl. f_equal. apply list_eq. intros i.
  destruct (ps !! i) as [q|] eqn:Hq.
  - assert (Hrhi : players rh !! i
                   = Some (Player.with_state (if decide (i = c) then ACTIVE else WAITING) q))
      by (rewrite Hps; unfold seated; rewrite list_lookup_imap, Hq; reflexivity).
    rewrite (Hstates _ _ Hrhi). unfold seated. rewrite list_lookup_imap, Hq. simpl.
    f_equal. unfold Player.with_state. simpl. f_equal.
    destruct (decide (i = (c + 1) mod n)%nat); [reflexivity|].
    destruct (decide (i = c)); reflexivity.
  - pose proof (proj1 (lookup_ge_None _ _) Hq) as Hge.
    rewrite (proj2 (lookup_ge_None _ _)) by (rewrite Hlen'; exact Hge).
    unfold seated. rewrite list_lookup_imap, Hq. reflexivity.
Qed.

(** X12.  At a table where the player at the rotation pointer is ACTIVE
    and every other player WAITING, [next_player] passes the turn to the
    next player in list order, the first following the last, and leaves
    a table of the same kind.  After [k] calls the turn is [k] places
    further round the table, and nothing but states and rotation pointer
    has changed. *)
Theorem next_player_round_robin (ps : list Player.t) (c k : nat) (rh : t) :
  players rh = seated c ps -> current_player_id rh = c -> (c < length ps)%nat ->
  turns k rh
    = with_current_player_id ((c + k) mod length ps)%nat
        (with_players (seated ((c + k) mod length ps)%nat ps) rh).
Proof.
  intros Hps Hcur Hc. induction k as [|k IH].
  - rewrite Nat.add_0_r, Nat.mod_small by exact Hc.
    destruct rh; simpl in *; subst; reflexivity.
  - change (turns (S k) rh) with (final (next_player (turns k rh))). rewrite IH.
    set (c' := ((c + k) mod length ps)%nat).
    assert (Hc' : (c' < length ps)%nat) by (apply Nat.mod_upper_bound; lia).
    rewrite (next_player_seated ps c') by (reflexivity || exact Hc').
    simpl. unfold with_current_player_id, with_players. simpl.
    replace ((c' + 1) mod length ps)%nat with ((c + S k) mod length ps)%nat;
      [reflexivity|].
    unfold c'. rewrite Nat.Div0.add_mod_idemp_l. f_equal. lia.
Qed.

Lemma next_player_round_robin_witness :
  turns 1 (bidding_table None)
    = with_current_player_id 1 (with_players kowalski_to_act (bidding_table None)) /\
  turns 2 (bidding_table None) = bidding_table None /\
  turns 5 (bidding_table None) = turns 1 (bidding_table None).
Proof.
  assert (H : forall k, turns k (bidding_table None)
            = with_current_player_id ((0 + k) mod 2)%nat
                (with_players (seated ((0 + k) mod 2)%nat jan_to_act)
                   (bidding_table None))).
  { intros k.
    exact (next_player_round_robin jan_to_act 0 k (bidding_table None)
             eq_refl eq_refl ltac:(simpl; lia)). }
  split; [|split].
  - rewrite H. reflexivity.
  - rewrite H. reflexivity.
  - rewrite !H. reflexivity.
Defined.

End RoundRobin.

(** ** Opening a game *)

Section Opening.

Lemma sum_Z_const {A} (f : A -> Z) (c : Z) (l : list A) :
  (forall x, f x = c) -> RoundHandler.sum_Z (f <$> l) = Z.of_nat (length l) * c.
Proof.
  intros Hf. unfold RoundHandler.sum_Z.
  induction l as [|x l IH]; [reflexivity|].
  rewrite fmap_cons. cbn [foldr length]. rewrite IH, Hf. lia.
Qed.

Lemma roll_first_faces (p : Player.t) (n : nat) (entropy : nat -> Z) :
  Forall (fun d => 2 <= Die.sides d) (Player.dice p) ->
  Forall (fun v => exists d, d ∈ Player.dice p /\ face_of d v)
    (Player.roll_first p n entropy).
Proof.
  intros Hs. unfold Player.roll_first. apply Forall_lookup. intros i v Hv.
  rewrite list_lookup_imap in Hv.
  destruct (take n (Player.dice p) !! i) as [d|] eqn:Hd; [|discriminate].
  injection Hv as <-.
  assert (Hin : d ∈ Player.dice p).
  { apply list_elem_of_lookup. exists i.
    pose proof (lookup_lt_Some _ _ _ Hd) as Hi. rewrite length_take in Hi.
    rewrite lookup_take_lt in Hd by lia. exact Hd. }
  exists d. split; [exact Hin|]. apply roll_face.
  exact (proj1 (Forall_forall _ _) Hs d Hin).
Qed.

(** X17.  A game constructed over at least one name, with [d] dice each,
    can be opened: [start_round] returns, the round number is 1, there is
    no bid, the round handler counts [d] dice per player, the first
    player is ACTIVE and every other player WAITING, each player holds
    [d] dice and has recorded [d] rolls showing 1 to 6, and
    [get_active_player] returns the first player. *)
Theorem opening_position (names : list string) (d : Z) (g0 : GameHandler.t)
    (entropy : nat -> nat -> Z) :
  GameHandler.init names d = Ok g0 ->
  names <> [] ->
  exists g1,
    GameHandler.start_round entropy g0 = Return tt g1 /\
    GameHandler.get_round_number g1 = 1 /\
    GameHandler.get_current_bid g1 = None /\
    GameHandler.game_state g1 = RUNNING /\
    RoundHandler.current_player_id (GameHandler.round_handler g1) = 0%nat /\
    RoundHandler.dice_count (GameHandler.round_handler g1)
      = Z.of_nat (length names) * d /\
    (forall i name, names !! i = Some name ->
       exists p, GameHandler.players g1 !! i = Some p /\
         Player.name p = name /\
         Player.state p = (if decide (i = 0%nat) then ACTIVE else WAITING) /\
         Player.get_dice_count p = d /\
         Z.of_nat (length (Player.last_roll p)) = d /\
         Forall (fun v => 1 <= v <= 6) (Player.last_roll p)) /\
    GameHandler.get_active_player g1 = Return 0%nat g1.
Proof.
  intros Hinit Hne. unfold GameHandler.init in Hinit.
  destruct (Z.ltb_spec d 1); [discriminate|].
  destruct (GameHandler.create_players names d) as [ps|] eqn:Hps; [|discriminate].
  injection Hinit as <-. apply create_players_names in Hps.
  set (new := fun name => Player.mk name WAITING (replicate (Z.to_nat d) Die.default) [])
    in Hps.
  assert (Hdice : Forall (fun p => Player.dice p <> []) ps).
  { subst ps. apply Forall_fmap, Forall_forall. intros name _. simpl.
    destruct (Z.to_nat d) eqn:Hd; [lia|discriminate]. }
  destruct names as [|n0 names]; [congruence|].
  assert (Hp0 : ps !! 0%nat = Some (new n0)) by (subst ps; reflexivity).
  pose proof (start_round_playing entropy (RoundHandler.init ps) (new n0)
                Hdice Hp0 ltac:(discriminate)) as Hstart.
  unfold GameHandler.start_round, GameHandler.on_round_handler.
  cbn [GameHandler.round_handler]. rewrite Hstart. eexists. split; [reflexivity|].
  cbn [RoundHandler.players RoundHandler.round_number RoundHandler.current_player_id
       RoundHandler.init RoundHandler.dice_count].
  unfold GameHandler.get_round_number, GameHandler.get_current_bid, GameHandler.players.
  cbn [GameHandler.with_round_handler GameHandler.round_handler GameHandler.game_state
       RoundHandler.round_number RoundHandler.current_bid RoundHandler.players
       RoundHandler.current_player_id RoundHandler.dice_count].
  set (table := round_started entropy 0 ps).
  assert (Hlook : forall i name, (n0 :: names) !! i = Some name ->
            table !! i = Some (Player.with_state
                                 (if decide (i = 0%nat) then ACTIVE else WAITING)
                                 (after_roll entropy i (new name)))).
  { intros i name Hi. unfold table, round_started.
    assert (Hpi : ps !! i = Some (new name))
      by (subst ps; rewrite list_lookup_fmap, Hi; reflexivity).
    rewrite list_lookup_imap, Hp0. cbn [fmap option_fmap option_map].
    destruct (decide (i = 0%nat)) as [->|Hi0].
    - rewrite list_lookup_insert_eq by (rewrite length_imap; subst ps; simpl; lia).
      simpl in Hi. injection Hi as <-. reflexivity.
    - rewrite list_lookup_insert_ne by auto. rewrite list_lookup_imap, Hpi.
      reflexivity. }
  assert (Hn : Z.of_nat (Z.to_nat d) = d) by lia.
  split; [reflexivity|]. split; [reflexivity|]. split; [reflexivity|].
  split; [reflexivity|]. split; [|split].
  - rewrite Hps, <- list_fmap_compose.
    apply (sum_Z_const (Player.get_dice_count ∘ new) d). intros name.
    unfold compose, new, Player.get_dice_count. simpl.
    rewrite length_replicate. exact Hn.
  - intros i name Hi. eexists. split; [exact (Hlook i name Hi)|].
    split; [reflexivity|]. split; [reflexivity|].
    unfold Player.get_dice_count, after_roll, Player.roll_first. simpl.
    rewrite length_replicate. split; [exact Hn|].
    rewrite length_imap, length_take, length_replicate. split; [lia|].
    pose proof (roll_first_faces (new name) (Z.to_nat d) (entropy i)) as Hf.
    unfold Player.roll_first in Hf. simpl in Hf.
    eapply Forall_impl; [apply Hf|].
    + apply Forall_forall. intros x Hx. apply elem_of_replicate in Hx as [-> _].
      simpl. lia.
    + intros v (x & Hx & Hface). apply elem_of_replicate in Hx as [-> _].
      exact Hface.
  - unfold GameHandler.get_active_player, GameHandler.on_round_handler,
      RoundHandler.get_active_player, bind, get.
    cbn [GameHandler.round_handler GameHandler.with_round_handler RoundHandler.players].
    fold table.
    assert (Hf : list_find (fun p => Player.is_active p = true) table
                 = Some (0%nat, Player.with_state ACTIVE (after_roll entropy 0 (new n0)))).
    { apply list_find_Some. split; [exact (Hlook 0%nat n0 eq_refl)|].
      split; [reflexivity|]. intros j y _ Hj. lia. }
    rewrite Hf. reflexivity.
Qed.

Lemma opening_position_witness :
  exists g1,
    GameHandler.start_round threes three_player_start = Return tt g1 /\
    GameHandler.get_round_number g1 = 1 /\
    states_of g1 = [ACTIVE; WAITING; WAITING] /\
    GameHandler.get_active_player g1 = Return 0%nat g1.
Proof.
  destruct (opening_position ["Jan"; "Kowalski"; "Tomasz"] 1 three_player_start threes)
    as (g1 & Hrun & Hround & _ & _ & _ & _ & _ & Hactive);
    [reflexivity|discriminate|].
  exists g1. split; [exact Hrun|]. split; [exact Hround|]. split; [|exact Hactive].
  injection Hrun as <-. reflexivity.
Defined.

End Opening.

(** ** Turns taken through the game handler *)

Lemma next_player_out_of_range (rh : RoundHandler.t) :
  ~ (RoundHandler.current_player_id rh < length (RoundHandler.players rh))%nat ->
  RoundHandler.next_player rh = Raise (IndexError "list index out of range") rh.
Proof.
  intros Hc. unfold RoundHandler.next_player, RoundHandler.assign_state,
    RoundHandler.subscript, bind, get.
  rewrite lookup_ge_None_2 by lia. reflexivity.
Qed.

Lemma make_bid_returns (name : string) (q v : Z) (rh rh' : RoundHandler.t) :
  RoundHandler.make_bid name q v rh = Return tt rh' ->
  exists j pj sides,
    list_find (fun x => Player.name x = name) (RoundHandler.players rh) = Some (j, pj) /\
    Player.state pj = ACTIVE /\
    Player.get_die_value pj = Ok sides /\
    1 <= v <= sides /\
    1 <= q <= RoundHandler.dice_count rh /\
    RoundHandler.is_higher_bid (Bid.mk q v j) (RoundHandler.current_bid rh) = true /\
    RoundHandler.current_bid rh' = Some (Bid.mk q v j) /\
    RoundHandler.round_number rh' = RoundHandler.round_number rh.
Proof.
  intros Hrun.
  destruct (list_find (fun x => Player.name x = name) (RoundHandler.players rh))
    as [[j pj]|] eqn:Hfind.
  2:{ unfold RoundHandler.make_bid, RoundHandler.get_player_by_name, bind, get in Hrun.
      rewrite Hfind in Hrun. discriminate. }
  rewrite (make_bid_found _ _ _ _ _ _ Hfind) in Hrun.
  destruct (Z.ltb_spec v 1); [discriminate|].
  destruct (Player.get_die_value pj) as [sides|] eqn:Hsides; [|discriminate].
  destruct (Z.gtb_spec v sides); [discriminate|].
  destruct (Z.gtb_spec q (RoundHandler.dice_count rh)); [discriminate|].
  case_bool_decide as Hact; [discriminate|].
  assert (Hstate : Player.state pj = ACTIVE).
  { destruct (decide (Player.state pj = ACTIVE)); [assumption|contradiction]. }
  unfold Bid.init in Hrun.
  pose proof (proj1 (list_find_Some _ _ _ _) Hfind) as (Hpj & _).
  rewrite Hpj in Hrun.
  destruct (Z.ltb_spec q 1); [discriminate|].
  destruct (Z.ltb_spec v 1); [lia|]. simpl in Hrun.
  unfold Player.is_active in Hrun. rewrite bool_decide_true in Hrun by exact Hstate.
  simpl in Hrun.
  destruct (RoundHandler.is_higher_bid (Bid.mk q v j) (RoundHandler.current_bid rh))
    eqn:Hhigher; [|discriminate].
  simpl in Hrun.
  destruct (decide (RoundHandler.current_player_id rh
                    < length (RoundHandler.players rh))%nat) as [Hc|Hc].
  2:{ rewrite next_player_out_of_range in Hrun by exact Hc. discriminate. }
  destruct (next_player_returns
              (RoundHandler.with_current_bid (Some (Bid.mk q v j)) rh) Hc)
    as (rh1 & Hnext & Hbid & _ & Hround).
  rewrite Hnext in Hrun. assert (rh' = rh1) as -> by congruence.
  exists j, pj, sides. repeat split; try assumption; lia.
Qed.

(** X18.  Whenever [play_bid_turn] returns, the player passed was ACTIVE,
    and the bid now standing has the quantity and face value given and is
    held by the first player in list order who carries that player's
    name; this player was ACTIVE, the face value lies between one and the
    sides of the first die of that player's hand, the quantity between
    one and the dice count of the round handler, and the bid is higher
    than the one that stood before.  Round number and game state are as they were.  When
    an earlier player carries the same name and is not ACTIVE, a bid that
    passes the range checks is refused with the ValueError of [make_bid]
    for a player that is not active, and the game is as it was. *)
Theorem play_bid_turn_records (i : nat) (q v : Z) (g : GameHandler.t) :
  (forall g', GameHandler.play_bid_turn i q v g = Return tt g' ->
     exists p j pj sides,
       GameHandler.players g !! i = Some p /\
       Player.state p = ACTIVE /\
       list_find (fun x => Player.name x = Player.name p) (GameHandler.players g)
         = Some (j, pj) /\
       (j <= i)%nat /\
       Player.state pj = ACTIVE /\
       Player.get_die_value pj = Ok sides /\
       1 <= v <= sides /\
       1 <= q <= RoundHandler.dice_count (GameHandler.round_handler g) /\
       RoundHandler.is_higher_bid (Bid.mk q v j) (GameHandler.get_current_bid g) = true /\
       GameHandler.get_current_bid g' = Some (Bid.mk q v j) /\
       GameHandler.get_round_number g' = GameHandler.get_round_number g /\
       GameHandler.game_state g' = GameHandler.game_state g) /\
  (forall p j pj sides,
     GameHandler.players g !! i = Some p ->
     Player.state p = ACTIVE ->
     list_find (fun x => Player.name x = Player.name p) (GameHandler.players g)
       = Some (j, pj) ->
     Player.state pj <> ACTIVE ->
     Player.get_die_value pj = Ok sides ->
     1 <= v <= sides ->
     q <= RoundHandler.dice_count (GameHandler.round_handler g) ->
     GameHandler.play_bid_turn i q v g
       = Raise (ValueError ("Player " +:+ Player.name p +:+ " is not active")) g).
Proof.
  split.
  - intros g' Hrun.
    unfold GameHandler.play_bid_turn, GameHandler.the_player, bind in Hrun.
    destruct (GameHandler.players g !! i) as [p|] eqn:Hp; [|discriminate].
    case_bool_decide as Hact; [discriminate|].
    assert (Hstate : Player.state p = ACTIVE).
    { destruct (decide (Player.state p = ACTIVE)); [assumption|contradiction]. }
    unfold GameHandler.on_round_handler in Hrun.
    destruct (RoundHandler.make_bid (Player.name p) q v (GameHandler.round_handler g))
      as [[] rh'| |] eqn:Hbid; try discriminate.
    injection Hrun as <-.
    destruct (make_bid_returns _ _ _ _ _ Hbid)
      as (j & pj & sides & Hfind & Hpj & Hsides & Hv & Hq & Hhigher & Hcur & Hround).
    exists p, j, pj, sides.
    assert (Hji : (j <= i)%nat).
    { pose proof (proj1 (list_find_Some _ _ _ _) Hfind) as (_ & _ & Hfirst).
      destruct (decide (j <= i)%nat) as [|Hgt]; [assumption|].
      exfalso. apply (Hfirst i p Hp); [lia|reflexivity]. }
    repeat split; try assumption; lia.
  - intros p j pj sides Hp Hstate Hfind Hpj Hsides Hv Hq.
    unfold GameHandler.play_bid_turn, GameHandler.the_player, bind.
    rewrite Hp. rewrite bool_decide_false by (intros Hne; exact (Hne Hstate)).
    unfold GameHandler.on_round_handler.
    rewrite (make_bid_found _ _ _ _ _ _ Hfind), Hsides.
    destruct (Z.ltb_spec v 1); [lia|].
    destruct (Z.gtb_spec v sides); [lia|].
    destruct (Z.gtb_spec q (RoundHandler.dice_count (GameHandler.round_handler g))); [lia|].
    rewrite bool_decide_true by exact Hpj.
    destruct g; reflexivity.
Qed.

Lemma play_bid_turn_records_witness :
  (exists g',
     GameHandler.play_bid_turn 0 1 3 (run [GameStartRound threes] three_player_start)
       = Return tt g' /\
     GameHandler.get_round_number g'
       = GameHandler.get_round_number (run [GameStartRound threes] three_player_start)) /\
  GameHandler.play_bid_turn 2 1 3 (GameHandler.mk ["Jan"; "Kowalski"; "Kowalski"] 1 namesakes RUNNING)
    = Raise (ValueError "Player Kowalski is not active")
        (GameHandler.mk ["Jan"; "Kowalski"; "Kowalski"] 1 namesakes RUNNING).
Proof.
  split.
  - eexists. split; [vm_compute; reflexivity|].
    destruct (proj1 (play_bid_turn_records 0 1 3
                       (run [GameStartRound threes] three_player_start)) _
                ltac:(vm_compute; reflexivity))
      as (p & j & pj & sides & _ & _ & _ & _ & _ & _ & _ & _ & _ & _ & Hround & _).
    exact Hround.
  - exact (proj2 (play_bid_turn_records 2 1 3
                    (GameHandler.mk ["Jan"; "Kowalski"; "Kowalski"] 1 namesakes RUNNING))
             (Player.mk "Kowalski" ACTIVE [Die.default] []) 1%nat
             (Player.mk "Kowalski" WAITING [Die.default] []) 6
             eq_refl eq_refl eq_refl ltac:(discriminate) eq_refl ltac:(lia)
             ltac:(simpl; lia)).
Defined.

(** ** The life of a player *)

Lemma run_player_op_keeps (op : PlayerOp) (p : Player.t) :
  Player.name (run_player_op op p) = Player.name p /\
  (length (Player.dice (run_player_op op p)) <= length (Player.dice p))%nat /\
  ((Player.dice p = [] -> Player.state p = LOST) ->
   Player.dice (run_player_op op p) = [] -> Player.state (run_player_op op p) = LOST) /\
  (Player.state p = LOST -> Player.state (run_player_op op p) = LOST).
Proof.
  unfold run_player_op, player_method.
  destruct op as [count entropy| | |s|j n].
  - unfold Player.make_roll.
    destruct (count <? 1); [auto|]. destruct (count >? _); simpl; auto.
  - unfold Player.lose_die. destruct (Player.dice p) as [|d ds] eqn:Hd.
    + rewrite Hd. auto.
    + unfold Player.get_dice_count. cbn [Player.dice Player.with_dice].
      pose proof (length_removelast_cons d ds) as Hlen.
      destruct (Z.eqb_spec (Z.of_nat (length (removelast (d :: ds)))) 0) as [Hz|Hz];
        cbn [Player.name Player.dice Player.state Player.with_state Player.with_dice];
        rewrite ?Hd; cbn [length]; repeat split; try lia; auto.
      intros _ Hnil. rewrite Hnil in Hz. simpl in Hz. lia.
  - unfold Player.reset_roll. case_bool_decide; simpl; auto.
  - unfold Player.set_state. case_bool_decide as Hs; simpl.
    + repeat split; auto.
    + repeat split; [lia| |contradiction].
      intros Hinv Hnil. contradiction (Hs (Hinv Hnil)).
  - destruct (Player.dice p !! j) as [d|] eqn:Hj; [|auto].
    unfold Die.set_sides. destruct (n <=? 1); [auto|]. simpl.
    rewrite length_insert. repeat split; [lia| |auto].
    intros _ Hnil. apply (f_equal length) in Hnil. rewrite length_insert in Hnil.
    apply lookup_lt_Some in Hj. simpl in Hnil. lia.
Qed.

(** X19.  Under the methods of a Player and of its dice ([make_roll],
    [lose_die], [reset_roll], [set_state], [set_sides] of a die), called
    in any order and with any arguments on a player the constructor
    made with [d] dice, whether they return or raise: the name is kept,
    the hand never holds more than [d] dice, a player without dice is
    LOST, and a player that is LOST stays LOST whatever is called
    next. *)
Theorem player_never_comes_back (name : string) (d : Z) (p : Player.t)
    (ops more : list PlayerOp) :
  Player.init name d = Ok p ->
  Player.name (run_player ops p) = name /\
  0 <= Player.get_dice_count (run_player ops p) <= d /\
  (Player.get_dice_count (run_player ops p) = 0 ->
   Player.state (run_player ops p) = LOST) /\
  (Player.state (run_player ops p) = LOST ->
   Player.state (run_player more (run_player ops p)) = LOST).
Proof.
  intros Hinit. unfold Player.init in Hinit.
  destruct (Z.ltb_spec d 1); [discriminate|]. injection Hinit as <-.
  set (p := Player.mk name WAITING (replicate (Z.to_nat d) Die.default) []).
  assert (Hkeep : forall l q,
            Player.name (run_player l q) = Player.name q /\
            (length (Player.dice (run_player l q)) <= length (Player.dice q))%nat /\
            ((Player.dice q = [] -> Player.state q = LOST) ->
             Player.dice (run_player l q) = [] -> Player.state (run_player l q) = LOST) /\
            (Player.state q = LOST -> Player.state (run_player l q) = LOST)).
  { induction l as [|op l IH]; intros q; [simpl; repeat split; auto|].
    change (run_player (op :: l) q) with (run_player l (run_player_op op q)).
    destruct (run_player_op_keeps op q) as (H1 & H2 & H3 & H4).
    destruct (IH (run_player_op op q)) as (I1 & I2 & I3 & I4).
    repeat split; [congruence|lia|auto|auto]. }
  destruct (Hkeep ops p) as (H1 & H2 & H3 & _).
  unfold Player.get_dice_count.
  split; [exact H1|]. split; [|split].
  - unfold p in H2 at 2. simpl in H2. rewrite length_replicate in H2. lia.
  - intros Hz. apply H3.
    + unfold p. simpl. destruct (Z.to_nat d) eqn:Hd; [lia|discriminate].
    + destruct (Player.dice (run_player ops p)); [reflexivity|simpl in Hz; lia].
  - intros Hlost. exact (proj2 (proj2 (proj2 (Hkeep more _))) Hlost).
Qed.

Lemma player_never_comes_back_witness :
  Player.state
    (run_player [SetState WON; MakeRoll 1 (fun _ => 0); ResetRoll]
       (run_player [LoseDie; LoseDie]
          (Player.mk "Jan" WAITING [Die.default; Die.default] []))) = LOST.
Proof.
  exact (proj2 (proj2 (proj2
           (player_never_comes_back "Jan" 2
              (Player.mk "Jan" WAITING [Die.default; Die.default] [])
              [LoseDie; LoseDie] [SetState WON; MakeRoll 1 (fun _ => 0); ResetRoll]
              eq_refl)))
         eq_refl).
Defined.
